(** * The header/source pair wizard of vscode-clangd, embedded in Rocq

    The repository holds several revisions of the same wizard, and the
    development keeps them apart:

    - [PairCreatorA] and [PairCreatorB]: the two documents of
      [create-source-header-pair.ts], each with its own [PairCreator];
    - [ServiceA] and [ServiceB]: the two documents that split the wizard into
      [PairCreatorService] and [PairCreatorUI]; the first memoises its
      existence checks, the second takes its collaborators as arguments;
    - the settings wrappers: the plain functions of [pairing-rule-service.ts]
      and the class of [pairing-rule-manager.ts] (both a bare update, modelled
      as [writeRules] inside the wizards), and [PairingRuleServiceNs], the
      namespace that validates rules before it saves them.

    Strings are [string]s of bytes, the UTF-8 encoding of the text;
    JavaScript objects used as dictionaries are [gmap]s, optional fields are
    [option]s, and the host editor (dialogs, settings, file system) is an
    explicit world threaded through the calls. *)

From Stdlib Require Import Ascii String.
From stdpp Require Import base option list strings gmap pretty.

Local Open Scope string_scope.

(** ** JavaScript string primitives used by the sources *)

Module JS.

Definition nl : string := String (ascii_of_nat 10) EmptyString.
Definition cr : string := String (ascii_of_nat 13) EmptyString.
Definition dquote : string := String (ascii_of_nat 34) EmptyString.

Definition lbrace : ascii := ascii_of_nat 123.
Definition rbrace : ascii := ascii_of_nat 125.

Definition between (lo hi n : nat) : bool := (lo <=? n)%nat && (n <=? hi)%nat.

Definition is_upper (c : ascii) : bool := between 65 90 (nat_of_ascii c).
Definition is_lower (c : ascii) : bool := between 97 122 (nat_of_ascii c).
Definition is_digit (c : ascii) : bool := between 48 57 (nat_of_ascii c).
Definition is_underscore (c : ascii) : bool := (nat_of_ascii c =? 95)%nat.

(** The class [\w] of a regular expression without the [u] and [i] flags. *)
Definition is_word_char (c : ascii) : bool :=
  is_upper c || is_lower c || is_digit c || is_underscore c.

(** [String.prototype.toUpperCase] on the ASCII range; other bytes are kept.
    The wizard only upper-cases names that passed the identifier check. *)
Definition upper_char (c : ascii) : ascii :=
  if is_lower c then ascii_of_nat (nat_of_ascii c - 32) else c.

Fixpoint toUpperCase (s : string) : string :=
  match s with
  | EmptyString => EmptyString
  | String c s' => String (upper_char c) (toUpperCase s')
  end.

(** [s.replace(/\n/g, eol)] for a line ending [eol]. *)
Fixpoint replace_newlines (eol : string) (s : string) : string :=
  match s with
  | EmptyString => EmptyString
  | String c s' =>
      if (nat_of_ascii c =? 10)%nat then eol ++ replace_newlines eol s'
      else String c (replace_newlines eol s')
  end.

Definition startsWith (s p : string) : bool := String.prefix p s.

(** [s.includes(p)]: [p] occurs somewhere in [s]. *)
Fixpoint includes (s p : string) : bool :=
  String.prefix p s ||
  match s with
  | EmptyString => false
  | String _ s' => includes s' p
  end.

(** [s.replace(/p/, r)] and [s.replace(/p/g, r)] for a pattern [p] that
    matches one literal text: the first occurrence only, or, with [all], every
    occurrence from left to right.  [skip] counts the bytes of a match that
    are still to be dropped.  The replacement is inserted as it is: the
    dollar patterns of a replacement string are not interpreted. *)
Fixpoint replace_from (all : bool) (p r : string) (done : bool) (skip : nat)
    (s : string) : string :=
  match s with
  | EmptyString => EmptyString
  | String c s' =>
      match skip with
      | S k => replace_from all p r done k s'
      | O =>
          if negb done && String.prefix p s then
            r ++ replace_from all p r (negb all) (String.length p - 1) s'
          else String c (replace_from all p r done 0 s')
      end
  end.

Definition replace_first (p r s : string) : string := replace_from false p r false 0 s.
Definition replace_all (p r s : string) : string := replace_from true p r false 0 s.

(** [String.prototype.trim] strips the white space and the line terminators
    of ECMAScript.  A string is held as the bytes of its UTF-8 encoding, so
    those outside ASCII take two or three bytes:
    U+0009 to U+000D and U+0020 (one byte); U+00A0 (C2 A0); U+1680 (E1 9A 80);
    U+2000 to U+200A, U+2028, U+2029 and U+202F (E2 80 80 to 8A, A8, A9, AF);
    U+205F (E2 81 9F); U+3000 (E3 80 80); U+FEFF (EF BB BF).
    [white_space_bytes s] is the number of bytes of the white space character
    that [s] starts with, [0] when it starts with none. *)
Definition white_space_bytes (s : string) : nat :=
  match s with
  | String a rest =>
      let x := nat_of_ascii a in
      if between 9 13 x || (x =? 32)%nat then 1%nat
      else
        match rest with
        | String b rest' =>
            let y := nat_of_ascii b in
            if (x =? 194)%nat && (y =? 160)%nat then 2%nat
            else
              match rest' with
              | String d _ =>
                  let z := nat_of_ascii d in
                  if (x =? 225)%nat && (y =? 154)%nat && (z =? 128)%nat
                     || (x =? 226)%nat && (y =? 128)%nat
                        && (between 128 138 z || (z =? 168)%nat || (z =? 169)%nat
                            || (z =? 175)%nat)
                     || (x =? 226)%nat && (y =? 129)%nat && (z =? 159)%nat
                     || (x =? 227)%nat && (y =? 128)%nat && (z =? 128)%nat
                     || (x =? 239)%nat && (y =? 187)%nat && (z =? 191)%nat
                  then 3%nat
                  else 0%nat
              | EmptyString => 0%nat
              end
        | EmptyString => 0%nat
        end
  | EmptyString => 0%nat
  end.

(** [skip] counts the bytes of the current white space character that are
    still to pass. *)
Fixpoint trimStart_go (skip : nat) (s : string) : string :=
  match s with
  | EmptyString => EmptyString
  | String _ s' =>
      match skip with
      | S k => trimStart_go k s'
      | O =>
          match white_space_bytes s with
          | S k => trimStart_go k s'
          | O => s
          end
      end
  end.

Definition trimStart (s : string) : string := trimStart_go 0 s.

(** [s] is white space from end to end. *)
Fixpoint all_white_space_go (skip : nat) (s : string) : bool :=
  match s with
  | EmptyString => true
  | String _ s' =>
      match skip with
      | S k => all_white_space_go k s'
      | O =>
          match white_space_bytes s with
          | S k => all_white_space_go k s'
          | O => false
          end
      end
  end.

Definition all_white_space (s : string) : bool := all_white_space_go 0 s.

(** The text up to the white space that ends [s]. *)
Fixpoint trimEnd (s : string) : string :=
  match s with
  | EmptyString => EmptyString
  | String c s' => if all_white_space s then EmptyString else String c (trimEnd s')
  end.

Definition trim (s : string) : string := trimEnd (trimStart s).

(** A string is truthy when it is not empty. *)
Definition truthy (s : string) : bool :=
  match s with EmptyString => false | _ => true end.

End JS.

(** ** Placeholder substitution

    Both [applyTemplate] bodies are [template.replace(/\{\{(\w+)\}\}/g, f)]
    with a replacer function [f(match, key)].  A global regular-expression
    replace scans the subject from left to right; at each position either the
    pattern matches, [f]'s result is emitted and the scan resumes after the
    match, or one character is copied.  [\w+] is greedy and a closing brace is
    no word character, so the pattern matches at a position exactly when the
    two opening braces are followed by a non-empty maximal run of word
    characters and then by two closing braces. *)

Module Template.
Import JS.

(** The longest prefix of word characters. *)
Fixpoint take_word (s : string) : string :=
  match s with
  | String c s' => if is_word_char c then String c (take_word s') else EmptyString
  | EmptyString => EmptyString
  end.

Fixpoint drop (n : nat) (s : string) : string :=
  match n, s with
  | S k, String _ s' => drop k s'
  | _, _ => s
  end.

(** The key of the placeholder that starts at the head of [s], if any. *)
Definition match_placeholder (s : string) : option string :=
  match s with
  | String a (String b s1) =>
      if Ascii.eqb a lbrace && Ascii.eqb b lbrace then
        let key := take_word s1 in
        match key, drop (String.length key) s1 with
        | String _ _, String c (String d _) =>
            if Ascii.eqb c rbrace && Ascii.eqb d rbrace then Some key else None
        | _, _ => None
        end
      else None
  | _ => None
  end.

(** The text of the match for a key: the capture between its braces. *)
Definition placeholder_text (key : string) : string :=
  String lbrace (String lbrace key) ++ String rbrace (String rbrace EmptyString).

(** [skip] is the number of characters of the current match still to pass. *)
Fixpoint replace_go (f : string -> string -> string) (skip : nat) (s : string) : string :=
  match s with
  | EmptyString => EmptyString
  | String c s' =>
      match skip with
      | S k => replace_go f k s'
      | O =>
          match match_placeholder s with
          | Some key =>
              f (placeholder_text key) key ++ replace_go f (String.length key + 3) s'
          | None => String c (replace_go f 0 s')
          end
      end
  end.

Definition replace_placeholders (f : string -> string -> string) (s : string) : string :=
  replace_go f 0 s.

(** The keys of the matches, in order (what the replacer is called with). *)
Fixpoint placeholders_go (skip : nat) (s : string) : list string :=
  match s with
  | EmptyString => []
  | String c s' =>
      match skip with
      | S k => placeholders_go k s'
      | O =>
          match match_placeholder s with
          | Some key => key :: placeholders_go (String.length key + 3) s'
          | None => placeholders_go 0 s'
          end
      end
  end.

Definition placeholders (s : string) : list string := placeholders_go 0 s.

(** [context[key] || match] (create-source-header-pair.ts, both documents):
    an absent or empty value keeps the placeholder.  The context is a
    [Record<string, string>]: what an object inherits from its prototype is
    no part of it. *)
Definition applyTemplate_or (template : string) (context : gmap string string) : string :=
  replace_placeholders
    (fun m key => match context !! key with
                  | Some v => if truthy v then v else m
                  | None => m
                  end) template.

(** [context[key] ?? ''] (PairCreatorService, both documents): only an
    absent value is replaced by the empty string. *)
Definition applyTemplate_nullish (template : string) (context : gmap string string) : string :=
  replace_placeholders
    (fun _ key => match context !! key with
                  | Some v => v
                  | None => EmptyString
                  end) template.

(** [no_double_lbrace prev s]: no two opening braces are adjacent in [s],
    where [prev] tells whether the character before [s] is one. *)
Fixpoint no_double_lbrace (prev : bool) (s : string) : bool :=
  match s with
  | EmptyString => true
  | String ch s' =>
      negb (prev && Ascii.eqb ch lbrace) && no_double_lbrace (Ascii.eqb ch lbrace) s'
  end.

Fixpoint no_lbrace (s : string) : bool :=
  match s with
  | EmptyString => true
  | String ch s' => negb (Ascii.eqb ch lbrace) && no_lbrace s'
  end.

(** A placeholder name is bound when the context maps it to a non-empty
    string. *)
Definition bound (context : gmap string string) (k : string) : Prop :=
  exists v, context !! k = Some v /\ truthy v = true.

End Template.

(** ** Data model *)

Inductive Language := c | cpp.

Global Instance Language_eq_dec : EqDecision Language.
Proof. solve_decision. Defined.

(** [language.toUpperCase()] and the language as it is written in settings. *)
Definition Language_text (l : Language) : string :=
  match l with c => "c" | cpp => "cpp" end.

(** [interface PairingRule]; [isClass?] and [isStruct?] may be absent. *)
Record PairingRule := mkRule {
  key : string;
  label : string;
  description : string;
  language : Language;
  headerExt : string;
  sourceExt : string;
  isClass : option bool;
  isStruct : option bool
}.

Global Instance PairingRule_eq_dec : EqDecision PairingRule.
Proof. solve_decision. Defined.

(** Truthiness of an optional boolean field. *)
Definition flag (b : option bool) : bool := default false b.

(** [{ language, uncertain }] *)
Record Detection := mkDetection { det_language : Language; uncertain : bool }.

Global Instance Detection_eq_dec : EqDecision Detection.
Proof. solve_decision. Defined.

(** A header/source template pair. *)
Record TemplatePair := mkPair { header : string; source : string }.

Global Instance TemplatePair_eq_dec : EqDecision TemplatePair.
Proof. solve_decision. Defined.

(** The boilerplate texts: the literals of [getTemplatesByRule] in the first
    document and of [FILE_TEMPLATES] in the later ones are the same. *)
Module FILE_TEMPLATES.

Definition CPP_CLASS : TemplatePair := {|
  header := "#ifndef {{headerGuard}}
#define {{headerGuard}}

class {{fileName}} {
public:
  {{fileName}}();
  ~{{fileName}}();

private:
  // Add private members here
};

#endif  // {{headerGuard}}
";
  source := "{{includeLine}}

{{fileName}}::{{fileName}}() {
  // Constructor implementation
}

{{fileName}}::~{{fileName}}() {
  // Destructor implementation
}
" |}.

Definition CPP_STRUCT : TemplatePair := {|
  header := "#ifndef {{headerGuard}}
#define {{headerGuard}}

struct {{fileName}} {
  // Struct members
};

#endif  // {{headerGuard}}
";
  source := "{{includeLine}}" |}.

Definition C_STRUCT : TemplatePair := {|
  header := "#ifndef {{headerGuard}}
#define {{headerGuard}}

typedef struct {
  // Struct members
} {{fileName}};

#endif  // {{headerGuard}}
";
  source := "{{includeLine}}" |}.

Definition C_EMPTY : TemplatePair := {|
  header := "#ifndef {{headerGuard}}
#define {{headerGuard}}

// Declarations for {{fileName}}.c

#endif  // {{headerGuard}}
";
  source := "{{includeLine}}

// Implementations for {{fileName}}.c
" |}.

Definition CPP_EMPTY : TemplatePair := {|
  header := "#ifndef {{headerGuard}}
#define {{headerGuard}}

// Declarations for {{fileName}}.cpp

#endif  // {{headerGuard}}
";
  source := "{{includeLine}}" |}.

Definition all : list TemplatePair :=
  [CPP_CLASS; CPP_STRUCT; C_STRUCT; C_EMPTY; CPP_EMPTY].

End FILE_TEMPLATES.

(** ** The host editor

    What the wizard reads from its environment during one invocation is a
    [Host] (the editor's state and the platform) and a [User] (the answer the
    user gives to each dialog, [None] when the dialog is dismissed).  What it
    can change is a [World]: the files on disk and the two settings scopes.
    Every dialog, message and host call is recorded in the world's [trace]. *)

(** Node's [path] module, which differs between platforms.  A path is the
    [fsPath] of its [Uri]: [Uri.file(p).fsPath] is [p]. *)
Record PathOps := mkPathOps {
  extname : string -> string;
  basename : string -> string -> string;   (* basename(path, suffix) *)
  dirname : string -> string;
  join : string -> string -> string
}.

(** [vscode.TextDocument]: [fsPath] stands for both [uri.fsPath] and
    [fileName], which agree for a document saved on disk. *)
Record Document := mkDocument {
  languageId : string;
  fsPath : string;
  isUntitled : bool
}.

Inductive Scope := workspace | user.

Global Instance Scope_eq_dec : EqDecision Scope.
Proof. solve_decision. Defined.

Record Host := mkHost {
  path : PathOps;
  activeTextEditor : option Document;
  workspaceFolders : option (list string);
  eolSetting : option string;        (* files.eol *)
  osEOL : string;                    (* os.EOL *)
  now : N;                           (* Date.now() *)
  updateError : Scope -> option string;   (* configuration.update rejects *)
  writeError : string -> option string    (* fs.writeFile rejects *)
}.

(** Answers to the dialogs.  A choice is the index of the picked item in the
    list that is shown; a text is what the user would type. *)
Record User := mkUser {
  folderChoice : option nat;
  customRuleChoice : option nat;
  offerAnswer : option nat;
  extensionChoice : option nat;
  headerExtText : option string;
  sourceExtText : option string;
  saveLocationChoice : option nat;
  templateChoice : option nat;
  mismatchAnswer : option nat;
  fileNameText : option string
}.

(** An item of the custom-rules quick pick: a rule, or the special entry
    [{ key: 'use_default', isSpecial: true }]. *)
Inductive Choice :=
| ChoiceRule (r : PairingRule)
| ChoiceUseDefault.

Inductive Event :=
| ErrorMessage (msg : string)
| InformationMessage (msg : string)
| WorkspaceFolderPick
| CustomRulePick (choices : list Choice)
| OfferCustomRules (msg : string) (buttons : list string)
| ExtensionPick
| HeaderExtInput
| SourceExtInput
| SaveLocationPick
| TemplatePick (choices : list PairingRule)
| MismatchWarning (msg : string) (buttons : list string)
| FileNameInput (prompt : string)
| ConfigUpdate (scope : Scope) (rules : option (list PairingRule))
| WriteFile (p : string) (content : string)
| OpenDocument (p : string).

Global Instance Choice_eq_dec : EqDecision Choice.
Proof. solve_decision. Defined.

Global Instance Event_eq_dec : EqDecision Event.
Proof. solve_decision. Defined.

Record Settings := mkSettings {
  workspaceValue : option (list PairingRule);
  globalValue : option (list PairingRule)
}.

(** The world an invocation runs in.  [statCache] is the static [fileStatCache] of [PairCreatorService]: the
    answers that [fileExists] has memoised.  The timer that drops an entry
    after five seconds is not modelled; a world may start with any cache. *)
Record World := mkWorld {
  files : gmap string string;
  settings : Settings;
  statCache : gmap string bool;
  trace : list Event
}.

Definition with_files (f : gmap string string) (w : World) : World :=
  mkWorld f (settings w) (statCache w) (trace w).
Definition with_settings (s : Settings) (w : World) : World :=
  mkWorld (files w) s (statCache w) (trace w).
Definition with_statCache (m : gmap string bool) (w : World) : World :=
  mkWorld (files w) (settings w) m (trace w).
Definition with_trace (t : list Event) (w : World) : World :=
  mkWorld (files w) (settings w) (statCache w) t.

(** A host call: a state transformer that returns a value or throws. *)
Definition M (A : Type) : Type := World -> (string + A) * World.

Global Instance M_ret : MRet M := fun A x w => (inr x, w).
Global Instance M_bind : MBind M := fun A B f m w =>
  match m w with
  | (inr x, w') => f x w'
  | (inl e, w') => (inl e, w')
  end.

Definition throw {A} (e : string) : M A := fun w => (inl e, w).

(** [try { m } catch (error) { handler(error.message) }] *)
Definition try_catch {A} (m : M A) (handler : string -> M A) : M A := fun w =>
  match m w with
  | (inr x, w') => (inr x, w')
  | (inl e, w') => handler e w'
  end.

Definition emit (e : Event) : M unit := fun w =>
  (inr tt, with_trace (trace w ++ [e]) w).

Definition get_world : M World := fun w => (inr w, w).

(** [vscode.workspace.fs.stat] succeeds on the paths that exist. *)
Definition exists_in (w : World) (p : string) : bool := bool_decide (is_Some (files w !! p)).

Definition stat (p : string) : M bool := fun w => (inr (exists_in w p), w).

(** [vscode.workspace.fs.writeFile] *)
Definition writeFile (h : Host) (p content : string) : M unit := fun w =>
  let w1 := with_trace (trace w ++ [WriteFile p content]) w in
  match writeError h p with
  | Some e => (inl e, w1)
  | None => (inr tt, with_files (<[p := content]> (files w1)) w1)
  end.

(** [configuration.inspect(CONFIG_KEY)] at one scope. *)
Definition inspect (s : Settings) (scope : Scope) : option (list PairingRule) :=
  match scope with workspace => workspaceValue s | user => globalValue s end.

Definition set_scope (s : Settings) (scope : Scope) (value : option (list PairingRule))
    : Settings :=
  match scope with
  | workspace => {| workspaceValue := value; globalValue := globalValue s |}
  | user => {| workspaceValue := workspaceValue s; globalValue := value |}
  end.

(** [configuration.update(CONFIG_KEY, value, target)] *)
Definition update (h : Host) (scope : Scope) (value : option (list PairingRule)) : M unit :=
  fun w =>
  let w1 := with_trace (trace w ++ [ConfigUpdate scope value]) w in
  match updateError h scope with
  | Some e => (inl e, w1)
  | None => (inr tt, with_settings (set_scope (settings w1) scope value) w1)
  end.

(** [showQuickPick(items)] and the button dialogs: the picked item. *)
Definition pick {A} (items : list A) (choice : option nat) : option A :=
  i ← choice; items !! i.

(** [showInputBox({ validateInput })]: the box only closes with a text that
    [validateInput] accepts, or by being dismissed. *)
Definition inputBox (valid : string -> bool) (text : option string) : option string :=
  t ← text; if valid t then Some t else None.

(** A POSIX instance of [path], used to run the model on concrete paths
    (absolute paths without [.] or [..] segments and doubled slashes, which
    [join] would normalise). *)
Module Posix.
Definition slash : ascii := ascii_of_nat 47.
Definition dot : ascii := ascii_of_nat 46.

(** The text before the last slash and the text after it. *)
Fixpoint split_last (s : string) : option string * string :=
  match s with
  | EmptyString => (None, EmptyString)
  | String ch s' =>
      match split_last s' with
      | (Some d, b) => (Some (String ch d), b)
      | (None, b) =>
          if Ascii.eqb ch slash then (Some EmptyString, b) else (None, String ch b)
      end
  end.

Fixpoint strip_slashes_end (s : string) : string :=
  match s with
  | EmptyString => EmptyString
  | String ch s' =>
      match strip_slashes_end s' with
      | EmptyString => if Ascii.eqb ch slash then EmptyString else String ch EmptyString
      | t => String ch t
      end
  end.

Definition base (p : string) : string := (split_last (strip_slashes_end p)).2.

(** The suffix of [s] from its last dot on, when there is one. *)
Fixpoint last_dot (s : string) : option string :=
  match s with
  | EmptyString => None
  | String ch s' =>
      match last_dot s' with
      | Some e => Some e
      | None => if Ascii.eqb ch dot then Some s else None
      end
  end.

Definition extname (p : string) : string :=
  match base p with
  | EmptyString => EmptyString
  | String ch rest =>
      if String.eqb (String ch rest) ".." then EmptyString
      else default EmptyString (last_dot rest)
  end.

Fixpoint strip_suffix (s suffix : string) : string :=
  match s with
  | EmptyString => EmptyString
  | String ch s' =>
      if String.eqb s suffix then EmptyString else String ch (strip_suffix s' suffix)
  end.

Definition ends_with (s suffix : string) : bool :=
  negb (String.eqb (strip_suffix s suffix) s).

Definition basename (p suffix : string) : string :=
  let b := base p in
  if String.eqb p suffix then EmptyString
  else if String.eqb b suffix then b else strip_suffix b suffix.

Definition dirname (p : string) : string :=
  match split_last (strip_slashes_end p) with
  | (None, _) => "."
  | (Some d, _) =>
      match strip_slashes_end d with EmptyString => "/" | d' => d' end
  end.

Definition join (a b : string) : string :=
  match a, b with
  | EmptyString, EmptyString => "."
  | EmptyString, _ => b
  | _, _ => strip_slashes_end a ++ "/" ++ b
  end.

Definition ops : PathOps :=
  mkPathOps extname basename dirname join.
End Posix.

(** ** Code shared by the revisions *)

(** [VALIDATION_PATTERNS.IDENTIFIER = /^[a-zA-Z_][a-zA-Z0-9_]*$/] *)
Fixpoint all_word_chars (s : string) : bool :=
  match s with
  | EmptyString => true
  | String ch s' => JS.is_word_char ch && all_word_chars s'
  end.

Definition IDENTIFIER_test (s : string) : bool :=
  match s with
  | EmptyString => false
  | String ch s' =>
      (JS.is_upper ch || JS.is_lower ch || JS.is_underscore ch) && all_word_chars s'
  end.

(** [Array.prototype.indexOf] *)
Fixpoint indexOf (l : list string) (x : string) : Z :=
  match l with
  | [] => (-1)%Z
  | y :: l' =>
      if decide (y = x) then 0%Z
      else let i := indexOf l' x in if decide (i = (-1)%Z) then (-1)%Z else (i + 1)%Z
  end.

(** [Array.prototype.sort(compare)], which is stable. *)
Fixpoint sort_insert {A} (compare : A -> A -> Z) (x : A) (l : list A) : list A :=
  match l with
  | [] => [x]
  | y :: l' =>
      if decide (compare x y <= 0)%Z then x :: y :: l' else y :: sort_insert compare x l'
  end.

Definition sort {A} (compare : A -> A -> Z) (l : list A) : list A :=
  foldr (sort_insert compare) [] l.

(** [Promise.all] of two writes: both run, and the first failure is thrown. *)
Definition all2 (m1 m2 : M unit) : M unit := fun w =>
  match m1 w with
  | (r1, w1) =>
      match m2 w1 with
      | (r2, w2) => (match r1 with inl e => inl e | inr _ => r2 end, w2)
      end
  end.

(** What [checkAndOfferCustomRules] returns:
    [PairingRule | null | undefined | 'use_default']. *)
Inductive CustomRulesResult :=
| Selected (r : PairingRule)
| Cancelled        (* null *)
| NoCustomRules    (* undefined *)
| UseDefault.      (* 'use_default' *)

Record ExtensionOption := mkExtensionOption {
  opt_label : string;
  opt_headerExt : string;
  opt_sourceExt : string
}.

(** The validator of the two extension input boxes. *)
Definition validateExt (text : string) : bool :=
  negb (negb (JS.truthy text) || negb (JS.startsWith text ".") || (String.length text <? 2)%nat).

Definition language_name (l : Language) : string :=
  match l with cpp => "C++" | c => "C" end.

Definition desiredOrder (language : Language) (uncertain : bool) : list string :=
  if uncertain then ["cpp_empty"; "c_empty"; "cpp_class"; "cpp_struct"; "c_struct"]
  else if decide (language = c) then ["c_empty"; "c_struct"; "cpp_empty"; "cpp_class"; "cpp_struct"]
  else ["cpp_empty"; "cpp_class"; "cpp_struct"; "c_empty"; "c_struct"].

(** The three substitution variables of [generateFileContent]. *)
Definition content_context (fileName : string) (rule : PairingRule) : gmap string string :=
  {[ "fileName" := fileName;
     "headerGuard" := JS.toUpperCase fileName ++ "_H_";
     "includeLine" := "#include " ++ JS.dquote ++ fileName ++ headerExt rule ++ JS.dquote ]}.

Definition content_keys : list string := ["fileName"; "headerGuard"; "includeLine"].

(** ** create-source-header-pair.ts, first document *)

Module PairCreatorA.

Definition TEMPLATE_RULES : list PairingRule := [
  {| key := "cpp_empty"; label := "$(new-file) Empty C++ Pair";
     description := "Creates a basic .h/.cpp file pair with header guards.";
     language := cpp; headerExt := ".h"; sourceExt := ".cpp";
     isClass := None; isStruct := None |};
  {| key := "cpp_class"; label := "$(symbol-class) C++ Class";
     description := "Creates a .h/.cpp pair with a boilerplate class definition.";
     language := cpp; headerExt := ".h"; sourceExt := ".cpp";
     isClass := Some true; isStruct := None |};
  {| key := "cpp_struct"; label := "$(symbol-struct) C++ Struct";
     description := "Creates a .h/.cpp pair with a boilerplate struct definition.";
     language := cpp; headerExt := ".h"; sourceExt := ".cpp";
     isClass := None; isStruct := Some true |};
  {| key := "c_empty"; label := "$(file-code) Empty C Pair";
     description := "Creates a basic .h/.c file pair for function declarations.";
     language := c; headerExt := ".h"; sourceExt := ".c";
     isClass := None; isStruct := None |};
  {| key := "c_struct"; label := "$(symbol-struct) C Struct";
     description := "Creates a .h/.c pair with a boilerplate typedef struct.";
     language := c; headerExt := ".h"; sourceExt := ".c";
     isClass := None; isStruct := Some true |}
].

Definition getTemplatesByRule (rule : PairingRule) : TemplatePair :=
  if flag (isClass rule) then FILE_TEMPLATES.CPP_CLASS
  else if flag (isStruct rule) && bool_decide (language rule = cpp) then FILE_TEMPLATES.CPP_STRUCT
  else if flag (isStruct rule) && bool_decide (language rule = c) then FILE_TEMPLATES.C_STRUCT
  else if bool_decide (language rule = c) then FILE_TEMPLATES.C_EMPTY
  else FILE_TEMPLATES.CPP_EMPTY.

Definition applyTemplate := Template.applyTemplate_or.

(** Returns [(headerContent, sourceContent)]. *)
Definition generateFileContent (fileName eol : string) (rule : PairingRule) : string * string :=
  let templates := getTemplatesByRule rule in
  let context := content_context fileName rule in
  let headerContent := applyTemplate (header templates) context in
  let sourceContent := applyTemplate (source templates) context in
  (JS.replace_newlines eol headerContent, JS.replace_newlines eol sourceContent).

Section Flow.
Context (h : Host) (u : User).

Definition getLineEnding : string :=
  match eolSetting h with
  | Some e => if bool_decide (e = JS.nl) || bool_decide (e = JS.cr ++ JS.nl) then e else osEOL h
  | None => osEOL h
  end.

Definition detectLanguage : M Detection :=
  match activeTextEditor h with
  | None => mret (mkDetection cpp true)
  | Some document =>
      if isUntitled document then mret (mkDetection cpp true)
      else
        let langId := languageId document in
        let filePath := fsPath document in
        let ext := extname (path h) filePath in
        if decide (ext = ".c") then mret (mkDetection c false)
        else if bool_decide (ext = ".cpp") || bool_decide (ext = ".cc") || bool_decide (ext = ".cxx")
        then mret (mkDetection cpp false)
        else if bool_decide (ext = ".hh") || bool_decide (ext = ".hpp") || bool_decide (ext = ".hxx")
        then mret (mkDetection cpp false)
        else if decide (ext = ".h") then
          let baseName := basename (path h) filePath ".h" in
          let dirPath := dirname (path h) filePath in
          let companionChecks :=
            [ join (path h) dirPath (baseName ++ ".c");
              join (path h) dirPath (baseName ++ ".cpp");
              join (path h) dirPath (baseName ++ ".cc");
              join (path h) dirPath (baseName ++ ".cxx") ] in
          results ← mapM stat companionChecks;
          if default false (results !! 0%nat) then mret (mkDetection c false)
          else if existsb id (skipn 1 results) then mret (mkDetection cpp false)
          else mret (mkDetection cpp true)
        else mret (mkDetection (if decide (langId = "c") then c else cpp) true)
  end.

Definition getRules (scope : Scope) : M (option (list PairingRule)) :=
  w ← get_world; mret (inspect (settings w) scope).

(** pairing-rule-service.ts: [writeRules] *)
Definition writeRules (rules : list PairingRule) (scope : Scope) : M unit :=
  update h scope (Some rules).

Definition same_kind (customRule template : PairingRule) : bool :=
  bool_decide (isClass customRule = isClass template) &&
  bool_decide (isStruct customRule = isStruct template) &&
  (flag (isClass customRule) || flag (isStruct customRule) ||
   (negb (flag (isClass customRule)) && negb (flag (isStruct customRule)) &&
    negb (flag (isClass template)) && negb (flag (isStruct template)))).

Definition same_rule (customRule template : PairingRule) : bool :=
  bool_decide (headerExt customRule = headerExt template) &&
  bool_decide (sourceExt customRule = sourceExt template) &&
  bool_decide (isClass customRule = isClass template) &&
  bool_decide (isStruct customRule = isStruct template).

Definition cleanRule (rule : PairingRule) : PairingRule :=
  {| key := key rule;
     label := if JS.includes (label rule) "$(" then label rule
              else "$(new-file) " ++ language_name (language rule) ++ " Pair (" ++
                   headerExt rule ++ "/" ++ sourceExt rule ++ ")";
     description := if JS.startsWith (description rule) "Creates a" then description rule
                    else "Creates a " ++ headerExt rule ++ "/" ++ sourceExt rule ++
                         " file pair with header guards.";
     language := language rule; headerExt := headerExt rule; sourceExt := sourceExt rule;
     isClass := isClass rule; isStruct := isStruct rule |}.

Definition adaptTemplate (customHeaderExt customSourceExt : string) (template : PairingRule)
    : PairingRule :=
  let exts := customHeaderExt ++ "/" ++ customSourceExt in
  {| key := key template ++ "_adapted";
     label := label template;
     description :=
       JS.replace_first "Creates a .h/.cpp" ("Creates a " ++ exts)
         (JS.replace_first "basic .h/.cpp" ("basic " ++ exts)
            (JS.replace_first ".h/.cpp" exts (description template)));
     language := language template;
     headerExt := customHeaderExt; sourceExt := customSourceExt;
     isClass := isClass template; isStruct := isStruct template |}.

(** The items of the custom-rules quick pick. *)
Definition customRuleChoices (rules : list PairingRule) (language' : Language) : list Choice :=
  let languageRules := filter (fun rule => language rule = language') rules in
  let custom := head languageRules in
  let adaptedDefaultTemplates :=
    match custom with
    | Some first =>
        if JS.truthy (headerExt first) && JS.truthy (sourceExt first)
           && bool_decide (language' = cpp)
        then
          map (adaptTemplate (headerExt first) (sourceExt first))
            (filter (fun template => negb (existsb (fun customRule => same_kind customRule template) languageRules) = true)
               (filter (fun template => language template = cpp) TEMPLATE_RULES))
        else
          filter (fun template => negb (existsb (fun customRule => same_rule customRule template) languageRules) = true)
            (filter (fun template => language template = language') TEMPLATE_RULES)
    | None =>
        filter (fun template => negb (existsb (fun customRule => same_rule customRule template) languageRules) = true)
          (filter (fun template => language template = language') TEMPLATE_RULES)
    end in
  let otherLanguageTemplates :=
    filter (fun template => language template <> language') TEMPLATE_RULES in
  let cleanedCustomRules := map cleanRule rules in
  (map ChoiceRule cleanedCustomRules ++ map ChoiceRule adaptedDefaultTemplates ++
   map ChoiceRule otherLanguageTemplates ++ [ChoiceUseDefault])%list.

(** Returns [None] when dismissed (undefined). *)
Definition selectFromCustomRules (rules : list PairingRule) (language' : Language)
    : M (option Choice) :=
  let choices := customRuleChoices rules language' in
  _ ← emit (CustomRulePick choices);
  mret (pick choices (customRuleChoice u)).

Definition offer_message (language' : Language) : string :=
  "No custom pairing rules found for " ++ JS.toUpperCase (Language_text language') ++
  ". Would you like to create custom rules to use different file extensions (e.g., .cc/.hh instead of .cpp/.h)?".

(** [Some true]: create rules; [Some false]: use the defaults; [None]:
    the message was dismissed (null). *)
Definition offerToCreateCustomRules (language' : Language) : M (option bool) :=
  let buttons := ["Create Custom Rules"; "Use Defaults"] in
  _ ← emit (OfferCustomRules (offer_message language') buttons);
  let result := pick buttons (offerAnswer u) in
  mret (if decide (result = Some "Create Custom Rules") then Some true
        else if decide (result = Some "Use Defaults") then Some false
        else None).

Definition commonExtensions (language' : Language) : list ExtensionOption :=
  if decide (language' = cpp) then
    [ mkExtensionOption ".h / .cpp (Default)" ".h" ".cpp";
      mkExtensionOption ".hh / .cc (Alternative)" ".hh" ".cc";
      mkExtensionOption ".hpp / .cpp (Header Plus Plus)" ".hpp" ".cpp";
      mkExtensionOption ".hxx / .cxx (Extended)" ".hxx" ".cxx";
      mkExtensionOption "Custom Extensions" "" "" ]
  else
    [ mkExtensionOption ".h / .c (Default)" ".h" ".c";
      mkExtensionOption "Custom Extensions" "" "" ].

Definition customRule (language' : Language) (headerExt' sourceExt' : string) : PairingRule :=
  {| key := "custom_" ++ Language_text language' ++ "_" ++ pretty (now h);
     label := "$(new-file) " ++ language_name language' ++ " Pair (" ++
              headerExt' ++ "/" ++ sourceExt' ++ ")";
     description := "Creates a " ++ headerExt' ++ "/" ++ sourceExt' ++
                    " file pair with header guards.";
     language := language'; headerExt := headerExt'; sourceExt := sourceExt';
     isClass := None; isStruct := None |}.

(** The last step of [createCustomRules]: the save location and the write. *)
Definition saveCustomRule (rule : PairingRule) : M (option PairingRule) :=
  _ ← emit SaveLocationPick;
  match pick [workspace; user] (saveLocationChoice u) with
  | None => mret None
  | Some saveLocation =>
      try_catch
        (existing ← getRules saveLocation;
         let updatedRules := (default [] existing ++ [rule])%list in
         _ ← writeRules updatedRules saveLocation;
         let locationText :=
           if decide (saveLocation = workspace) then "workspace" else "global" in
         _ ← emit (InformationMessage
                     ("Custom pairing rule saved to " ++ locationText ++ " settings."));
         mret (Some rule))
        (fun message =>
           _ ← emit (ErrorMessage ("Failed to save custom rule: " ++ message));
           mret None)
  end.

Definition createCustomRules (language' : Language) : M (option PairingRule) :=
  _ ← emit ExtensionPick;
  match pick (commonExtensions language') (extensionChoice u) with
  | None => mret None
  | Some selectedExtension =>
      if negb (JS.truthy (opt_headerExt selectedExtension))
         || negb (JS.truthy (opt_sourceExt selectedExtension))
      then
        _ ← emit HeaderExtInput;
        match inputBox validateExt (headerExtText u) with
        | None => mret None
        | Some inputHeaderExt =>
            if negb (JS.truthy inputHeaderExt) then mret None
            else
              _ ← emit SourceExtInput;
              match inputBox validateExt (sourceExtText u) with
              | None => mret None
              | Some inputSourceExt =>
                  if negb (JS.truthy inputSourceExt) then mret None
                  else saveCustomRule (customRule language' inputHeaderExt inputSourceExt)
              end
        end
      else saveCustomRule (customRule language' (opt_headerExt selectedExtension)
                             (opt_sourceExt selectedExtension))
  end.

Definition checkAndOfferCustomRules (language' : Language) (uncertain' : bool)
    : M CustomRulesResult :=
  workspaceRules ← getRules workspace;
  globalRules ← getRules user;
  let availableRules := (default [] workspaceRules ++ default [] globalRules)%list in
  let languageRules := filter (fun rule => language rule = language') availableRules in
  if (0 <? length languageRules)%nat then
    result ← selectFromCustomRules languageRules language';
    match result with
    | None => mret Cancelled
    | Some (ChoiceRule r) => mret (Selected r)
    | Some ChoiceUseDefault => mret UseDefault
    end
  else if negb uncertain' then
    shouldCreateRules ← offerToCreateCustomRules language';
    match shouldCreateRules with
    | None => mret Cancelled
    | Some true =>
        result ← createCustomRules language';
        match result with
        | None => mret Cancelled
        | Some r => mret (Selected r)
        end
    | Some false => mret NoCustomRules
    end
  else mret NoCustomRules.

Definition templateChoices (language' : Language) (uncertain' : bool) : list PairingRule :=
  let order := desiredOrder language' uncertain' in
  sort (fun a b => (indexOf order (key a) - indexOf order (key b))%Z) TEMPLATE_RULES.

Definition promptForPairingRule (language' : Language) (uncertain' : bool)
    : M (option PairingRule) :=
  customRulesResult ← checkAndOfferCustomRules language' uncertain';
  match customRulesResult with
  | Cancelled => mret None
  | Selected r => mret (Some r)
  | UseDefault | NoCustomRules =>
      let choices := templateChoices language' uncertain' in
      _ ← emit (TemplatePick choices);
      mret (pick choices (templateChoice u))
  end.

Definition fileNamePrompt (rule : PairingRule) : string :=
  if flag (isClass rule) then "Please enter the name for the new C++ class."
  else if flag (isStruct rule) then
    "Please enter the name for the new " ++ JS.toUpperCase (Language_text (language rule)) ++ " struct."
  else "Please enter the base name for the new " ++
       JS.toUpperCase (Language_text (language rule)) ++ " file pair.".

(** The placeholder and the title of the box only decorate it. *)
Definition promptForFileName (rule : PairingRule) : M (option string) :=
  _ ← emit (FileNameInput (fileNamePrompt rule));
  mret (inputBox (fun text => IDENTIFIER_test (JS.trim text)) (fileNameText u)).

(** Returns the path of the first target that exists, [None] for null. *)
Definition checkFileExistence (headerPath sourcePath : string) : M (option string) :=
  headerExists ← stat headerPath;
  if (headerExists : bool) then mret (Some headerPath)
  else
    sourceExists ← stat sourcePath;
    if (sourceExists : bool) then mret (Some sourcePath) else mret None.

Definition writeFiles (headerPath sourcePath headerContent sourceContent : string) : M unit :=
  try_catch
    (all2 (writeFile h headerPath headerContent) (writeFile h sourcePath sourceContent))
    (fun message => throw ("Failed to create files: " ++ message ++ ".")).

Definition finalizeCreation (headerPath sourcePath : string) : M unit :=
  _ ← emit (OpenDocument headerPath);
  emit (InformationMessage
          ("Successfully created " ++ basename (path h) headerPath "" ++ " and " ++
           basename (path h) sourcePath "" ++ ".")).

(** Returns [None] for undefined. *)
Definition getTargetDirectory : M (option string) :=
  let fromWorkspace : M (option string) :=
    match workspaceFolders h with
    | Some [folder] => mret (Some folder)
    | Some (f1 :: f2 :: fs) =>
        _ ← emit WorkspaceFolderPick;
        mret (pick (f1 :: f2 :: fs) (folderChoice u))
    | _ => mret None
    end in
  match activeTextEditor h with
  | Some document =>
      if negb (isUntitled document) then mret (Some (dirname (path h) (fsPath document)))
      else fromWorkspace
  | None => fromWorkspace
  end.

Definition headerPathOf (targetDirectory fileName : string) (rule : PairingRule) : string :=
  join (path h) targetDirectory (fileName ++ headerExt rule).

Definition sourcePathOf (targetDirectory fileName : string) (rule : PairingRule) : string :=
  join (path h) targetDirectory (fileName ++ sourceExt rule).

(** The part of [create] before the target paths are computed: the
    directory, the rule and the name, or [None] where [create] returns
    early. *)
Definition gatherInputs : M (option (string * PairingRule * string)) :=
  targetDirectory ← getTargetDirectory;
  match targetDirectory with
  | None =>
      _ ← emit (ErrorMessage
                  "Cannot determine target directory. Please open a folder or a file first.");
      mret None
  | Some targetDirectory =>
      detection ← detectLanguage;
      rule ← promptForPairingRule (det_language detection) (uncertain detection);
      match rule with
      | None => mret None
      | Some rule =>
          fileName ← promptForFileName rule;
          match fileName with
          | None => mret None
          | Some fileName =>
              if negb (JS.truthy fileName) then mret None
              else mret (Some (targetDirectory, rule, fileName))
          end
      end
  end.

(** The part of [create] from the computation of the target paths on. *)
Definition createFiles (targetDirectory : string) (rule : PairingRule) (fileName : string)
    : M unit :=
  let headerPath := headerPathOf targetDirectory fileName rule in
  let sourcePath := sourcePathOf targetDirectory fileName rule in
  existingFilePath ← checkFileExistence headerPath sourcePath;
  match existingFilePath with
  | Some existing =>
      if JS.truthy existing then emit (ErrorMessage ("File already exists: " ++ existing))
      else
        let eol := getLineEnding in
        let '(headerContent, sourceContent) := generateFileContent fileName eol rule in
        _ ← writeFiles headerPath sourcePath headerContent sourceContent;
        finalizeCreation headerPath sourcePath
  | None =>
      let eol := getLineEnding in
      let '(headerContent, sourceContent) := generateFileContent fileName eol rule in
      _ ← writeFiles headerPath sourcePath headerContent sourceContent;
      finalizeCreation headerPath sourcePath
  end.

Definition error_text (message : string) : string :=
  if JS.truthy message then message else "An unexpected error occurred.".

Definition create : M unit :=
  try_catch
    (inputs ← gatherInputs;
     match inputs with
     | None => mret tt
     | Some (targetDirectory, rule, fileName) => createFiles targetDirectory rule fileName
     end)
    (fun message => emit (ErrorMessage (error_text message))).

End Flow.

End PairCreatorA.

(** ** create-source-header-pair.ts, second document *)

Module PairCreatorB.

Definition TEMPLATE_RULES : list PairingRule := [
  {| key := "cpp_empty"; label := "$(new-file) C++ Pair";
     description := "Creates a basic Header/Source file pair with header guards.";
     language := cpp; headerExt := ".h"; sourceExt := ".cpp";
     isClass := None; isStruct := None |};
  {| key := "cpp_class"; label := "$(symbol-class) C++ Class";
     description := "Creates a Header/Source file pair with a boilerplate class definition.";
     language := cpp; headerExt := ".h"; sourceExt := ".cpp";
     isClass := Some true; isStruct := None |};
  {| key := "cpp_struct"; label := "$(symbol-struct) C++ Struct";
     description := "Creates a Header/Source file pair with a boilerplate struct definition.";
     language := cpp; headerExt := ".h"; sourceExt := ".cpp";
     isClass := None; isStruct := Some true |};
  {| key := "c_empty"; label := "$(file-code) C Pair";
     description := "Creates a basic .h/.c file pair for function declarations.";
     language := c; headerExt := ".h"; sourceExt := ".c";
     isClass := None; isStruct := None |};
  {| key := "c_struct"; label := "$(symbol-struct) C Struct";
     description := "Creates a .h/.c file pair with a boilerplate typedef struct.";
     language := c; headerExt := ".h"; sourceExt := ".c";
     isClass := None; isStruct := Some true |}
].

Definition applyTemplate := Template.applyTemplate_or.

Section Flow.
Context (h : Host) (u : User).

Definition getRules (scope : Scope) : M (option (list PairingRule)) :=
  w ← get_world; mret (inspect (settings w) scope).

(** pairing-rule-manager.ts: [PairingRuleService.writeRules] *)
Definition writeRules (rules : list PairingRule) (scope : Scope) : M unit :=
  update h scope (Some rules).

Definition allRules : M (list PairingRule) :=
  workspaceRules ← getRules workspace;
  globalRules ← getRules user;
  mret (default [] workspaceRules ++ default [] globalRules)%list.

Definition adaptRuleForCurrentExtensions (rule : PairingRule) (detectedLanguage : Language)
    : M PairingRule :=
  if decide (language rule <> cpp) then mret rule
  else
    rules ← allRules;
    let cppCustomRules := filter (fun r => language r = cpp) rules in
    match cppCustomRules with
    | first :: _ =>
        let exts := headerExt first ++ "/" ++ sourceExt first in
        let newDescription :=
          JS.replace_all ".hxx/.cxx" exts
            (JS.replace_all ".hpp/.cpp" exts
               (JS.replace_all ".hh/.cc" exts
                  (JS.replace_all ".h/.cpp" exts
                     (JS.replace_all "Header/Source" exts (description rule))))) in
        mret {| key := key rule; label := label rule; description := newDescription;
                language := language rule;
                headerExt := headerExt first; sourceExt := sourceExt first;
                isClass := isClass rule; isStruct := isStruct rule |}
    | [] => mret rule
    end.

Definition adaptTemplate (customExt template : PairingRule) : PairingRule :=
  let exts := headerExt customExt ++ "/" ++ sourceExt customExt in
  {| key := key template ++ "_adapted";
     label := label template;
     description :=
       JS.replace_all "Creates a .h/.cpp" ("Creates a " ++ exts)
         (JS.replace_all "basic .h/.cpp" ("basic " ++ exts)
            (JS.replace_all ".h/.cpp" exts
               (JS.replace_all "Header/Source" exts (description template))));
     language := language template;
     headerExt := headerExt customExt; sourceExt := sourceExt customExt;
     isClass := isClass template; isStruct := isStruct template |}.

Definition customRuleChoices (rules : list PairingRule) (language' : Language)
    : M (list Choice) :=
  let languageRules := filter (fun rule => language rule = language') rules in
  let customExt := head languageRules in
  adaptedDefaultTemplates ←
    match customExt with
    | Some customExt =>
        if decide (language' = cpp) then
          mret (map (adaptTemplate customExt)
                  (filter (fun template =>
                             language template = cpp
                             /\ negb (existsb (fun customRule =>
                                                 PairCreatorA.same_kind customRule template)
                                        languageRules) = true)
                     TEMPLATE_RULES))
        else
          mapM (fun template => adaptRuleForCurrentExtensions template language')
            (filter (fun template =>
                       language template = language'
                       /\ negb (existsb (fun customRule =>
                                           PairCreatorA.same_rule customRule template)
                                  languageRules) = true)
               TEMPLATE_RULES)
    | None =>
        mapM (fun template => adaptRuleForCurrentExtensions template language')
          (filter (fun template =>
                     language template = language'
                     /\ negb (existsb (fun customRule =>
                                         PairCreatorA.same_rule customRule template)
                                languageRules) = true)
             TEMPLATE_RULES)
    end;
  otherLanguageTemplates ←
    mapM (fun template => adaptRuleForCurrentExtensions template language')
      (filter (fun template => language template <> language') TEMPLATE_RULES);
  let cleanedCustomRules := map PairCreatorA.cleanRule rules in
  mret (map ChoiceRule cleanedCustomRules ++ map ChoiceRule adaptedDefaultTemplates ++
        map ChoiceRule otherLanguageTemplates ++ [ChoiceUseDefault])%list.

Definition selectFromCustomRules (rules : list PairingRule) (language' : Language)
    : M (option Choice) :=
  choices ← customRuleChoices rules language';
  _ ← emit (CustomRulePick choices);
  mret (pick choices (customRuleChoice u)).

Definition offer_message : string :=
  "No custom pairing rules found for C++. Would you like to create custom rules to use different file extensions (e.g., .cc/.hh instead of .cpp/.h)?".

Definition offerToCreateCustomRules (language' : Language) : M (option bool) :=
  if decide (language' = c) then mret (Some false)
  else
    let buttons := ["Create Custom Rules"; "Dismiss"] in
    _ ← emit (OfferCustomRules offer_message buttons);
    let result := pick buttons (offerAnswer u) in
    mret (if decide (result = Some "Create Custom Rules") then Some true
          else if decide (result = Some "Dismiss") then Some false
          else None).

Definition commonExtensions : list ExtensionOption :=
  [ mkExtensionOption ".h / .cpp (Default)" ".h" ".cpp";
    mkExtensionOption ".hh / .cc (Alternative)" ".hh" ".cc";
    mkExtensionOption ".hpp / .cpp (Header Plus Plus)" ".hpp" ".cpp";
    mkExtensionOption ".hxx / .cxx (Extended)" ".hxx" ".cxx";
    mkExtensionOption "Custom Extensions" "" "" ].

Definition customRule (headerExt' sourceExt' : string) : PairingRule :=
  {| key := "custom_cpp_" ++ pretty (now h);
     label := "$(new-file) C++ Pair (" ++ headerExt' ++ "/" ++ sourceExt' ++ ")";
     description := "Creates a " ++ headerExt' ++ "/" ++ sourceExt' ++
                    " file pair with header guards.";
     language := cpp; headerExt := headerExt'; sourceExt := sourceExt';
     isClass := None; isStruct := None |}.

Definition saveCustomRule (rule : PairingRule) : M (option PairingRule) :=
  _ ← emit SaveLocationPick;
  match pick [workspace; user] (saveLocationChoice u) with
  | None => mret None
  | Some saveLocation =>
      try_catch
        (existing ← getRules saveLocation;
         _ ← writeRules (default [] existing ++ [rule])%list saveLocation;
         let locationText :=
           if decide (saveLocation = workspace) then "workspace" else "global" in
         _ ← emit (InformationMessage
                     ("Custom pairing rule saved to " ++ locationText ++ " settings."));
         mret (Some rule))
        (fun message =>
           _ ← emit (ErrorMessage ("Failed to save custom rule: " ++ message));
           mret None)
  end.

Definition createCustomRules (language' : Language) : M (option PairingRule) :=
  if decide (language' = c) then mret None
  else
    _ ← emit ExtensionPick;
    match pick commonExtensions (extensionChoice u) with
    | None => mret None
    | Some selectedExtension =>
        if negb (JS.truthy (opt_headerExt selectedExtension))
           || negb (JS.truthy (opt_sourceExt selectedExtension))
        then
          _ ← emit HeaderExtInput;
          let headerExt' := default EmptyString (inputBox validateExt (headerExtText u)) in
          if negb (JS.truthy headerExt') then mret None
          else
            _ ← emit SourceExtInput;
            let sourceExt' := default EmptyString (inputBox validateExt (sourceExtText u)) in
            if negb (JS.truthy sourceExt') then mret None
            else saveCustomRule (customRule headerExt' sourceExt')
        else saveCustomRule (customRule (opt_headerExt selectedExtension)
                               (opt_sourceExt selectedExtension))
    end.

Definition checkAndOfferCustomRules (language' : Language) (uncertain' : bool)
    : M CustomRulesResult :=
  if decide (language' = c) then mret NoCustomRules
  else
    rules ← allRules;
    let languageRules := filter (fun rule => language rule = language') rules in
    if (0 <? length languageRules)%nat then
      result ← selectFromCustomRules languageRules language';
      match result with
      | None => mret Cancelled
      | Some (ChoiceRule r) => mret (Selected r)
      | Some ChoiceUseDefault => mret UseDefault
      end
    else if negb uncertain' then
      shouldCreateRules ← offerToCreateCustomRules language';
      match shouldCreateRules with
      | None => mret Cancelled
      | Some true =>
          result ← createCustomRules language';
          match result with
          | None => mret Cancelled
          | Some r => mret (Selected r)
          end
      | Some false => mret NoCustomRules
      end
    else mret NoCustomRules.

Definition templateChoices (language' : Language) (uncertain' : bool)
    : M (list PairingRule) :=
  let order := desiredOrder language' uncertain' in
  mapM (fun rule => adaptRuleForCurrentExtensions rule language')
    (sort (fun a b => (indexOf order (key a) - indexOf order (key b))%Z) TEMPLATE_RULES).

Definition mismatch_message (language' selected : Language) : string :=
  "You're working in a " ++ language_name language' ++ " file but selected a " ++
  language_name selected ++
  " template. This may create files with incompatible extensions or content.".

Definition promptForPairingRule (language' : Language) (uncertain' : bool)
    : M (option PairingRule) :=
  customRulesResult ← checkAndOfferCustomRules language' uncertain';
  match customRulesResult with
  | Cancelled => mret None
  | Selected r => mret (Some r)
  | UseDefault | NoCustomRules =>
      choices ← templateChoices language' uncertain';
      _ ← emit (TemplatePick choices);
      match pick choices (templateChoice u) with
      | Some result =>
          if negb uncertain' && bool_decide (language' <> language result) then
            let buttons := ["Continue Anyway"; "Cancel"] in
            _ ← emit (MismatchWarning (mismatch_message language' (language result)) buttons);
            let shouldContinue := pick buttons (mismatchAnswer u) in
            if decide (shouldContinue <> Some "Continue Anyway") then mret None
            else mret (Some result)
          else mret (Some result)
      | None => mret None
      end
  end.

End Flow.

End PairCreatorB.

(** What the specification says of the companion-file probe of a [.h] file:
    a [.c] companion decides for C, else any C++ companion decides for C++,
    else the answer is an uncertain C++.  [present] tells whether a path
    exists and [companion] maps an extension to the sibling with it. *)
Definition companion_probe (present : string -> bool) (companion : string -> string)
    : Detection :=
  if present (companion ".c") then mkDetection c false
  else if present (companion ".cpp") || present (companion ".cc") || present (companion ".cxx")
  then mkDetection cpp false
  else mkDetection cpp true.

(** The sibling of [filePath] with the extension [ext]:
    [path.join(dirname(filePath), basename(filePath, '.h') + ext)]. *)
Definition companion_of (ops : PathOps) (filePath ext : string) : string :=
  join ops (dirname ops filePath) (basename ops filePath ".h" ++ ext).

(** ** PairCreatorService with the memoised existence check *)

Module ServiceA.

Definition DEFINITIVE_EXTENSIONS_c : list string := [".c"].
Definition DEFINITIVE_EXTENSIONS_cpp : list string :=
  [".cpp"; ".cc"; ".cxx"; ".hh"; ".hpp"; ".hxx"].

Definition has (set : list string) (x : string) : bool := bool_decide (x ∈ set).

(** [PairCreatorService.fileExists]: the cached answer if there is one,
    else the answer of [fs.stat], which is then cached. *)
Definition fileExists (filePath : string) : M bool := fun w =>
  match statCache w !! filePath with
  | Some answer => (inr answer, w)
  | None =>
      let answer := exists_in w filePath in
      (inr answer, with_statCache (<[filePath := answer]> (statCache w)) w)
  end.

Definition applyTemplate := Template.applyTemplate_nullish.

Section Flow.
Context (h : Host).

(** Declared to return [{...} | null]; every path returns a result. *)
Definition detectLanguageForHeaderFile (filePath : string) : M (option Detection) :=
  let baseName := basename (path h) filePath ".h" in
  let dirPath := dirname (path h) filePath in
  let cFile := join (path h) dirPath (baseName ++ ".c") in
  cExists ← fileExists cFile;
  if (cExists : bool) then mret (Some (mkDetection c false))
  else
    let cppExtensions := [".cpp"; ".cc"; ".cxx"] in
    results ← mapM (fun ext => fileExists (join (path h) dirPath (baseName ++ ext)))
                cppExtensions;
    if existsb id results then mret (Some (mkDetection cpp false))
    else mret (Some (mkDetection cpp true)).

Definition fallback (languageId' : string) : Detection :=
  mkDetection (if decide (languageId' = "c") then c else cpp) true.

Definition detectLanguage : M Detection :=
  match activeTextEditor h with
  | None => mret (mkDetection cpp true)
  | Some document =>
      if isUntitled document then mret (mkDetection cpp true)
      else
        let ext := extname (path h) (fsPath document) in
        if has DEFINITIVE_EXTENSIONS_c ext then mret (mkDetection c false)
        else if has DEFINITIVE_EXTENSIONS_cpp ext then mret (mkDetection cpp false)
        else if decide (ext = ".h") then
          result ← detectLanguageForHeaderFile (fsPath document);
          match result with
          | Some r => mret r
          | None => mret (fallback (languageId document))
          end
        else mret (fallback (languageId document))
  end.

End Flow.

(** What [fileExists] answers for a path in a world. *)
Definition observed (w : World) (p : string) : bool :=
  match statCache w !! p with
  | Some answer => answer
  | None => exists_in w p
  end.

End ServiceA.

(** ** PairCreatorService with injected collaborators *)

Module ServiceB.

Definition DEFINITIVE_EXTENSIONS_c : list string := [".c"].
Definition DEFINITIVE_EXTENSIONS_cpp : list string :=
  [".cpp"; ".cc"; ".cxx"; ".hh"; ".hpp"; ".hxx"].

Definition has (set : list string) (x : string) : bool := bool_decide (x ∈ set).

Definition fileExists := ServiceA.fileExists.

Definition applyTemplate := Template.applyTemplate_nullish.

Section Flow.
Context (ops : PathOps).

Definition detectLanguageForHeaderFile (filePath : string)
    (fileExistsCheck : option (string -> M bool)) : M (option Detection) :=
  match fileExistsCheck with
  | None => mret (Some (mkDetection cpp true))
  | Some fileExistsCheck =>
      let baseName := basename ops filePath ".h" in
      let dirPath := dirname ops filePath in
      let cFile := join ops dirPath (baseName ++ ".c") in
      cExists ← fileExistsCheck cFile;
      if (cExists : bool) then mret (Some (mkDetection c false))
      else
        let cppExtensions := [".cpp"; ".cc"; ".cxx"] in
        results ← mapM (fun ext => fileExistsCheck (join ops dirPath (baseName ++ ext)))
                    cppExtensions;
        if existsb id results then mret (Some (mkDetection cpp false))
        else mret (Some (mkDetection cpp true))
  end.

Definition fallback (languageId' : string) : Detection :=
  mkDetection (if decide (languageId' = "c") then c else cpp) true.

(** [languageId?] and [filePath?] are optional arguments. *)
Definition detectLanguage (languageId' filePath : option string)
    (fileExistsCheck : option (string -> M bool)) : M Detection :=
  match languageId', filePath with
  | Some languageId', Some filePath =>
      if negb (JS.truthy languageId') || negb (JS.truthy filePath)
      then mret (mkDetection cpp true)
      else
        let ext := extname ops filePath in
        if has DEFINITIVE_EXTENSIONS_c ext then mret (mkDetection c false)
        else if has DEFINITIVE_EXTENSIONS_cpp ext then mret (mkDetection cpp false)
        else if decide (languageId' = "c") then mret (mkDetection c false)
        else if bool_decide (languageId' = "cpp") || bool_decide (languageId' = "cxx")
        then mret (mkDetection cpp false)
        else if decide (ext = ".h") then
          result ← detectLanguageForHeaderFile filePath fileExistsCheck;
          match result with
          | Some r => mret r
          | None => mret (fallback languageId')
          end
        else mret (fallback languageId')
  | _, _ => mret (mkDetection cpp true)
  end.

End Flow.

(** [PairCreatorUI.detectLanguage]: the arguments it passes to the service. *)
Definition ui_detectLanguage (h : Host) : M Detection :=
  let languageId' := languageId <$> activeTextEditor h in
  let filePath :=
    match activeTextEditor h with
    | Some document => if negb (isUntitled document) then Some (fsPath document) else None
    | None => None
    end in
  detectLanguage (path h) languageId' filePath (Some fileExists).

End ServiceB.

(** ** Concrete hosts and worlds, to run the model *)

Definition demo_host (editor : option Document) : Host :=
  {| path := Posix.ops; activeTextEditor := editor; workspaceFolders := None;
     eolSetting := None; osEOL := JS.nl; now := 0%N;
     updateError := fun _ => None; writeError := fun _ => None |}.

Definition demo_world (fs : gmap string string) : World :=
  mkWorld fs (mkSettings None None) ∅ [].

Definition definitive_cpp : list string := [".cpp"; ".cc"; ".cxx"; ".hh"; ".hpp"; ".hxx"].

(** A user who declines the offer, picks the second template and names the
    pair [Foo]. *)
Definition demo_user : User :=
  {| folderChoice := None; customRuleChoice := None; offerAnswer := Some 1%nat;
     extensionChoice := None; headerExtText := None; sourceExtText := None;
     saveLocationChoice := None; templateChoice := Some 1%nat;
     mismatchAnswer := None; fileNameText := Some "Foo" |}.

(** A user who creates a [.hh]/[.cc] rule, saves it to the global settings,
    and then dismisses the name prompt. *)
Definition saving_user : User :=
  {| folderChoice := None; customRuleChoice := None; offerAnswer := Some 0%nat;
     extensionChoice := Some 1%nat; headerExtText := None; sourceExtText := None;
     saveLocationChoice := Some 1%nat; templateChoice := None;
     mismatchAnswer := None; fileNameText := None |}.

Definition cpp_class_rule : PairingRule :=
  mkRule "cpp_class" "$(symbol-class) C++ Class"
    "Creates a .h/.cpp pair with a boilerplate class definition."
    cpp ".h" ".cpp" (Some true) None.

(** A user who dismisses every dialog. *)
Definition dismissing_user : User :=
  {| folderChoice := None; customRuleChoice := None; offerAnswer := None;
     extensionChoice := None; headerExtText := None; sourceExtText := None;
     saveLocationChoice := None; templateChoice := None;
     mismatchAnswer := None; fileNameText := None |}.

(** A user in a C file who declines the offer, picks the third template of
    the list (the empty C++ pair) and names it [Foo]. *)
Definition crossing_user : User :=
  {| folderChoice := None; customRuleChoice := None; offerAnswer := Some 1%nat;
     extensionChoice := None; headerExtText := None; sourceExtText := None;
     saveLocationChoice := None; templateChoice := Some 2%nat;
     mismatchAnswer := None; fileNameText := Some "Foo" |}.

(** ** The [PairingRuleService] namespace that validates before it saves

    [validateRule] exists because a rule read back from [settings.json] need
    not have the shape of the interface: the four fields it tests are
    optional here, and a field is missing when it is absent or empty. *)

Module PairingRuleServiceNs.

Record StoredRule := mkStoredRule {
  key : option string;
  label : string;
  description : string;
  language : option string;
  headerExt : option string;
  sourceExt : option string;
  isClass : option bool;
  isStruct : option bool
}.

(** The configuration and what the user has been told. *)
Record Config := mkConfig {
  workspaceValue : option (list StoredRule);
  globalValue : option (list StoredRule);
  updates : list (Scope * option (list StoredRule));   (* calls of [update] *)
  errorMessages : list string                           (* showErrorMessage *)
}.

Definition Op (A : Type) : Type := Config -> (string + A) * Config.

(** [!x] for an optional string. *)
Definition missing (x : option string) : bool :=
  match x with
  | Some s => negb (JS.truthy s)
  | None => true
  end.

Definition scope_text (scope : Scope) : string :=
  match scope with workspace => "workspace" | user => "user" end.

Section Service.
(** [JSON.stringify] and the host's verdict on an update of a scope. *)
Context (stringify : StoredRule -> string) (updateError : Scope -> option string).

Definition validateRule (rule : StoredRule) : string + unit :=
  if missing (key rule) || missing (language rule) || missing (headerExt rule)
     || missing (sourceExt rule)
  then inl ("Invalid rule: " ++ stringify rule)
  else inr tt.

(** [rules.forEach(validateRule)]: stops at the first throw. *)
Fixpoint forEach_validateRule (rules : list StoredRule) : string + unit :=
  match rules with
  | [] => inr tt
  | rule :: rest =>
      match validateRule rule with
      | inl e => inl e
      | inr _ => forEach_validateRule rest
      end
  end.

Definition update (scope : Scope) (value : option (list StoredRule)) : Op unit := fun cfg =>
  let cfg1 := mkConfig (workspaceValue cfg) (globalValue cfg)
                (updates cfg ++ [(scope, value)]) (errorMessages cfg) in
  match updateError scope with
  | Some e => (inl e, cfg1)
  | None =>
      (inr tt,
       match scope with
       | workspace => mkConfig value (globalValue cfg1) (updates cfg1) (errorMessages cfg1)
       | user => mkConfig (workspaceValue cfg1) value (updates cfg1) (errorMessages cfg1)
       end)
  end.

(** Shows the message and throws the error again. *)
Definition handleError (message operation : string) (scope : Scope) : Op unit := fun cfg =>
  let text := "Failed to " ++ operation ++ " pairing rules for " ++ scope_text scope
              ++ ": " ++ message in
  (inl message,
   mkConfig (workspaceValue cfg) (globalValue cfg) (updates cfg)
     (errorMessages cfg ++ [text])).

(** [rules] is an array by its type, so the [Array.isArray] guard passes. *)
Definition writeRules (rules : list StoredRule) (scope : Scope) : Op unit := fun cfg =>
  match forEach_validateRule rules with
  | inl e => handleError e "save" scope cfg
  | inr _ =>
      match update scope (Some rules) cfg with
      | (inl e, cfg') => handleError e "save" scope cfg'
      | (inr _, cfg') => (inr tt, cfg')
      end
  end.

Definition resetRules (scope : Scope) : Op unit := fun cfg =>
  match update scope None cfg with
  | (inl e, cfg') => handleError e "reset" scope cfg'
  | (inr _, cfg') => (inr tt, cfg')
  end.

End Service.

(** A rule passes when none of the four fields is missing. *)
Definition valid (rule : StoredRule) : Prop :=
  missing (key rule) = false /\ missing (language rule) = false
  /\ missing (headerExt rule) = false /\ missing (sourceExt rule) = false.

End PairingRuleServiceNs.

(** ** Properties of host calls *)

(** A dialog event is dismissed when the user has no answer for it. *)
Definition dismissed (u : User) (e : Event) : Prop :=
  match e with
  | WorkspaceFolderPick => folderChoice u = None
  | CustomRulePick _ => customRuleChoice u = None
  | OfferCustomRules _ _ => offerAnswer u = None
  | ExtensionPick => extensionChoice u = None
  | HeaderExtInput => headerExtText u = None
  | SourceExtInput => sourceExtText u = None
  | SaveLocationPick => saveLocationChoice u = None
  | TemplatePick _ => templateChoice u = None
  | MismatchWarning _ _ => mismatchAnswer u = None
  | FileNameInput _ => fileNameText u = None
  | _ => False
  end.

(** [calm u C m]: the call [m] does not throw, leaves the files and the
    existence cache alone, only appends to the trace, and returns a result
    that satisfies [C] whenever one of the dialogs it showed was dismissed. *)
Definition calm {A} (u : User) (C : A -> Prop) (m : M A) : Prop :=
  forall w, exists x w' evs,
    m w = (inr x, w') /\ files w' = files w /\ statCache w' = statCache w
    /\ trace w' = (trace w ++ evs)%list
    /\ ((exists e, e ∈ evs /\ dismissed u e) -> C x).

(** [always C m]: whatever [m] returns satisfies [C]. *)
Definition always {A} (C : A -> Prop) (m : M A) : Prop :=
  forall w x w', m w = (inr x, w') -> C x.

(** No custom rule of either scope is for [language']. *)
Definition no_custom_rules (w : World) (language' : Language) : Prop :=
  filter (fun rule => language rule = language')
    (default [] (workspaceValue (settings w)) ++ default [] (globalValue (settings w)))%list
  = [].

Definition offer_buttons_A : list string := ["Create Custom Rules"; "Use Defaults"].
Definition offer_buttons_B : list string := ["Create Custom Rules"; "Dismiss"].
Definition mismatch_buttons : list string := ["Continue Anyway"; "Cancel"].

(** * The rest of the wizard

    The members of the four revisions that the sections above leave out, and
    the settings user interface. *)

(** ** Further JavaScript primitives *)

Module JSLib.

(** The class [[-_]] of the two [split] patterns. *)
Definition is_separator (ch : ascii) : bool :=
  (nat_of_ascii ch =? 45)%nat || (nat_of_ascii ch =? 95)%nat.

(** [s.split(/[-_]/)]: the pieces between the separators; [n] separators
    give [n + 1] pieces, empty ones included. *)
Fixpoint split_separators (s : string) : list string :=
  match s with
  | EmptyString => [EmptyString]
  | String ch s' =>
      if is_separator ch then EmptyString :: split_separators s'
      else
        match split_separators s' with
        | word :: words => String ch word :: words
        | [] => [String ch EmptyString]
        end
  end.

(** [s.split(/[-_]+/)]: a run of separators splits once.  [in_run] tells
    that the character before [s] is a separator, whose run has already
    split. *)
Fixpoint split_runs_go (in_run : bool) (s : string) : list string :=
  match s with
  | EmptyString => [EmptyString]
  | String ch s' =>
      if is_separator ch then
        if in_run then split_runs_go true s' else EmptyString :: split_runs_go true s'
      else
        match split_runs_go false s' with
        | word :: words => String ch word :: words
        | [] => [String ch EmptyString]
        end
  end.

Definition split_separator_runs (s : string) : list string := split_runs_go false s.

(** [s.charAt(0)] and [s.slice(1)] *)
Definition charAt0 (s : string) : string :=
  match s with
  | String ch _ => String ch EmptyString
  | EmptyString => EmptyString
  end.

Definition slice1 (s : string) : string :=
  match s with
  | String _ s' => s'
  | EmptyString => EmptyString
  end.

(** [words.join('')] *)
Definition join_empty (words : list string) : string := foldr String.append EmptyString words.

(** [Promise.all(promises)] for promises that were all created before the
    first is awaited: every one runs, and the first failure is thrown. *)
Fixpoint Promise_all {A} (promises : list (M A)) : M (list A) := fun w =>
  match promises with
  | [] => (inr [], w)
  | promise :: rest =>
      match promise w with
      | (r, w1) =>
          match Promise_all rest w1 with
          | (rs, w2) =>
              (match r, rs with
               | inl e, _ => inl e
               | inr _, inl e => inl e
               | inr x, inr xs => inr (x :: xs)
               end, w2)
          end
      end
  end.

(** The pattern [/Header\/Source|\.h(?:h|pp|xx)?\/\.c(?:pp|c|xx)?/]: the
    length of its match at the head of [s].  The first alternative is tried
    first.  In the second, the optional group after [.h] takes the first of
    [h], [pp], [xx] after which [/.c] follows, else nothing; the optional
    group at the end takes the first of [pp], [c], [xx] that is there. *)
Definition match_extension_pair (s : string) : option nat :=
  if String.prefix "Header/Source" s then Some 13%nat
  else if String.prefix ".h" s then
    let s1 := Template.drop 2 s in
    let group :=
      if String.prefix "h" s1 && String.prefix "/.c" (Template.drop 1 s1) then Some 1%nat
      else if String.prefix "pp" s1 && String.prefix "/.c" (Template.drop 2 s1) then Some 2%nat
      else if String.prefix "xx" s1 && String.prefix "/.c" (Template.drop 2 s1) then Some 2%nat
      else if String.prefix "/.c" s1 then Some 0%nat
      else None in
    match group with
    | Some g =>
        let s2 := Template.drop (g + 3) s1 in
        let tail :=
          if String.prefix "pp" s2 then 2%nat
          else if String.prefix "c" s2 then 1%nat
          else if String.prefix "xx" s2 then 2%nat
          else 0%nat in
        Some (2 + g + 3 + tail)%nat
    | None => None
    end
  else None.

(** [s.replace(pattern, r)] for a global pattern given by its matcher, which
    never matches the empty text; [skip] counts the characters of the current
    match that are still to pass.  The replacement is inserted as it is. *)
Fixpoint replace_matches (matcher : string -> option nat) (r : string) (skip : nat)
    (s : string) : string :=
  match s with
  | EmptyString => EmptyString
  | String ch s' =>
      match skip with
      | S k => replace_matches matcher r k s'
      | O =>
          match matcher s with
          | Some (S n) => r ++ replace_matches matcher r n s'
          | _ => String ch (replace_matches matcher r 0 s')
          end
      end
  end.

End JSLib.

(** [DEFAULT_PLACEHOLDERS], the same in the four revisions. *)
Module DEFAULT_PLACEHOLDERS.
Definition C_EMPTY : string := "my_c_functions".
Definition C_STRUCT : string := "MyStruct".
Definition CPP_EMPTY : string := "utils".
Definition CPP_CLASS : string := "MyClass".
Definition CPP_STRUCT : string := "MyStruct".
End DEFAULT_PLACEHOLDERS.

(** [word.charAt(0).toUpperCase() + word.slice(1)] *)
Definition capitalize (word : string) : string :=
  JS.toUpperCase (JSLib.charAt0 word) ++ JSLib.slice1 word.

(** ** Proposed names: [toPascalCase] and [getPlaceholder] *)

Module PairCreatorA_names.

(** [input.split(/[-_]/).map(word => ...).join('')] *)
Definition toPascalCase (input : string) : string :=
  JSLib.join_empty (map capitalize (JSLib.split_separators input)).

Definition getPlaceholder (h : Host) (rule : PairingRule) : string :=
  let defaults :=
    if flag (isClass rule) then DEFAULT_PLACEHOLDERS.CPP_CLASS
    else if flag (isStruct rule) && bool_decide (language rule = cpp)
    then DEFAULT_PLACEHOLDERS.CPP_STRUCT
    else if flag (isStruct rule) && bool_decide (language rule = c)
    then DEFAULT_PLACEHOLDERS.C_STRUCT
    else if bool_decide (language rule = c) then DEFAULT_PLACEHOLDERS.C_EMPTY
    else DEFAULT_PLACEHOLDERS.CPP_EMPTY in
  match activeTextEditor h with
  | Some document =>
      if negb (isUntitled document) then
        let currentFileName :=
          basename (path h) (fsPath document) (extname (path h) (fsPath document)) in
        if decide (language rule = c) then currentFileName
        else toPascalCase currentFileName
      else defaults
  | None => defaults
  end.

End PairCreatorA_names.

Module PairCreatorB_names.

Definition toPascalCase (input : string) : string :=
  JSLib.join_empty (map capitalize (JSLib.split_separators input)).

Definition getPlaceholder (h : Host) (rule : PairingRule) : string :=
  let defaults :=
    if flag (isClass rule) then DEFAULT_PLACEHOLDERS.CPP_CLASS
    else if flag (isStruct rule) then
      if decide (language rule = cpp) then DEFAULT_PLACEHOLDERS.CPP_STRUCT
      else DEFAULT_PLACEHOLDERS.C_STRUCT
    else if decide (language rule = c) then DEFAULT_PLACEHOLDERS.C_EMPTY
    else DEFAULT_PLACEHOLDERS.CPP_EMPTY in
  match activeTextEditor h with
  | Some document =>
      if negb (isUntitled document) then
        let currentFileName :=
          basename (path h) (fsPath document) (extname (path h) (fsPath document)) in
        if decide (language rule = c) then currentFileName
        else toPascalCase currentFileName
      else defaults
  | None => defaults
  end.

End PairCreatorB_names.

(** [PairCreatorService] of the revision that memoises: [split(/[-_]+/)]. *)
Module ServiceA_names.

Definition toPascalCase (input : string) : string :=
  JSLib.join_empty (map capitalize (JSLib.split_separator_runs input)).

Definition getPlaceholder (h : Host) (rule : PairingRule) : string :=
  let defaults :=
    if flag (isClass rule) then DEFAULT_PLACEHOLDERS.CPP_CLASS
    else if flag (isStruct rule) then
      if decide (language rule = cpp) then DEFAULT_PLACEHOLDERS.CPP_STRUCT
      else DEFAULT_PLACEHOLDERS.C_STRUCT
    else if decide (language rule = c) then DEFAULT_PLACEHOLDERS.C_EMPTY
    else DEFAULT_PLACEHOLDERS.CPP_EMPTY in
  match activeTextEditor h with
  | Some document =>
      if negb (isUntitled document) then
        let fileName :=
          basename (path h) (fsPath document) (extname (path h) (fsPath document)) in
        if decide (language rule = c) then fileName else toPascalCase fileName
      else defaults
  | None => defaults
  end.

End ServiceA_names.

(** The last revision: [toPascalCase] and [getDefaultPlaceholder] of the
    service, [getPlaceholder] of [PairCreatorUI]. *)
Module ServiceB_names.

Definition toPascalCase (input : string) : string :=
  JSLib.join_empty (map capitalize (JSLib.split_separator_runs input)).

Definition getDefaultPlaceholder (rule : PairingRule) : string :=
  if flag (isClass rule) then DEFAULT_PLACEHOLDERS.CPP_CLASS
  else if flag (isStruct rule) then
    if decide (language rule = cpp) then DEFAULT_PLACEHOLDERS.CPP_STRUCT
    else DEFAULT_PLACEHOLDERS.C_STRUCT
  else if decide (language rule = c) then DEFAULT_PLACEHOLDERS.C_EMPTY
  else DEFAULT_PLACEHOLDERS.CPP_EMPTY.

Definition getPlaceholder (h : Host) (rule : PairingRule) : string :=
  match activeTextEditor h with
  | Some document =>
      if negb (isUntitled document) then
        let fileName :=
          basename (path h) (fsPath document) (extname (path h) (fsPath document)) in
        if decide (language rule = c) then fileName else toPascalCase fileName
      else getDefaultPlaceholder rule
  | None => getDefaultPlaceholder rule
  end.

End ServiceB_names.

(** A name in kebab or snake case: word characters and hyphens, the first a
    letter. *)
Definition is_name_char (ch : ascii) : bool :=
  JS.is_word_char ch || (nat_of_ascii ch =? 45)%nat.

Fixpoint all_name_chars (s : string) : bool :=
  match s with
  | EmptyString => true
  | String ch s' => is_name_char ch && all_name_chars s'
  end.

Definition starts_with_letter (s : string) : bool :=
  match s with
  | String ch _ => JS.is_upper ch || JS.is_lower ch
  | EmptyString => false
  end.

(** No character of [s] is a hyphen or an underscore. *)
Fixpoint no_separator (s : string) : bool :=
  match s with
  | EmptyString => true
  | String ch s' => negb (JSLib.is_separator ch) && no_separator s'
  end.

(** ** Content generation and line endings in the later revisions *)

(** [TemplateKey] and the conditional that selects it, the same text in the
    second document and in both services. *)
Inductive TemplateKey := CPP_CLASS | CPP_STRUCT | C_STRUCT | C_EMPTY | CPP_EMPTY.

Definition templateKey (rule : PairingRule) : TemplateKey :=
  if flag (isClass rule) then CPP_CLASS
  else if flag (isStruct rule) then
    if decide (language rule = cpp) then CPP_STRUCT else C_STRUCT
  else if decide (language rule = c) then C_EMPTY else CPP_EMPTY.

(** [FILE_TEMPLATES[templateKey]] *)
Definition FILE_TEMPLATES_at (k : TemplateKey) : TemplatePair :=
  match k with
  | CPP_CLASS => FILE_TEMPLATES.CPP_CLASS
  | CPP_STRUCT => FILE_TEMPLATES.CPP_STRUCT
  | C_STRUCT => FILE_TEMPLATES.C_STRUCT
  | C_EMPTY => FILE_TEMPLATES.C_EMPTY
  | CPP_EMPTY => FILE_TEMPLATES.CPP_EMPTY
  end.

Module PairCreatorB_content.

Definition generateFileContent (fileName eol : string) (rule : PairingRule) : string * string :=
  let templates := FILE_TEMPLATES_at (templateKey rule) in
  let context := content_context fileName rule in
  let headerContent := PairCreatorB.applyTemplate (header templates) context in
  let sourceContent := PairCreatorB.applyTemplate (source templates) context in
  (JS.replace_newlines eol headerContent, JS.replace_newlines eol sourceContent).


End PairCreatorB_content.

Module ServiceA_content.

Definition generateFileContent (fileName eol : string) (rule : PairingRule) : string * string :=
  let templates := FILE_TEMPLATES_at (templateKey rule) in
  let context := content_context fileName rule in
  let headerContent := ServiceA.applyTemplate (header templates) context in
  let sourceContent := ServiceA.applyTemplate (source templates) context in
  (JS.replace_newlines eol headerContent, JS.replace_newlines eol sourceContent).

(** [platform] is [process.platform]. *)
Definition getLineEnding (platform : string) (h : Host) : string :=
  match eolSetting h with
  | Some e =>
      if bool_decide (e = JS.nl) || bool_decide (e = JS.cr ++ JS.nl) then e
      else if decide (platform = "win32") then JS.cr ++ JS.nl else JS.nl
  | None => if decide (platform = "win32") then JS.cr ++ JS.nl else JS.nl
  end.

End ServiceA_content.

Module ServiceB_content.

Definition generateFileContent (fileName eol : string) (rule : PairingRule) : string * string :=
  let templates := FILE_TEMPLATES_at (templateKey rule) in
  let context := content_context fileName rule in
  let headerContent := ServiceB.applyTemplate (header templates) context in
  let sourceContent := ServiceB.applyTemplate (source templates) context in
  (JS.replace_newlines eol headerContent, JS.replace_newlines eol sourceContent).

(** The service's [getLineEnding(eolSetting?)]. *)
Definition getLineEnding (platform : string) (eolSetting' : option string) : string :=
  match eolSetting' with
  | Some e =>
      if bool_decide (e = JS.nl) || bool_decide (e = JS.cr ++ JS.nl) then e
      else if decide (platform = "win32") then JS.cr ++ JS.nl else JS.nl
  | None => if decide (platform = "win32") then JS.cr ++ JS.nl else JS.nl
  end.

(** [PairCreatorUI.getLineEnding] *)
Definition ui_getLineEnding (platform : string) (h : Host) : string :=
  getLineEnding platform (eolSetting h).

End ServiceB_content.

(** The text of a header wrapped in the include guard [guard], and the
    include line of a source, with line feeds. *)
Definition guarded (guard body : string) : string :=
  "#ifndef " ++ guard ++ JS.nl ++ "#define " ++ guard ++ JS.nl ++ body
  ++ "#endif  // " ++ guard ++ JS.nl.

Definition includeLine (fileName headerExt' : string) : string :=
  "#include " ++ JS.dquote ++ fileName ++ headerExt' ++ JS.dquote.

(** The body of each header between the guard lines, and what follows the
    include line in each source. *)
Definition header_body (k : TemplateKey) (fileName : string) : string :=
  match k with
  | CPP_CLASS =>
      JS.nl ++ "class " ++ fileName ++ " {" ++ JS.nl ++ "public:" ++ JS.nl
      ++ "  " ++ fileName ++ "();" ++ JS.nl ++ "  ~" ++ fileName ++ "();" ++ JS.nl
      ++ JS.nl ++ "private:" ++ JS.nl ++ "  // Add private members here" ++ JS.nl
      ++ "};" ++ JS.nl ++ JS.nl
  | CPP_STRUCT =>
      JS.nl ++ "struct " ++ fileName ++ " {" ++ JS.nl ++ "  // Struct members" ++ JS.nl
      ++ "};" ++ JS.nl ++ JS.nl
  | C_STRUCT =>
      JS.nl ++ "typedef struct {" ++ JS.nl ++ "  // Struct members" ++ JS.nl
      ++ "} " ++ fileName ++ ";" ++ JS.nl ++ JS.nl
  | C_EMPTY => JS.nl ++ "// Declarations for " ++ fileName ++ ".c" ++ JS.nl ++ JS.nl
  | CPP_EMPTY => JS.nl ++ "// Declarations for " ++ fileName ++ ".cpp" ++ JS.nl ++ JS.nl
  end.

Definition source_rest (k : TemplateKey) (fileName : string) : string :=
  match k with
  | CPP_CLASS =>
      JS.nl ++ JS.nl ++ fileName ++ "::" ++ fileName ++ "() {" ++ JS.nl
      ++ "  // Constructor implementation" ++ JS.nl ++ "}" ++ JS.nl ++ JS.nl
      ++ fileName ++ "::~" ++ fileName ++ "() {" ++ JS.nl
      ++ "  // Destructor implementation" ++ JS.nl ++ "}" ++ JS.nl
  | C_EMPTY => JS.nl ++ JS.nl ++ "// Implementations for " ++ fileName ++ ".c" ++ JS.nl
  | CPP_STRUCT | C_STRUCT | CPP_EMPTY => EmptyString
  end.

(** ** The last revision: service, user interface and coordinator

    [PairCreatorService] takes its collaborators as arguments, [PairCreatorUI]
    gathers them from the editor, and [CreatePairCoordinator] runs the flow.
    [platform] is [process.platform]; [readDirectory] is
    [vscode.workspace.fs.readDirectory], which lists a directory as pairs of a
    name and a [FileType] (a number, [1] for a regular file) or fails. *)

Module ServiceB_rest.

Section Service.
Context (h : Host) (readDirectory : string -> string + list (string * N)).

Definition getRules (scope : Scope) : M (option (list PairingRule)) :=
  w ← get_world; mret (inspect (settings w) scope).

Definition getAllPairingRules : M (list PairingRule) :=
  workspaceRules ← getRules workspace;
  globalRules ← getRules user;
  mret (default [] workspaceRules ++ default [] globalRules)%list.

(** Returns [None] for null. *)
Definition getCustomCppExtensions : M (option (string * string)) :=
  allRules ← getAllPairingRules;
  let cppCustomRule := List.find (fun r => bool_decide (language r = cpp)) allRules in
  mret ((fun r => (headerExt r, sourceExt r)) <$> cppCustomRule).

(** Both targets are checked, and the first path that exists is returned. *)
Definition checkFileExistence (headerPath sourcePath : string) : M (option string) :=
  let checks :=
    map (fun uri => exists' ← stat uri; mret (if (exists' : bool) then Some uri else None))
      [headerPath; sourcePath] in
  results ← JSLib.Promise_all checks;
  mret (default None (List.find (fun p => bool_decide (p <> None)) results)).

(** The host rejects a write with an [Error], whose message is kept. *)
Definition writeFiles (headerPath sourcePath headerContent sourceContent : string) : M unit :=
  try_catch
    (_ ← JSLib.Promise_all
           [writeFile h headerPath headerContent; writeFile h sourcePath sourceContent];
     mret tt)
    (fun message => throw ("Failed to create files: " ++ message)).

(** The service's [getTargetDirectory(activeDocumentPath?, workspaceFolders?)]. *)
Definition getTargetDirectory (activeDocumentPath : option string)
    (workspaceFolders' : option (list string)) : option string :=
  match activeDocumentPath with
  | Some p =>
      if JS.truthy p then Some (dirname (path h) p)
      else match workspaceFolders' with Some [folder] => Some folder | _ => None end
  | None => match workspaceFolders' with Some [folder] => Some folder | _ => None end
  end.

(** Returns [true] when the warning is to be shown. *)
Definition checkForCorrespondingSourceFiles (dirPath filePath : string) (language' : Language)
    (fileExistsCheck : option (string -> M bool)) : M bool :=
  match fileExistsCheck with
  | None => mret true
  | Some fileExistsCheck =>
      let baseName := basename (path h) filePath (extname (path h) filePath) in
      let extensions := if decide (language' = c) then [".c"] else [".cpp"; ".cc"; ".cxx"] in
      let checks :=
        map (fun ext => fileExistsCheck (join (path h) dirPath (baseName ++ ext))) extensions in
      try_catch
        (results ← JSLib.Promise_all checks; mret (negb (existsb id results)))
        (fun _ => mret true)
  end.

Definition shouldShowLanguageMismatchWarning (language' : Language) (result : PairingRule)
    (currentDir activeFilePath : option string)
    (checkForCppFilesInDirectory : option (string -> M bool))
    (fileExistsCheck : option (string -> M bool)) : M bool :=
  match currentDir, activeFilePath with
  | Some currentDir, Some activeFilePath =>
      if negb (JS.truthy currentDir) || negb (JS.truthy activeFilePath) then mret true
      else if bool_decide (language' = c) && bool_decide (language result = cpp) then
        match checkForCppFilesInDirectory with
        | Some check => check currentDir
        | None => mret true
        end
      else checkForCorrespondingSourceFiles currentDir activeFilePath language' fileExistsCheck
  | _, _ => mret true
  end.

(** The static [checkForCppFilesInDirectory]: [true] when no regular file of
    the directory has a definitive C++ extension, or the directory cannot be
    read. *)
Definition checkForCppFilesInDirectory (dirPath : string) : M bool :=
  match readDirectory dirPath with
  | inr entries =>
      let hasCppFiles :=
        existsb (fun entry : string * N =>
                   (entry.2 =? 1)%N
                   && ServiceB.has ServiceB.DEFINITIVE_EXTENSIONS_cpp (extname (path h) entry.1))
          entries in
      mret (negb hasCppFiles)
  | inl _ => mret true
  end.

End Service.

End ServiceB_rest.

Module UIB.

(** [TEMPLATE_RULES] has the entries of the second document. *)
Definition TEMPLATE_RULES : list PairingRule := PairCreatorB.TEMPLATE_RULES.

Section UI.
Context (h : Host) (u : User) (readDirectory : string -> string + list (string * N)).

(** The path of the active document when it is saved. *)
Definition activeDocumentPath : option string :=
  match activeTextEditor h with
  | Some document => if negb (isUntitled document) then Some (fsPath document) else None
  | None => None
  end.

Definition getTargetDirectory : M (option string) :=
  match ServiceB_rest.getTargetDirectory h activeDocumentPath (workspaceFolders h) with
  | Some result => mret (Some result)
  | None =>
      match workspaceFolders h with
      | Some (f1 :: f2 :: fs) =>
          _ ← emit WorkspaceFolderPick;
          mret (pick (f1 :: f2 :: fs) (folderChoice u))
      | _ => mret None
      end
  end.

Definition shouldShowLanguageMismatchWarning (language' : Language) (result : PairingRule)
    : M bool :=
  let currentDir := dirname (path h) <$> activeDocumentPath in
  let activeFilePath := activeDocumentPath in
  ServiceB_rest.shouldShowLanguageMismatchWarning h language' result currentDir activeFilePath
    (Some (ServiceB_rest.checkForCppFilesInDirectory h readDirectory))
    (Some ServiceB.fileExists).

Definition adaptRuleForDisplay (rule : PairingRule) : M PairingRule :=
  if decide (language rule <> cpp) then mret rule
  else
    customExtensions ← ServiceB_rest.getCustomCppExtensions;
    match customExtensions with
    | None => mret rule
    | Some (headerExt', sourceExt') =>
        let newDescription :=
          JSLib.replace_matches JSLib.match_extension_pair (headerExt' ++ "/" ++ sourceExt') 0
            (description rule) in
        mret {| key := key rule; label := label rule; description := newDescription;
                language := language rule; headerExt := headerExt'; sourceExt := sourceExt';
                isClass := isClass rule; isStruct := isStruct rule |}
    end.

Definition prepareTemplateChoices (language' : Language) (uncertain' : bool)
    : M (list PairingRule) :=
  let order := desiredOrder language' uncertain' in
  mapM adaptRuleForDisplay
    (sort (fun a b => (indexOf order (key a) - indexOf order (key b))%Z) TEMPLATE_RULES).

(** Returns [(adaptedDefaultTemplates, otherLanguageTemplates,
    cleanedCustomRules)]; the [languageRules] of the result are not read. *)
Definition prepareCustomRulesChoices (allRules : list PairingRule) (language' : Language)
    : M (list PairingRule * list PairingRule * list PairingRule) :=
  let languageRules := filter (fun rule => language rule = language') allRules in
  let customExt := head languageRules in
  adaptedDefaultTemplates ←
    match customExt with
    | Some customExt =>
        if decide (language' = cpp) then
          mret (map (PairCreatorB.adaptTemplate customExt)
                  (filter (fun template =>
                             language template = cpp
                             /\ negb (existsb (fun customRule =>
                                                 PairCreatorA.same_kind customRule template)
                                        languageRules) = true)
                     TEMPLATE_RULES))
        else
          mapM adaptRuleForDisplay
            (filter (fun template =>
                       language template = language'
                       /\ negb (existsb (fun customRule =>
                                           PairCreatorA.same_rule customRule template)
                                  languageRules) = true)
               TEMPLATE_RULES)
    | None =>
        mapM adaptRuleForDisplay
          (filter (fun template =>
                     language template = language'
                     /\ negb (existsb (fun customRule =>
                                         PairCreatorA.same_rule customRule template)
                                languageRules) = true)
             TEMPLATE_RULES)
    end;
  otherLanguageTemplates ←
    mapM adaptRuleForDisplay
      (filter (fun template => language template <> language') TEMPLATE_RULES);
  let cleanedCustomRules := map PairCreatorA.cleanRule allRules in
  mret (adaptedDefaultTemplates, otherLanguageTemplates, cleanedCustomRules).

Definition selectFromCustomRules (allRules : list PairingRule) (language' : Language)
    : M (option Choice) :=
  '(adaptedDefaultTemplates, otherLanguageTemplates, cleanedCustomRules) ←
    prepareCustomRulesChoices allRules language';
  let choices :=
    (map ChoiceRule cleanedCustomRules ++ map ChoiceRule adaptedDefaultTemplates ++
     map ChoiceRule otherLanguageTemplates ++ [ChoiceUseDefault])%list in
  _ ← emit (CustomRulePick choices);
  mret (pick choices (customRuleChoice u)).

(** The same text as in the second document. *)
Definition offerToCreateCustomRules (language' : Language) : M (option bool) :=
  PairCreatorB.offerToCreateCustomRules u language'.

(** The same text as in the second document. *)
Definition createCustomRules (language' : Language) : M (option PairingRule) :=
  PairCreatorB.createCustomRules h u language'.

Definition checkAndOfferCustomRules (language' : Language) (uncertain' : bool)
    : M CustomRulesResult :=
  if decide (language' = c) then mret NoCustomRules
  else
    allRules ← ServiceB_rest.getAllPairingRules;
    let languageRules := filter (fun rule => language rule = language') allRules in
    if (0 <? length languageRules)%nat then
      result ← selectFromCustomRules allRules language';
      match result with
      | None => mret Cancelled
      | Some (ChoiceRule r) => mret (Selected r)
      | Some ChoiceUseDefault => mret UseDefault
      end
    else if negb uncertain' then
      shouldCreateRules ← offerToCreateCustomRules language';
      match shouldCreateRules with
      | None => mret Cancelled
      | Some true =>
          result ← createCustomRules language';
          match result with
          | None => mret Cancelled
          | Some r => mret (Selected r)
          end
      | Some false => mret NoCustomRules
      end
    else mret NoCustomRules.

Definition mismatch_message : string :=
  "You're working in a C file but selected a C++ template. This may create files with incompatible extensions or content.".

Definition promptForPairingRule (language' : Language) (uncertain' : bool)
    : M (option PairingRule) :=
  customRulesResult ← checkAndOfferCustomRules language' uncertain';
  match customRulesResult with
  | Cancelled => mret None
  | Selected r => mret (Some r)
  | UseDefault | NoCustomRules =>
      choices ← prepareTemplateChoices language' uncertain';
      _ ← emit (TemplatePick choices);
      match pick choices (templateChoice u) with
      | Some result =>
          if bool_decide (language' = c) && bool_decide (language result = cpp) then
            shouldShowWarning ← shouldShowLanguageMismatchWarning language' result;
            if (shouldShowWarning : bool) then
              let buttons := ["Continue"; "Cancel"] in
              _ ← emit (MismatchWarning mismatch_message buttons);
              let shouldContinue := pick buttons (mismatchAnswer u) in
              if decide (shouldContinue <> Some "Continue") then mret None
              else mret (Some result)
            else mret (Some result)
          else mret (Some result)
      | None => mret None
      end
  end.

(** The placeholder, [getPlaceholder], and the title only decorate the box. *)
Definition promptForFileName (rule : PairingRule) : M (option string) :=
  let prompt :=
    if flag (isClass rule) then "Please enter the name for the new C++ class."
    else if flag (isStruct rule) then
      "Please enter the name for the new " ++ JS.toUpperCase (Language_text (language rule))
      ++ " struct."
    else "Please enter the base name for the new "
         ++ JS.toUpperCase (Language_text (language rule)) ++ " file pair." in
  _ ← emit (FileNameInput prompt);
  mret (inputBox (fun text => IDENTIFIER_test (JS.trim text)) (fileNameText u)).

Definition showSuccessAndOpenFile (headerPath sourcePath : string) : M unit :=
  _ ← emit (OpenDocument headerPath);
  emit (InformationMessage
          ("Successfully created " ++ basename (path h) headerPath "" ++ " and " ++
           basename (path h) sourcePath "" ++ ".")).

End UI.

End UIB.

(** [CreatePairCoordinator] *)
Module Coordinator.

Section Create.
Context (h : Host) (u : User) (platform : string)
        (readDirectory : string -> string + list (string * N)).

Definition create : M unit :=
  try_catch
    (targetDirectory ← UIB.getTargetDirectory h u;
     match targetDirectory with
     | None =>
         emit (ErrorMessage
                 "Cannot determine target directory. Please open a folder or a file first.")
     | Some targetDirectory =>
         detection ← ServiceB.ui_detectLanguage h;
         rule ← UIB.promptForPairingRule h u readDirectory
                  (det_language detection) (uncertain detection);
         match rule with
         | None => mret tt
         | Some rule =>
             fileName ← UIB.promptForFileName u rule;
             match fileName with
             | None => mret tt
             | Some fileName =>
                 if negb (JS.truthy fileName) then mret tt
                 else
                   let headerPath := join (path h) targetDirectory (fileName ++ headerExt rule) in
                   let sourcePath := join (path h) targetDirectory (fileName ++ sourceExt rule) in
                   existingFilePath ← ServiceB_rest.checkFileExistence headerPath sourcePath;
                   let write : M unit :=
                     let eol := ServiceB_content.ui_getLineEnding platform h in
                     let '(headerContent, sourceContent) :=
                       ServiceB_content.generateFileContent fileName eol rule in
                     _ ← ServiceB_rest.writeFiles h headerPath sourcePath
                           headerContent sourceContent;
                     UIB.showSuccessAndOpenFile h headerPath sourcePath in
                   match existingFilePath with
                   | Some existing =>
                       if JS.truthy existing
                       then emit (ErrorMessage ("File already exists: " ++ existing))
                       else write
                   | None => write
                   end
             end
         end
     end)
    (fun message => emit (ErrorMessage (PairCreatorA.error_text message))).

End Create.

End Coordinator.

(** [quiet u C m]: the call [m] does not throw, leaves the files alone, only
    appends to the trace, and returns a result that satisfies [C] whenever
    one of the dialogs it showed was dismissed.  The existence cache may
    grow. *)
Definition quiet {A} (u : User) (C : A -> Prop) (m : M A) : Prop :=
  forall w, exists x w' evs,
    m w = (inr x, w') /\ files w' = files w
    /\ trace w' = (trace w ++ evs)%list
    /\ ((exists e, e ∈ evs /\ dismissed u e) -> C x).

(** ** Statements about saving and about the rules that the wizard builds *)

(** The world [w'] is [w] after [rule] was appended to the rules of the
    scope that the user picked, the host accepting the update. *)
Definition saved_in (h : Host) (u : User) (rule : PairingRule) (w w' : World) : Prop :=
  exists scope,
    pick [workspace; user] (saveLocationChoice u) = Some scope
    /\ updateError h scope = None
    /\ settings w'
       = set_scope (settings w) scope
           (Some (default [] (inspect (settings w) scope) ++ [rule])%list).

(** An extension that the wizard lets through: a dot and at least one more
    character. *)
Definition dotted (ext : string) : Prop :=
  JS.startsWith ext "." = true /\ (2 <= String.length ext)%nat.

(** [careful u m]: the call [m], which may throw, only appends to the trace,
    leaves every file that exists as it is, and changes no file at all when
    one of the dialogs it showed was dismissed. *)
Definition careful {A} (u : User) (m : M A) : Prop :=
  forall w, exists r w' evs,
    m w = (r, w') /\ trace w' = (trace w ++ evs)%list
    /\ (forall p, is_Some (files w !! p) -> files w' !! p = files w !! p)
    /\ ((exists e, e ∈ evs /\ dismissed u e) -> files w' = files w).

(** ** The settings user interface of the validating namespace

    [PairingRuleUI] offers four extension pairs for a quick set-up and a menu
    to edit or reset the rules of a scope.  What it does is recorded beside
    the configuration of [PairingRuleServiceNs]. *)

Module PairingRuleUINs.
Import PairingRuleServiceNs.

Inductive UIEvent :=
| ScopePick                                (* 'Save Configuration Scope' *)
| AdvancedMenu (keys : list string)        (* 'Advanced Rule Management' *)
| Command (command : string)               (* vscode.commands.executeCommand *)
| Information (message : string).          (* showInformationMessage *)

(** The answers of the user: the index of the item picked in the main quick
    pick, in the scope pick and in the advanced menu. *)
Record Answers := mkAnswers {
  mainChoice : option nat;
  scopeChoice : option nat;
  menuChoice : option nat
}.

Definition UI (A : Type) : Type :=
  Config * list UIEvent -> (string + A) * (Config * list UIEvent).

Definition show (e : UIEvent) : UI unit := fun st => (inr tt, (st.1, (st.2 ++ [e])%list)).

(** A call of the service inside the user interface. *)
Definition call {A} (op : Op A) : UI A := fun st =>
  match op st.1 with
  | (r, cfg) => (r, (cfg, st.2))
  end.

Definition andThen {A B} (m : UI A) (k : A -> UI B) : UI B := fun st =>
  match m st with
  | (inr x, st') => k x st'
  | (inl e, st') => (inl e, st')
  end.

Record ExtensionOption := mkOption {
  opt_label : string;
  opt_description : string;
  opt_headerExt : string;
  opt_sourceExt : string;
  opt_language : Language
}.






(** [Array.isArray] of the value of the scope. *)
Definition hasCustomRules (scope : Scope) (cfg : Config) : bool :=
  match scope with
  | workspace => bool_decide (is_Some (workspaceValue cfg))
  | user => bool_decide (is_Some (globalValue cfg))
  end.

Definition getRules (scope : Scope) (cfg : Config) : option (list StoredRule) :=
  match scope with
  | workspace => workspaceValue cfg
  | user => globalValue cfg
  end.

(** The keys of the items of the advanced menu, in order. *)
Definition createAdvancedMenuItems (cfg : Config) : list string :=
  (["edit_workspace"]
   ++ (if hasCustomRules workspace cfg then ["reset_workspace"] else [])
   ++ ["separator_global"; "edit_global"]
   ++ (if hasCustomRules user cfg then ["reset_global"] else []))%list.

Section UI.
Context (stringify : StoredRule -> string) (updateError : Scope -> option string).


Definition handleAdvancedMenuSelection (key' : string) : UI unit :=
  if decide (key' = "edit_workspace")
  then show (Command "workbench.action.openWorkspaceSettingsFile")
  else if decide (key' = "edit_global") then show (Command "workbench.action.openSettingsJson")
  else if decide (key' = "reset_workspace") then
    andThen (call (resetRules updateError workspace)) (fun _ =>
    show (Information "Workspace pairing rules have been reset."))
  else if decide (key' = "reset_global") then
    andThen (call (resetRules updateError user)) (fun _ =>
    show (Information "Global pairing rules have been reset."))
  else fun st => (inr tt, st).

Definition showAdvancedManagementMenu (a : Answers) : UI unit := fun st =>
  let items := createAdvancedMenuItems st.1 in
  andThen (show (AdvancedMenu items)) (fun _ =>
  match pick items (menuChoice a) with
  | Some key' => if JS.truthy key' then handleAdvancedMenuSelection key' else fun st => (inr tt, st)
  | None => fun st => (inr tt, st)
  end) st.


End UI.

End PairingRuleUINs.

(** * Theorems *)

(** ** Placeholder substitution *)

Section TemplateFacts.
Import JS Template.

(** Two replacers that agree on the matches of a subject give the same
    result. *)
Lemma replace_go_ext (f g : string -> string -> string) (s : string) :
  forall skip,
    (forall k, k ∈ placeholders_go skip s -> f (placeholder_text k) k = g (placeholder_text k) k) ->
    replace_go f skip s = replace_go g skip s.
Proof.
  induction s as [|ch s IH]; intros skip Hfg; [reflexivity|].
  destruct skip as [|n].
  - cbn [replace_go placeholders_go] in *.
    destruct (match_placeholder (String ch s)) as [k|].
    + rewrite (Hfg k) by apply list_elem_of_here.
      f_equal. apply IH. intros k' Hk'. apply Hfg. by apply list_elem_of_further.
    + f_equal. by apply IH.
  - cbn [replace_go placeholders_go] in *. by apply IH.
Qed.

Lemma match_placeholder_double s k :
  match_placeholder s = Some k ->
  exists s', s = String lbrace (String lbrace s').
Proof.
  destruct s as [|a [|b s1]]; cbn; try discriminate.
  destruct (Ascii.eqb_spec a lbrace), (Ascii.eqb_spec b lbrace); cbn; try discriminate.
  subst. eauto.
Qed.

(** A text without adjacent opening braces has no placeholder and is left
    alone by every substitution. *)
Lemma replace_go_fixed (f : string -> string -> string) (s : string) :
  forall prev, no_double_lbrace prev s = true -> replace_go f 0 s = s.
Proof.
  induction s as [|ch s IH]; intros prev Hs; [reflexivity|].
  cbn [replace_go]. cbn [no_double_lbrace] in Hs.
  apply andb_true_iff in Hs as [_ Hs].
  destruct (match_placeholder (String ch s)) as [k|] eqn:Hm.
  - apply match_placeholder_double in Hm as [s' Hs']. injection Hs' as -> ->.
    cbn in Hs. rewrite Ascii.eqb_refl in Hs. cbn in Hs. discriminate.
  - f_equal. by apply (IH (Ascii.eqb ch lbrace)).
Qed.

Lemma no_double_lbrace_app (v s : string) :
  no_lbrace v = true ->
  no_double_lbrace false (v ++ s) = no_double_lbrace false s.
Proof.
  induction v as [|ch v IH]; intros Hv; [reflexivity|].
  cbn in Hv. apply andb_true_iff in Hv as [Hc Hv].
  apply negb_true_iff in Hc.
  change (String ch v ++ s) with (String ch (v ++ s)).
  cbn [no_double_lbrace]. rewrite Hc. cbn. by apply IH.
Qed.

Lemma no_lbrace_app (a b : string) :
  no_lbrace (a ++ b) = no_lbrace a && no_lbrace b.
Proof.
  induction a as [|ch a IH]; [reflexivity|].
  change (String ch a ++ b) with (String ch (a ++ b)).
  cbn [no_lbrace]. rewrite IH. by rewrite andb_assoc.
Qed.

Lemma word_char_not_lbrace ch : is_word_char ch = true -> Ascii.eqb ch lbrace = false.
Proof.
  intros H. destruct (Ascii.eqb_spec ch lbrace) as [->|]; [|reflexivity].
  vm_compute in H. discriminate.
Qed.

Lemma upper_char_not_lbrace ch :
  is_word_char ch = true -> Ascii.eqb (upper_char ch) lbrace = false.
Proof.
  revert ch. intros [[] [] [] [] [] [] [] []]; vm_compute; congruence.
Qed.

Lemma all_word_chars_no_lbrace s :
  all_word_chars s = true -> no_lbrace s = true /\ no_lbrace (toUpperCase s) = true.
Proof.
  induction s as [|ch s IH]; [done|].
  cbn. intros [Hc Hs]%andb_true_iff. destruct (IH Hs) as [H1 H2].
  rewrite (word_char_not_lbrace _ Hc), (upper_char_not_lbrace _ Hc). cbn. done.
Qed.

Lemma identifier_word_chars s :
  IDENTIFIER_test s = true -> all_word_chars s = true /\ truthy s = true.
Proof.
  destruct s as [|ch s]; [discriminate|]. cbn.
  intros [Hc Hs]%andb_true_iff. split; [|reflexivity].
  apply andb_true_iff. split; [|done].
  unfold is_word_char.
  destruct (is_upper ch), (is_lower ch), (is_underscore ch), (is_digit ch); done.
Qed.

End TemplateFacts.

(** C9. The two [applyTemplate] bodies, [context[key] || match] and
    [context[key] ?? ''], return the same text for every template all of whose
    placeholder names are bound to non-empty strings in the context; with an
    unbound placeholder they differ. *)
Theorem applyTemplate_or_nullish_agree :
  (forall template context,
      Forall (Template.bound context) (Template.placeholders template) ->
      PairCreatorA.applyTemplate template context
      = ServiceA.applyTemplate template context)
  /\ (exists template context,
         PairCreatorA.applyTemplate template context
         <> ServiceA.applyTemplate template context).
Proof.
  split.
  - intros template context Hb.
    unfold PairCreatorA.applyTemplate, ServiceA.applyTemplate,
      Template.applyTemplate_or, Template.applyTemplate_nullish,
      Template.replace_placeholders.
    apply replace_go_ext. intros k Hk.
    rewrite Forall_forall in Hb. destruct (Hb k Hk) as (v & -> & Hv).
    by rewrite Hv.
  - exists "{{name}}", ∅. vm_compute. discriminate.
Qed.

Lemma applyTemplate_or_nullish_agree_witness :
  PairCreatorA.applyTemplate "class {{fileName}} {" {[ "fileName" := "Foo" ]}
  = ServiceA.applyTemplate "class {{fileName}} {" {[ "fileName" := "Foo" ]}.
Proof.
  apply (proj1 applyTemplate_or_nullish_agree).
  repeat constructor. exists "Foo". split; reflexivity.
Defined.

(** ** Content generation *)

Lemma content_context_lookup fileName rule :
  content_context fileName rule !! "fileName" = Some fileName
  /\ content_context fileName rule !! "headerGuard" = Some (JS.toUpperCase fileName ++ "_H_")
  /\ content_context fileName rule !! "includeLine"
     = Some ("#include " ++ JS.dquote ++ fileName ++ headerExt rule ++ JS.dquote).
Proof. unfold content_context. repeat split; by simplify_map_eq. Qed.

Lemma getTemplatesByRule_class rule :
  flag (isClass rule) = true -> PairCreatorA.getTemplatesByRule rule = FILE_TEMPLATES.CPP_CLASS.
Proof. intros H. unfold PairCreatorA.getTemplatesByRule. by rewrite H. Qed.

(** Reduces appends whose left operand starts with a known character. *)
Ltac append_head :=
  repeat first
    [ progress change (String ?a ?x ++ ?y) with (String a (x ++ y)) in *
    | progress change (EmptyString ++ ?y) with y in * ].

Lemma string_app_assoc (a b d : string) : (a ++ b) ++ d = a ++ (b ++ d).
Proof.
  induction a as [|ch a IH]; [reflexivity|].
  change (String ch a ++ b) with (String ch (a ++ b)).
  change (String ch (a ++ b) ++ d) with (String ch ((a ++ b) ++ d)).
  by rewrite IH.
Qed.

Lemma string_app_nil_r (a : string) : a ++ EmptyString = a.
Proof.
  induction a as [|ch a IH]; [reflexivity|].
  change (String ch a ++ EmptyString) with (String ch (a ++ EmptyString)). by rewrite IH.
Qed.

Section BuiltinText.
Import JS Template.

Variable f : string -> string -> string.
Variables F G I : string.
Hypothesis f_fileName : forall m, f m "fileName" = F.
Hypothesis f_headerGuard : forall m, f m "headerGuard" = G.
Hypothesis f_includeLine : forall m, f m "includeLine" = I.

(** What a substitution that maps the three names to [F], [G] and [I]
    makes of each built-in template. *)
Lemma builtin_text k :
  replace_go f 0 (header (FILE_TEMPLATES_at k)) = guarded G (header_body k F)
  /\ replace_go f 0 (source (FILE_TEMPLATES_at k)) = I ++ source_rest k F.
Proof.
  destruct k; split.
  all: match goal with
       | |- replace_go f 0 ?t = ?rhs =>
           let t' := eval cbv in t in
           let l := eval cbv -[String.append] in (replace_go f 0 t') in
           change (replace_go f 0 t) with l;
           rewrite ?f_fileName, ?f_headerGuard, ?f_includeLine;
           let r := eval cbv -[String.append] in rhs in
           change rhs with r
       end.
  all: repeat (append_head; rewrite ?string_app_assoc); reflexivity.
Qed.

End BuiltinText.

Lemma getTemplatesByRule_key rule :
  PairCreatorA.getTemplatesByRule rule = FILE_TEMPLATES_at (templateKey rule).
Proof.
  unfold PairCreatorA.getTemplatesByRule, templateKey.
  destruct (flag (isClass rule)), (flag (isStruct rule)), (language rule); reflexivity.
Qed.

Lemma applyTemplate_or_spelled fileName rule k :
  fileName <> "" ->
  Template.applyTemplate_or (header (FILE_TEMPLATES_at k)) (content_context fileName rule)
  = guarded (JS.toUpperCase fileName ++ "_H_") (header_body k fileName)
  /\ Template.applyTemplate_or (source (FILE_TEMPLATES_at k)) (content_context fileName rule)
     = includeLine fileName (headerExt rule) ++ source_rest k fileName.
Proof.
  intros Hname.
  destruct (content_context_lookup fileName rule) as (HF & HG & HI).
  unfold Template.applyTemplate_or, Template.replace_placeholders.
  apply builtin_text; intros m; rewrite ?HF, ?HG, ?HI.
  - by destruct fileName.
  - by destruct fileName.
  - reflexivity.
Qed.

(** C5. [generateFileContent] substitutes three variables, [fileName], a
    header guard equal to the upper-cased [fileName] followed by [_H_], and an
    include line that names the chosen header extension, into one of five
    fixed template pairs.  For every non-empty name the result is spelled
    out: the header opens with [#ifndef] and [#define] of the guard, holds
    the body of the rule's kind with the name in place, and closes with
    [#endif] and the guard; the source opens with the include line, which
    the rest of its kind follows; and every line feed becomes the line
    ending.  With [fileName = "Foo"] and the class template
    the header contains [#ifndef FOO_H_], [#define FOO_H_] and [class Foo {],
    and the source contains the include of [Foo.h] and [Foo::Foo()]. *)
Theorem generateFileContent_three_variables_five_templates :
  (forall rule, PairCreatorA.getTemplatesByRule rule ∈ FILE_TEMPLATES.all)
  /\ (NoDup FILE_TEMPLATES.all /\ length FILE_TEMPLATES.all = 5)
  /\ Forall (fun t => exists rule, rule ∈ PairCreatorA.TEMPLATE_RULES
                                  /\ PairCreatorA.getTemplatesByRule rule = t)
       FILE_TEMPLATES.all
  /\ (forall fileName rule,
        dom (content_context fileName rule) = list_to_set content_keys
        /\ content_context fileName rule !! "fileName" = Some fileName
        /\ content_context fileName rule !! "headerGuard"
           = Some (JS.toUpperCase fileName ++ "_H_")
        /\ content_context fileName rule !! "includeLine"
           = Some ("#include " ++ JS.dquote ++ fileName ++ headerExt rule ++ JS.dquote))
  /\ Forall (fun t => Template.placeholders (header t) ⊆ content_keys
                      /\ Template.placeholders (source t) ⊆ content_keys)
       FILE_TEMPLATES.all
  /\ (forall fileName eol rule,
        PairCreatorA.generateFileContent fileName eol rule
        = (JS.replace_newlines eol
             (PairCreatorA.applyTemplate (header (PairCreatorA.getTemplatesByRule rule))
                (content_context fileName rule)),
           JS.replace_newlines eol
             (PairCreatorA.applyTemplate (source (PairCreatorA.getTemplatesByRule rule))
                (content_context fileName rule))))
  /\ (forall rule eol,
        flag (isClass rule) = true -> headerExt rule = ".h" ->
        eol = JS.nl \/ eol = JS.cr ++ JS.nl ->
        let '(headerContent, sourceContent) := PairCreatorA.generateFileContent "Foo" eol rule in
        JS.includes headerContent "#ifndef FOO_H_" = true
        /\ JS.includes headerContent "#define FOO_H_" = true
        /\ JS.includes headerContent "class Foo {" = true
        /\ JS.includes sourceContent ("#include " ++ JS.dquote ++ "Foo.h" ++ JS.dquote) = true
        /\ JS.includes sourceContent "Foo::Foo()" = true)
  /\ (forall fileName eol rule,
        fileName <> "" ->
        let k := templateKey rule in
        let guard := JS.toUpperCase fileName ++ "_H_" in
        PairCreatorA.getTemplatesByRule rule = FILE_TEMPLATES_at k
        /\ PairCreatorA.generateFileContent fileName eol rule
           = (JS.replace_newlines eol (guarded guard (header_body k fileName)),
              JS.replace_newlines eol
                (includeLine fileName (headerExt rule) ++ source_rest k fileName))).
Proof.
  split; [|split; [|split; [|split; [|split; [|split; [|split]]]]]].
  8: { intros fileName eol rule Hname k guard.
       split; [apply getTemplatesByRule_key|].
       unfold PairCreatorA.generateFileContent, PairCreatorA.applyTemplate.
       rewrite getTemplatesByRule_key.
       by destruct (applyTemplate_or_spelled fileName rule (templateKey rule) Hname)
         as [-> ->]. }
  - intros rule. unfold PairCreatorA.getTemplatesByRule, FILE_TEMPLATES.all.
    repeat case_match; set_solver.
  - split; [|reflexivity]. apply (bool_decide_unpack _). by vm_compute.
  - unfold FILE_TEMPLATES.all.
    repeat apply Forall_cons_2; [..|apply Forall_nil_2].
    + eexists. split; [eapply (list_elem_of_lookup_2 _ 1%nat)|]; reflexivity.
    + eexists. split; [eapply (list_elem_of_lookup_2 _ 2%nat)|]; reflexivity.
    + eexists. split; [eapply (list_elem_of_lookup_2 _ 4%nat)|]; reflexivity.
    + eexists. split; [eapply (list_elem_of_lookup_2 _ 3%nat)|]; reflexivity.
    + eexists. split; [eapply (list_elem_of_lookup_2 _ 0%nat)|]; reflexivity.
  - intros fileName rule. split; [|apply content_context_lookup].
    unfold content_context, content_keys. rewrite !dom_insert_L, dom_singleton_L. set_solver.
  - unfold FILE_TEMPLATES.all, content_keys.
    repeat apply Forall_cons_2; [..|apply Forall_nil_2];
      (split; apply (bool_decide_unpack _); by vm_compute).
  - reflexivity.
  - intros rule eol Hclass Hext Heol.
    unfold PairCreatorA.generateFileContent.
    rewrite (getTemplatesByRule_class _ Hclass).
    unfold content_context. rewrite Hext.
    destruct Heol as [-> | ->]; vm_compute; repeat split.
Qed.

Lemma generateFileContent_Foo_witness :
  let rule := mkRule "cpp_class" "$(symbol-class) C++ Class"
                "Creates a .h/.cpp pair with a boilerplate class definition."
                cpp ".h" ".cpp" (Some true) None in
  JS.includes (PairCreatorA.generateFileContent "Foo" JS.nl rule).1 "#ifndef FOO_H_" = true.
Proof.
  intros rule.
  destruct generateFileContent_three_variables_five_templates
    as (_ & _ & _ & _ & _ & _ & HFoo & _).
  specialize (HFoo rule JS.nl eq_refl eq_refl (or_introl eq_refl)).
  destruct (PairCreatorA.generateFileContent "Foo" JS.nl rule).
  apply HFoo.
Defined.

(** ** Idempotence of the substitution *)

Section Idempotence.
Import JS Template.

Variable f : string -> string -> string.
Variables F G I : string.
Hypothesis f_fileName : forall m, f m "fileName" = F.
Hypothesis f_headerGuard : forall m, f m "headerGuard" = G.
Hypothesis f_includeLine : forall m, f m "includeLine" = I.
Hypothesis F_clean : no_lbrace F = true.
Hypothesis G_clean : no_lbrace G = true.
Hypothesis I_clean : no_lbrace I = true.

Ltac substituted_text t :=
  let r := eval cbv -[String.append] in (replace_go f 0 t) in
  change (replace_go f 0 t) with r;
  rewrite ?f_fileName, ?f_headerGuard, ?f_includeLine.

Ltac clean_text :=
  repeat first
    [ reflexivity
    | rewrite (no_double_lbrace_app F) by exact F_clean
    | rewrite (no_double_lbrace_app G) by exact G_clean
    | rewrite (no_double_lbrace_app I) by exact I_clean
    | progress simpl ].

(** The text generated from a built-in template has no adjacent opening
    braces when the three values have no opening brace. *)
Lemma builtin_text_clean :
  Forall (fun t => no_double_lbrace false (replace_go f 0 (header t)) = true
                   /\ no_double_lbrace false (replace_go f 0 (source t)) = true)
    FILE_TEMPLATES.all.
Proof.
  unfold FILE_TEMPLATES.all.
  repeat apply Forall_cons_2; [..|apply Forall_nil_2]; split.
  all: match goal with
       | |- no_double_lbrace false (replace_go f 0 ?t) = true =>
           let t' := eval cbv in t in change t with t'; substituted_text t'
       end.
  all: clean_text.
Qed.

End Idempotence.

Lemma truthy_app_l a b : JS.truthy a = true -> JS.truthy (a ++ b) = true.
Proof. by destruct a. Qed.

Lemma truthy_toUpperCase a : JS.truthy (JS.toUpperCase a) = JS.truthy a.
Proof. by destruct a. Qed.

Lemma content_values_clean fileName rule :
  IDENTIFIER_test fileName = true ->
  Template.no_lbrace (headerExt rule) = true ->
  Template.no_lbrace fileName = true
  /\ Template.no_lbrace (JS.toUpperCase fileName ++ "_H_") = true
  /\ Template.no_lbrace ("#include " ++ JS.dquote ++ fileName ++ headerExt rule ++ JS.dquote) = true.
Proof.
  intros [Hw _]%identifier_word_chars Hext.
  destruct (all_word_chars_no_lbrace _ Hw) as [H1 H2].
  rewrite !no_lbrace_app, H1, H2, Hext. done.
Qed.

(** C8, as the code has it. Substitution is not idempotent on every template
    and context, but it is on the text the wizard generates: whenever the
    substituted text has no two adjacent opening braces a second substitution
    returns it unchanged, and this is the case for each of the five built-in
    template pairs under the context built from a valid identifier
    [fileName] and a header extension without an opening brace.  Both
    [applyTemplate] bodies. *)
Theorem applyTemplate_idempotent_on_generated_text :
  (forall template context,
      Template.no_double_lbrace false (PairCreatorA.applyTemplate template context) = true ->
      PairCreatorA.applyTemplate (PairCreatorA.applyTemplate template context) context
      = PairCreatorA.applyTemplate template context)
  /\ (forall template context,
      Template.no_double_lbrace false (ServiceA.applyTemplate template context) = true ->
      ServiceA.applyTemplate (ServiceA.applyTemplate template context) context
      = ServiceA.applyTemplate template context)
  /\ (forall fileName rule t,
      IDENTIFIER_test fileName = true ->
      Template.no_lbrace (headerExt rule) = true ->
      t ∈ FILE_TEMPLATES.all ->
      let context := content_context fileName rule in
      Forall (fun template =>
                PairCreatorA.applyTemplate (PairCreatorA.applyTemplate template context) context
                = PairCreatorA.applyTemplate template context
                /\ ServiceA.applyTemplate
                     (ServiceA.applyTemplate template context) context
                   = ServiceA.applyTemplate template context)
        [header t; source t]).
Proof.
  split; [|split].
  - intros template context H.
    unfold PairCreatorA.applyTemplate, Template.applyTemplate_or,
      Template.replace_placeholders in *.
    by apply replace_go_fixed with (prev := false).
  - intros template context H.
    unfold ServiceA.applyTemplate, Template.applyTemplate_nullish,
      Template.replace_placeholders in *.
    by apply replace_go_fixed with (prev := false).
  - intros fileName rule t Hid Hext Ht context.
    destruct (content_context_lookup fileName rule) as (HF & HG & HI).
    destruct (content_values_clean fileName rule Hid Hext) as (CF & CG & CI).
    destruct (identifier_word_chars _ Hid) as [_ Htruthy].
    set (f_or := fun (m k : string) =>
                   match context !! k with
                   | Some v => if JS.truthy v then v else m
                   | None => m
                   end).
    set (f_nu := fun (_ k : string) =>
                   match context !! k with Some v => v | None => EmptyString end).
    assert (Hor := builtin_text_clean f_or fileName (JS.toUpperCase fileName ++ "_H_")
                     ("#include " ++ JS.dquote ++ fileName ++ headerExt rule ++ JS.dquote)).
    assert (Hnu := builtin_text_clean f_nu fileName (JS.toUpperCase fileName ++ "_H_")
                     ("#include " ++ JS.dquote ++ fileName ++ headerExt rule ++ JS.dquote)).
    subst f_or f_nu context. cbv beta in Hor, Hnu.
    rewrite HF, HG, HI in Hor, Hnu.
    rewrite Htruthy, truthy_app_l in Hor by (by rewrite truthy_toUpperCase).
    specialize (Hor (fun _ => eq_refl) (fun _ => eq_refl) (fun _ => eq_refl) CF CG CI).
    specialize (Hnu (fun _ => eq_refl) (fun _ => eq_refl) (fun _ => eq_refl) CF CG CI).
    rewrite Forall_forall in Hor, Hnu.
    destruct (Hor t Ht) as [Ho1 Ho2]. destruct (Hnu t Ht) as [Hn1 Hn2].
    repeat apply Forall_cons_2; [..|apply Forall_nil_2]; split;
      unfold PairCreatorA.applyTemplate, ServiceA.applyTemplate,
        Template.applyTemplate_or, Template.applyTemplate_nullish,
        Template.replace_placeholders;
      by apply replace_go_fixed with (prev := false).
Qed.

Lemma applyTemplate_idempotent_on_generated_text_witness :
  let rule := mkRule "cpp_class" "$(symbol-class) C++ Class"
                "Creates a .h/.cpp pair with a boilerplate class definition."
                cpp ".h" ".cpp" (Some true) None in
  let context := content_context "Foo" rule in
  PairCreatorA.applyTemplate
    (PairCreatorA.applyTemplate (header FILE_TEMPLATES.CPP_CLASS) context) context
  = PairCreatorA.applyTemplate (header FILE_TEMPLATES.CPP_CLASS) context.
Proof.
  intros rule context.
  destruct applyTemplate_idempotent_on_generated_text as (_ & _ & H).
  specialize (H "Foo" rule FILE_TEMPLATES.CPP_CLASS eq_refl eq_refl).
  assert (Hin : FILE_TEMPLATES.CPP_CLASS ∈ FILE_TEMPLATES.all) by apply list_elem_of_here.
  specialize (H Hin). cbv zeta in H.
  apply Forall_cons_1 in H as [[H _] _]. exact H.
Defined.

(** C8, as stated, fails: with [fileName = "fileName"], a valid identifier,
    the template [{{{{fileName}}}}] becomes [{{fileName}}] after one
    substitution and [fileName] after two. *)
Lemma applyTemplate_not_idempotent :
  let rule := mkRule "cpp_empty" "$(new-file) Empty C++ Pair"
                "Creates a basic .h/.cpp file pair with header guards."
                cpp ".h" ".cpp" None None in
  let context := content_context "fileName" rule in
  IDENTIFIER_test "fileName" = true
  /\ PairCreatorA.applyTemplate (PairCreatorA.applyTemplate "{{{{fileName}}}}" context) context
     <> PairCreatorA.applyTemplate "{{{{fileName}}}}" context
  /\ ServiceA.applyTemplate
       (ServiceA.applyTemplate "{{{{fileName}}}}" context) context
     <> ServiceA.applyTemplate "{{{{fileName}}}}" context.
Proof. vm_compute. repeat split; discriminate. Qed.

(** ** Language detection *)

Ltac run_M :=
  repeat (progress (unfold mbind, mret, M_bind, M_ret, stat, get_world, throw; cbn)).

(** Settles the comparisons of a known string with literals. *)
Ltac string_cases :=
  repeat (first [case_decide | case_bool_decide]; try discriminate; try congruence);
  cbn [orb andb negb] in *.

Lemma fileExists_run p w :
  exists w',
    ServiceA.fileExists p w = (inr (ServiceA.observed w p), w')
    /\ files w' = files w /\ settings w' = settings w /\ trace w' = trace w
    /\ (forall q, ServiceA.observed w' q = ServiceA.observed w q).
Proof.
  unfold ServiceA.fileExists, ServiceA.observed.
  destruct (statCache w !! p) as [answer|] eqn:Hp.
  - by exists w.
  - eexists. split; [reflexivity|]. repeat split.
    intros q. cbn. destruct (decide (p = q)) as [->|Hne].
    + by rewrite lookup_insert_eq, Hp.
    + by rewrite lookup_insert_ne.
Qed.

Lemma observed_fresh w : statCache w = ∅ -> forall p, ServiceA.observed w p = exists_in w p.
Proof. intros Hc p. unfold ServiceA.observed. by rewrite Hc, lookup_empty. Qed.

(** The probe of the memoising service, run in a world [w]. *)
Lemma detectLanguageForHeaderFile_run h filePath w :
  exists w',
    ServiceA.detectLanguageForHeaderFile h filePath w
    = (inr (Some (companion_probe (ServiceA.observed w) (companion_of (path h) filePath))), w')
    /\ files w' = files w /\ settings w' = settings w /\ trace w' = trace w
    /\ (forall q, ServiceA.observed w' q = ServiceA.observed w q).
Proof.
  unfold ServiceA.detectLanguageForHeaderFile, companion_probe, companion_of.
  pose (sibling := fun ext => join (path h) (dirname (path h) filePath)
                                (basename (path h) filePath ".h" ++ ext)).
  destruct (fileExists_run (sibling ".c") w) as (w1 & E1 & F1 & S1 & T1 & O1).
  destruct (fileExists_run (sibling ".cpp") w1) as (w2 & E2 & F2 & S2 & T2 & O2).
  destruct (fileExists_run (sibling ".cc") w2) as (w3 & E3 & F3 & S3 & T3 & O3).
  destruct (fileExists_run (sibling ".cxx") w3) as (w4 & E4 & F4 & S4 & T4 & O4).
  assert (Hobs : forall q, ServiceA.observed w4 q = ServiceA.observed w q)
    by (intros q; by rewrite O4, O3, O2, O1).
  rewrite O3, O2, !O1 in E4. rewrite O2, !O1 in E3. rewrite O1 in E2.
  subst sibling. cbv beta in *.
  unfold mbind, M_bind at 1. rewrite E1.
  destruct (ServiceA.observed w _) eqn:Hc.
  { exists w1. done. }
  exists w4. split; [|repeat split; congruence].
  cbn [mapM]. unfold mbind, M_bind, mret, M_ret.
  rewrite E2, E3, E4. cbn [existsb id].
  repeat match goal with
         | |- context [ServiceA.observed w ?p] => destruct (ServiceA.observed w p)
         end; reflexivity.
Qed.

Lemma detectLanguage_A_header h w document :
  activeTextEditor h = Some document -> isUntitled document = false ->
  extname (path h) (fsPath document) = ".h" ->
  PairCreatorA.detectLanguage h w
  = (inr (companion_probe (exists_in w) (companion_of (path h) (fsPath document))), w).
Proof.
  intros Hdoc Hsaved Hext. unfold PairCreatorA.detectLanguage.
  rewrite Hdoc, Hsaved, Hext. string_cases.
  unfold companion_probe, companion_of. run_M.
  repeat match goal with |- context [exists_in w ?p] => destruct (exists_in w p) end;
    reflexivity.
Qed.

(** The probe reads existence at the four companions only. *)
Lemma companion_probe_ext (present present' : string -> bool) companion :
  (forall ext, ext ∈ [".c"; ".cpp"; ".cc"; ".cxx"] ->
     present (companion ext) = present' (companion ext)) ->
  companion_probe present companion = companion_probe present' companion.
Proof.
  intros H. unfold companion_probe.
  rewrite (H ".c"), (H ".cpp"), (H ".cc"), (H ".cxx");
    [reflexivity|rewrite !elem_of_cons; auto..].
Qed.

(** C1, as the code has it. For a saved active file whose extension is
    exactly [.h] the detector runs the companion-file probe on the
    same-directory, same-basename files: a [.c] companion that is present
    gives a certain C whatever other siblings exist, else a [.cpp], [.cc] or
    [.cxx] companion gives a certain C++, else the result is an uncertain
    C++.  For the first [PairCreator] present means existing in the file
    system.  The memoising service asks [fileExists]: present is existing in
    the file system for the companions without a cached answer, so whenever
    none of the four has one and in particular when the cache is empty; a
    cached answer wins over the file system. *)
Theorem detectLanguage_header_companion_probe :
  (forall h w document,
      activeTextEditor h = Some document -> isUntitled document = false ->
      extname (path h) (fsPath document) = ".h" ->
      PairCreatorA.detectLanguage h w
      = (inr (companion_probe (exists_in w) (companion_of (path h) (fsPath document))), w))
  /\ (forall h w document,
      activeTextEditor h = Some document -> isUntitled document = false ->
      extname (path h) (fsPath document) = ".h" ->
      exists w',
        ServiceA.detectLanguage h w
        = (inr (companion_probe (ServiceA.observed w)
                  (companion_of (path h) (fsPath document))), w')
        /\ files w' = files w /\ settings w' = settings w /\ trace w' = trace w
        /\ (forall p, ServiceA.observed w' p = ServiceA.observed w p))
  /\ (forall w, statCache w = ∅ -> forall p, ServiceA.observed w p = exists_in w p)
  /\ (forall h w document,
      activeTextEditor h = Some document -> isUntitled document = false ->
      extname (path h) (fsPath document) = ".h" ->
      (forall ext, ext ∈ [".c"; ".cpp"; ".cc"; ".cxx"] ->
         statCache w !! companion_of (path h) (fsPath document) ext = None) ->
      (ServiceA.detectLanguage h w).1
      = inr (companion_probe (exists_in w) (companion_of (path h) (fsPath document))))
  /\ (forall present companion,
      (present (companion ".c") = true ->
       companion_probe present companion = mkDetection c false)
      /\ (present (companion ".c") = false ->
          present (companion ".cpp") = true \/ present (companion ".cc") = true
          \/ present (companion ".cxx") = true ->
          companion_probe present companion = mkDetection cpp false)
      /\ (present (companion ".c") = false -> present (companion ".cpp") = false ->
          present (companion ".cc") = false -> present (companion ".cxx") = false ->
          companion_probe present companion = mkDetection cpp true)).
Proof.
  assert (Hservice : forall h w document,
             activeTextEditor h = Some document -> isUntitled document = false ->
             extname (path h) (fsPath document) = ".h" ->
             exists w',
               ServiceA.detectLanguage h w
               = (inr (companion_probe (ServiceA.observed w)
                         (companion_of (path h) (fsPath document))), w')
               /\ files w' = files w /\ settings w' = settings w /\ trace w' = trace w
               /\ (forall p, ServiceA.observed w' p = ServiceA.observed w p)).
  { intros h w document Hdoc Hsaved Hext.
    destruct (detectLanguageForHeaderFile_run h (fsPath document) w)
      as (w' & E & Hw').
    exists w'. split; [|exact Hw'].
    unfold ServiceA.detectLanguage. rewrite Hdoc, Hsaved, Hext.
    replace (ServiceA.has ServiceA.DEFINITIVE_EXTENSIONS_c ".h") with false by (by vm_compute).
    replace (ServiceA.has ServiceA.DEFINITIVE_EXTENSIONS_cpp ".h") with false by (by vm_compute).
    string_cases.
    unfold mbind, M_bind. by rewrite E. }
  split; [exact detectLanguage_A_header|split; [exact Hservice|split; [exact observed_fresh|split]]].
  - intros h w document Hdoc Hsaved Hext Hfresh.
    destruct (Hservice h w document Hdoc Hsaved Hext) as (w' & -> & _).
    cbn [fst]. f_equal. apply companion_probe_ext.
    intros ext Hin. unfold ServiceA.observed. by rewrite (Hfresh ext Hin).
  - intros present companion. unfold companion_probe. repeat split.
    + by intros ->.
    + intros -> [-> | [-> | ->]]; by rewrite ?orb_true_r.
    + by intros -> -> -> ->.
Qed.

Lemma detectLanguage_header_companion_probe_witness :
  let h := demo_host (Some (mkDocument "cpp" "/src/foo.h" false)) in
  let w := demo_world {[ "/src/foo.c" := "int x;"; "/src/foo.cpp" := "int y;" ]} in
  PairCreatorA.detectLanguage h w = (inr (mkDetection c false), w).
Proof.
  intros h w.
  rewrite (proj1 detectLanguage_header_companion_probe h w
             (mkDocument "cpp" "/src/foo.h" false) eq_refl eq_refl eq_refl).
  vm_compute. reflexivity.
Defined.

(** C1, as stated, fails on the memoising service: [foo.c] exists beside
    [foo.h], but a miss cached before it was created is still in the cache,
    and the detection of [foo.h] is an uncertain C++.  With the cache
    emptied the same call gives a certain C. *)
Lemma stale_cache_hides_companion :
  let h := demo_host (Some (mkDocument "cpp" "/src/foo.h" false)) in
  let w := mkWorld {[ "/src/foo.h" := "#pragma once"; "/src/foo.c" := "int x;" ]}
             (mkSettings None None) {[ "/src/foo.c" := false ]} [] in
  extname (path h) "/src/foo.h" = ".h"
  /\ companion_of (path h) "/src/foo.h" ".c" = "/src/foo.c"
  /\ exists_in w "/src/foo.c" = true
  /\ (ServiceA.detectLanguage h w).1 = inr (mkDetection cpp true)
  /\ (ServiceA.detectLanguage h (with_statCache ∅ w)).1 = inr (mkDetection c false).
Proof. vm_compute. split_and!; reflexivity. Qed.

(** C2. A path whose extension is exactly [.c] is detected as a certain C,
    and one whose extension is [.cpp], [.cc], [.cxx], [.hh], [.hpp] or [.hxx]
    as a certain C++. *)
Theorem detectLanguage_definitive_extensions h w document :
  activeTextEditor h = Some document -> isUntitled document = false ->
  (extname (path h) (fsPath document) = ".c" ->
   PairCreatorA.detectLanguage h w = (inr (mkDetection c false), w)
   /\ ServiceA.detectLanguage h w = (inr (mkDetection c false), w))
  /\ (extname (path h) (fsPath document) ∈ definitive_cpp ->
      PairCreatorA.detectLanguage h w = (inr (mkDetection cpp false), w)
      /\ ServiceA.detectLanguage h w = (inr (mkDetection cpp false), w)).
Proof.
  intros Hdoc Hsaved. split.
  - intros Hext. unfold PairCreatorA.detectLanguage, ServiceA.detectLanguage.
    rewrite Hdoc, Hsaved, Hext. split; [by string_cases|].
    by replace (ServiceA.has ServiceA.DEFINITIVE_EXTENSIONS_c ".c") with true by (by vm_compute).
  - intros Hext. unfold PairCreatorA.detectLanguage, ServiceA.detectLanguage.
    rewrite Hdoc, Hsaved.
    unfold definitive_cpp in Hext. rewrite !elem_of_cons, elem_of_nil in Hext.
    destruct Hext as [-> | [-> | [-> | [-> | [-> | [-> | []]]]]]].
    all: split; [by string_cases|].
    all: match goal with
         | |- context [ServiceA.has ServiceA.DEFINITIVE_EXTENSIONS_c ?e] =>
             replace (ServiceA.has ServiceA.DEFINITIVE_EXTENSIONS_c e) with false
               by (by vm_compute);
             replace (ServiceA.has ServiceA.DEFINITIVE_EXTENSIONS_cpp e) with true
               by (by vm_compute)
         end.
    all: reflexivity.
Qed.

Lemma detectLanguage_definitive_extensions_witness :
  let h := demo_host (Some (mkDocument "plaintext" "/src/widget.hpp" false)) in
  let w := demo_world ∅ in
  PairCreatorA.detectLanguage h w = (inr (mkDetection cpp false), w)
  /\ ServiceA.detectLanguage h w = (inr (mkDetection cpp false), w).
Proof.
  intros h w.
  apply (detectLanguage_definitive_extensions h w
           (mkDocument "plaintext" "/src/widget.hpp" false) eq_refl eq_refl).
  apply (bool_decide_unpack _). vm_compute. reflexivity.
Defined.

(** The probes always answer: the [null] that [detectLanguage] guards
    against is never returned, so a [.h] file never reaches the fallback. *)
Lemma detectLanguageForHeaderFile_B_answers ops filePath check w r w' :
  ServiceB.detectLanguageForHeaderFile ops filePath check w = (inr r, w') -> is_Some r.
Proof.
  unfold ServiceB.detectLanguageForHeaderFile.
  destruct check as [check|]; [|intros [= <- _]; eauto].
  unfold mbind, M_bind at 1.
  destruct (check _ w) as [[e|[]] w1]; [discriminate|intros [= <- _]; eauto|].
  unfold mbind, M_bind at 1.
  match goal with
  | |- context [mapM ?f ?l] =>
      set (m := mapM f l : World -> (string + list bool) * World)
  end.
  destruct (m w1) as [[e|results] w2]; [discriminate|].
  destruct (existsb id results); intros [= <- _]; eauto.
Qed.

(** The probe of the service with injected collaborators, given the
    existence check that the user interface passes. *)
Lemma detectLanguageForHeaderFile_B_run ops filePath w :
  exists w',
    ServiceB.detectLanguageForHeaderFile ops filePath (Some ServiceB.fileExists) w
    = (inr (Some (companion_probe (ServiceA.observed w) (companion_of ops filePath))), w')
    /\ files w' = files w /\ settings w' = settings w /\ trace w' = trace w
    /\ (forall q, ServiceA.observed w' q = ServiceA.observed w q).
Proof.
  unfold ServiceB.detectLanguageForHeaderFile, ServiceB.fileExists, companion_probe,
    companion_of.
  pose (sibling := fun ext => join ops (dirname ops filePath)
                                (basename ops filePath ".h" ++ ext)).
  destruct (fileExists_run (sibling ".c") w) as (w1 & E1 & F1 & S1 & T1 & O1).
  destruct (fileExists_run (sibling ".cpp") w1) as (w2 & E2 & F2 & S2 & T2 & O2).
  destruct (fileExists_run (sibling ".cc") w2) as (w3 & E3 & F3 & S3 & T3 & O3).
  destruct (fileExists_run (sibling ".cxx") w3) as (w4 & E4 & F4 & S4 & T4 & O4).
  assert (Hobs : forall q, ServiceA.observed w4 q = ServiceA.observed w q)
    by (intros q; by rewrite O4, O3, O2, O1).
  rewrite O3, O2, !O1 in E4. rewrite O2, !O1 in E3. rewrite O1 in E2.
  subst sibling. cbv beta in *.
  unfold mbind, M_bind at 1. rewrite E1.
  destruct (ServiceA.observed w _) eqn:Hc.
  { exists w1. done. }
  exists w4. split; [|repeat split; congruence].
  cbn [mapM]. unfold mbind, M_bind, mret, M_ret.
  rewrite E2, E3, E4. cbn [existsb id].
  repeat match goal with
         | |- context [ServiceA.observed w ?p] => destruct (ServiceA.observed w p)
         end; reflexivity.
Qed.

(** C3, as the code has it. Without a saved active document the result is an
    uncertain C++.  In the first [PairCreator], an extension that is neither
    definitive nor [.h] falls back to the language identifier: [c] gives an
    uncertain C, anything else an uncertain C++.  The service with injected
    collaborators trusts the identifier before it looks at [.h]: [c] gives a
    certain C and [cpp] or [cxx] a certain C++ for every extension that is not
    definitive.  Another identifier gives the uncertain C++ on an extension
    other than [.h]; on [.h] the companion probe decides, through the cached
    existence check that the user interface passes, and gives the uncertain
    C++ when no check is passed.  A [.h] file never reaches the fallback: the
    probe of the first [PairCreator] decides whatever the identifier is, and
    the probe of the service never returns [null]. *)
Theorem detectLanguage_fallback :
  (forall h w,
      (activeTextEditor h = None
       \/ exists document, activeTextEditor h = Some document /\ isUntitled document = true) ->
      PairCreatorA.detectLanguage h w = (inr (mkDetection cpp true), w))
  /\ (forall h w document,
      activeTextEditor h = Some document -> isUntitled document = false ->
      extname (path h) (fsPath document) <> ".c" ->
      extname (path h) (fsPath document) ∉ definitive_cpp ->
      extname (path h) (fsPath document) <> ".h" ->
      PairCreatorA.detectLanguage h w
      = (inr (mkDetection (if decide (languageId document = "c") then c else cpp) true), w))
  /\ (forall ops languageId' filePath check w,
      (languageId' = None \/ languageId' = Some "" \/ filePath = None \/ filePath = Some "") ->
      ServiceB.detectLanguage ops languageId' filePath check w
      = (inr (mkDetection cpp true), w))
  /\ (forall ops languageId' filePath check w,
      languageId' <> "" -> filePath <> "" ->
      extname ops filePath <> ".c" -> extname ops filePath ∉ definitive_cpp ->
      (languageId' = "c" ->
       ServiceB.detectLanguage ops (Some languageId') (Some filePath) check w
       = (inr (mkDetection c false), w))
      /\ (languageId' = "cpp" \/ languageId' = "cxx" ->
          ServiceB.detectLanguage ops (Some languageId') (Some filePath) check w
          = (inr (mkDetection cpp false), w))
      /\ (languageId' <> "c" -> languageId' <> "cpp" -> languageId' <> "cxx" ->
          extname ops filePath <> ".h" ->
          ServiceB.detectLanguage ops (Some languageId') (Some filePath) check w
          = (inr (mkDetection cpp true), w)))
  /\ (forall h w document,
      activeTextEditor h = Some document -> isUntitled document = false ->
      extname (path h) (fsPath document) = ".h" ->
      PairCreatorA.detectLanguage h w
      = (inr (companion_probe (exists_in w) (companion_of (path h) (fsPath document))), w))
  /\ (forall ops filePath check w r w',
      ServiceB.detectLanguageForHeaderFile ops filePath check w = (inr r, w') -> is_Some r)
  /\ (forall ops languageId' filePath w,
      languageId' <> "" -> filePath <> "" ->
      languageId' <> "c" -> languageId' <> "cpp" -> languageId' <> "cxx" ->
      extname ops filePath = ".h" ->
      ServiceB.detectLanguage ops (Some languageId') (Some filePath) None w
      = (inr (mkDetection cpp true), w)
      /\ exists w',
          ServiceB.detectLanguage ops (Some languageId') (Some filePath)
            (Some ServiceB.fileExists) w
          = (inr (companion_probe (ServiceA.observed w) (companion_of ops filePath)), w')
          /\ files w' = files w /\ settings w' = settings w /\ trace w' = trace w).
Proof.
  split; [|split; [|split; [|split; [|split; [|split]]]]];
    [| | | |exact detectLanguage_A_header|exact detectLanguageForHeaderFile_B_answers|].
  - intros h w [Hnone | (document & Hdoc & Huntitled)];
      unfold PairCreatorA.detectLanguage.
    + by rewrite Hnone.
    + by rewrite Hdoc, Huntitled.
  - intros h w document Hdoc Hsaved Hc Hcpp Hh.
    unfold PairCreatorA.detectLanguage. rewrite Hdoc, Hsaved.
    unfold definitive_cpp in Hcpp. rewrite !not_elem_of_cons in Hcpp.
    destruct Hcpp as (? & ? & ? & ? & ? & ? & _).
    repeat (first [case_decide | case_bool_decide]; try congruence); reflexivity.
  - intros ops languageId' filePath check w H. unfold ServiceB.detectLanguage.
    destruct H as [-> | [-> | [-> | ->]]]; try reflexivity.
    + by destruct filePath.
    + by destruct languageId'.
    + destruct languageId' as [l|]; [|reflexivity]. by rewrite orb_true_r.
  - intros ops languageId' filePath check w Hl Hp Hc Hcpp.
    assert (Htl : JS.truthy languageId' = true) by (by destruct languageId').
    assert (Htp : JS.truthy filePath = true) by (by destruct filePath).
    assert (Hdc : ServiceB.has ServiceB.DEFINITIVE_EXTENSIONS_c (extname ops filePath) = false).
    { apply bool_decide_eq_false_2. unfold ServiceB.DEFINITIVE_EXTENSIONS_c.
      rewrite list_elem_of_singleton. exact Hc. }
    assert (Hdcpp : ServiceB.has ServiceB.DEFINITIVE_EXTENSIONS_cpp (extname ops filePath) = false).
    { apply bool_decide_eq_false_2. exact Hcpp. }
    unfold ServiceB.detectLanguage. rewrite Htl, Htp, Hdc, Hdcpp. cbn [negb orb].
    repeat split.
    + intros ->. by string_cases.
    + intros [-> | ->]; by string_cases.
    + intros H1 H2 H3 H4. unfold ServiceB.fallback.
      repeat (first [case_decide | case_bool_decide]; try congruence); reflexivity.
  - intros ops languageId' filePath w Hl Hp H1 H2 H3 Hext.
    assert (Htl : JS.truthy languageId' = true) by (by destruct languageId').
    assert (Htp : JS.truthy filePath = true) by (by destruct filePath).
    assert (Hrun : forall check,
               ServiceB.detectLanguage ops (Some languageId') (Some filePath) check w
               = (result ← ServiceB.detectLanguageForHeaderFile ops filePath check;
                  match result with
                  | Some r => mret r
                  | None => mret (ServiceB.fallback languageId')
                  end) w).
    { intros check. unfold ServiceB.detectLanguage. rewrite Htl, Htp, Hext. cbn [negb orb].
      replace (ServiceB.has ServiceB.DEFINITIVE_EXTENSIONS_c ".h") with false
        by (by vm_compute).
      replace (ServiceB.has ServiceB.DEFINITIVE_EXTENSIONS_cpp ".h") with false
        by (by vm_compute).
      rewrite decide_False by done.
      rewrite !bool_decide_eq_false_2 by done. cbn [orb].
      by rewrite decide_True. }
    split; [by rewrite Hrun|].
    destruct (detectLanguageForHeaderFile_B_run ops filePath w) as (w' & E & F & S & T & _).
    exists w'. split; [|done].
    rewrite Hrun. unfold mbind, M_bind. by rewrite E.
Qed.

Lemma detectLanguage_fallback_witness :
  let h := demo_host (Some (mkDocument "c" "/src/notes.txt" false)) in
  let w := demo_world ∅ in
  PairCreatorA.detectLanguage h w = (inr (mkDetection c true), w).
Proof.
  intros h w.
  destruct detectLanguage_fallback as (_ & H & _).
  apply (H h w (mkDocument "c" "/src/notes.txt" false) eq_refl eq_refl).
  - vm_compute. discriminate.
  - apply (bool_decide_unpack _). vm_compute. reflexivity.
  - vm_compute. discriminate.
Defined.

(** C3, as stated, fails on the service with injected collaborators: for a
    text file that the editor reports as C the detection is certain. *)
Lemma detectLanguage_language_id_is_trusted :
  let h := demo_host (Some (mkDocument "c" "/src/notes.txt" false)) in
  let w := demo_world ∅ in
  Posix.extname "/src/notes.txt" = ".txt"
  /\ ServiceB.ui_detectLanguage h w = (inr (mkDetection c false), w)
  /\ ServiceB.ui_detectLanguage h w <> (inr (mkDetection c true), w).
Proof. vm_compute. repeat split. discriminate. Qed.

(** ** Saving rules *)

Section RuleServiceFacts.
Import PairingRuleServiceNs.
Context (stringify : StoredRule -> string) (updateError : Scope -> option string).

Lemma validateRule_ok rule : validateRule stringify rule = inr tt <-> valid rule.
Proof.
  unfold validateRule, valid.
  destruct (missing (key rule)), (missing (language rule)), (missing (headerExt rule)),
    (missing (sourceExt rule)); cbn; split; try done; intros (? & ? & ? & ?); done.
Qed.

Lemma forEach_validateRule_ok rules :
  forEach_validateRule stringify rules = inr tt <-> Forall valid rules.
Proof.
  induction rules as [|rule rest IH]; cbn.
  - split; [constructor|done].
  - destruct (validateRule stringify rule) as [e|[]] eqn:Hv.
    + split; [done|]. intros [Hr _]%Forall_cons_1.
      apply validateRule_ok in Hr. congruence.
    + rewrite IH. split.
      * intros Hrest. constructor; [by apply validateRule_ok|done].
      * by intros [_ Hrest]%Forall_cons_1.
Qed.

(** The first rule that fails is the one the error names. *)
Lemma forEach_validateRule_fails rules :
  ~ Forall valid rules ->
  exists passed rule rest,
    rules = (passed ++ rule :: rest)%list /\ Forall valid passed /\ ~ valid rule
    /\ forEach_validateRule stringify rules = inl ("Invalid rule: " ++ stringify rule).
Proof.
  induction rules as [|rule rest IH]; intros Hbad.
  - destruct Hbad. constructor.
  - destruct (validateRule stringify rule) as [e|[]] eqn:Hv.
    + exists [], rule, rest. repeat split; [constructor| |].
      * intros Hr. apply validateRule_ok in Hr. congruence.
      * cbn. rewrite Hv. unfold validateRule in Hv.
        destruct (_ || _); congruence.
    + apply validateRule_ok in Hv as Hr.
      destruct IH as (passed & bad & rest' & -> & Hp & Hb & E).
      { intros Hrest. apply Hbad. by constructor. }
      exists (rule :: passed), bad, rest'. repeat split; [by constructor|done|].
      cbn. by rewrite Hv.
Qed.

End RuleServiceFacts.

(** C10. [writeRules] of the [PairingRuleService] namespace validates every
    rule before it touches the settings: when a rule lacks a key, language,
    headerExt or sourceExt the call throws, names the first such rule, and
    leaves both scopes as they were without an update being attempted; the
    update is attempted, once and with the whole array, exactly when all rules
    pass. *)
Theorem writeRules_validates_before_update stringify updateError rules scope cfg :
  let '(result, cfg') :=
    PairingRuleServiceNs.writeRules stringify updateError rules scope cfg in
  (~ Forall PairingRuleServiceNs.valid rules ->
   (exists passed rule rest,
       rules = (passed ++ rule :: rest)%list
       /\ Forall PairingRuleServiceNs.valid passed /\ ~ PairingRuleServiceNs.valid rule
       /\ result = inl ("Invalid rule: " ++ stringify rule))
   /\ PairingRuleServiceNs.workspaceValue cfg' = PairingRuleServiceNs.workspaceValue cfg
   /\ PairingRuleServiceNs.globalValue cfg' = PairingRuleServiceNs.globalValue cfg
   /\ PairingRuleServiceNs.updates cfg' = PairingRuleServiceNs.updates cfg)
  /\ (Forall PairingRuleServiceNs.valid rules ->
      PairingRuleServiceNs.updates cfg'
      = (PairingRuleServiceNs.updates cfg ++ [(scope, Some rules)])%list)
  /\ (PairingRuleServiceNs.updates cfg' <> PairingRuleServiceNs.updates cfg ->
      Forall PairingRuleServiceNs.valid rules).
Proof.
  unfold PairingRuleServiceNs.writeRules.
  destruct (PairingRuleServiceNs.forEach_validateRule stringify rules) as [e|[]] eqn:Hv.
  - assert (Hbad : ~ Forall PairingRuleServiceNs.valid rules).
    { intros Hall. apply (forEach_validateRule_ok stringify) in Hall. congruence. }
    cbn. repeat split; try done.
    destruct (forEach_validateRule_fails stringify rules Hbad)
      as (passed & rule & rest & -> & Hp & Hb & E).
    exists passed, rule, rest. repeat split; try done. congruence.
  - apply forEach_validateRule_ok in Hv.
    unfold PairingRuleServiceNs.update.
    destruct (updateError scope) as [e|]; cbn; [|destruct scope; cbn]; repeat split; done.
Qed.

Lemma writeRules_validates_before_update_witness :
  let good := PairingRuleServiceNs.mkStoredRule (Some "custom_cpp_0") "C++ Pair" "Creates a pair"
                (Some "cpp") (Some ".hh") (Some ".cc") None None in
  let bad := PairingRuleServiceNs.mkStoredRule (Some "broken") "Broken" "No extensions"
               (Some "cpp") None (Some ".cc") None None in
  let cfg := PairingRuleServiceNs.mkConfig (Some [good]) None [] [] in
  PairingRuleServiceNs.updates
    (PairingRuleServiceNs.writeRules (fun _ => "{...}") (fun _ => None) [good; bad] workspace cfg).2
  = [].
Proof.
  intros good bad cfg.
  pose proof (writeRules_validates_before_update (fun _ => "{...}") (fun _ => None)
                [good; bad] workspace cfg) as H.
  destruct (PairingRuleServiceNs.writeRules _ _ _ _ _) as [result cfg'].
  destruct H as [H _]. apply H.
  intros Hall. apply Forall_cons_1 in Hall as [_ Hall].
  apply Forall_cons_1 in Hall as [(_ & _ & Hbad & _) _]. discriminate Hbad.
Defined.

(** ** The wizard's flow *)


Section Calm.
Context (u : User).

Lemma calm_ret {A} (C : A -> Prop) (x : A) : calm u C (mret x).
Proof.
  intros w. exists x, w, []. repeat split; try done.
  - by rewrite app_nil_r.
  - intros (e & He & _). by apply elem_of_nil in He.
Qed.

Lemma calm_weaken {A} (C D : A -> Prop) (m : M A) :
  calm u C m -> (forall x, C x -> D x) -> calm u D m.
Proof.
  intros Hm HCD w. destruct (Hm w) as (x & w' & evs & E & F & S & T & HC).
  exists x, w', evs. repeat split; auto.
Qed.

Lemma calm_bind {A B} (C : A -> Prop) (D : B -> Prop) (m : M A) (k : A -> M B) :
  calm u C m ->
  (forall x, calm u D (k x)) ->
  (forall x, C x -> always D (k x)) ->
  calm u D (m ≫= k).
Proof.
  intros Hm Hk HC w.
  destruct (Hm w) as (x & w1 & e1 & E1 & F1 & S1 & T1 & C1).
  destruct (Hk x w1) as (y & w2 & e2 & E2 & F2 & S2 & T2 & C2).
  exists y, w2, (e1 ++ e2)%list. unfold mbind, M_bind. rewrite E1.
  repeat split; try congruence.
  - by rewrite T2, T1, app_assoc.
  - intros (e & He & Hd). apply elem_of_app in He as [He | He].
    + eapply HC; [apply C1; eauto | exact E2].
    + apply C2. eauto.
Qed.

Lemma calm_emit_bind {B} (D : B -> Prop) (e : Event) (k : M B) :
  calm u D k ->
  (dismissed u e -> always D k) ->
  calm u D (emit e ≫= fun _ => k).
Proof.
  intros Hk Hd w.
  destruct (Hk (with_trace (trace w ++ [e]) w)) as (y & w2 & e2 & E2 & F2 & S2 & T2 & C2).
  exists y, w2, (e :: e2). unfold mbind, M_bind, emit. rewrite E2.
  repeat split; try done.
  - rewrite T2. cbn. by rewrite <- app_assoc.
  - intros (e' & He' & Hd'). apply elem_of_cons in He' as [-> | He'].
    + eapply Hd; [exact Hd' | exact E2].
    + apply C2. eauto.
Qed.

Lemma calm_emit (e : Event) : ~ dismissed u e -> calm u (fun _ : unit => False) (emit e).
Proof.
  intros Hnd w. exists tt, (with_trace (trace w ++ [e]) w), [e]. repeat split.
  intros (e' & He' & Hd'). apply list_elem_of_singleton in He' as ->. done.
Qed.

Lemma calm_get_world : calm u (fun _ => False) get_world.
Proof.
  intros w. exists w, w, []. repeat split; [by rewrite app_nil_r|].
  intros (e & He & _). by apply elem_of_nil in He.
Qed.

Lemma calm_stat p : calm u (fun _ => False) (stat p).
Proof.
  intros w. exists (exists_in w p), w, []. repeat split; [by rewrite app_nil_r|].
  intros (e & He & _). by apply elem_of_nil in He.
Qed.

Lemma always_ret {A} (C : A -> Prop) (x : A) : C x -> always C (mret x).
Proof. intros HC w y w' [= <- _]. exact HC. Qed.

Lemma always_bind {A B} (D : B -> Prop) (m : M A) (k : A -> M B) :
  (forall x, always D (k x)) -> always D (m ≫= k).
Proof.
  intros Hk w y w'. unfold mbind, M_bind.
  destruct (m w) as [[e|x] w1]; [discriminate|]. apply Hk.
Qed.

Lemma calm_mapM {A B} (f : A -> M B) (l : list A) :
  (forall x, calm u (fun _ => False) (f x)) -> calm u (fun _ => False) (mapM f l).
Proof.
  intros Hf. induction l as [|x l IH]; cbn [mapM]; [apply calm_ret|].
  eapply calm_bind; [apply Hf| |done].
  intros y. eapply calm_bind; [apply IH| |done].
  intros k. apply calm_ret.
Qed.

End Calm.

Section FlowA.
Import PairCreatorA.
Context (h : Host) (u : User).

Lemma getRules_calm scope : calm u (fun _ => False) (getRules scope).
Proof.
  unfold getRules. eapply calm_bind; [apply calm_get_world| |done].
  intros w. apply calm_ret.
Qed.

Lemma getTargetDirectory_calm : calm u (fun r => r = None) (getTargetDirectory h u).
Proof.
  unfold getTargetDirectory.
  assert (Hws : calm u (fun r => r = None)
                  match workspaceFolders h with
                  | Some [folder] => mret (Some folder)
                  | Some (f1 :: f2 :: fs) =>
                      _ ← emit WorkspaceFolderPick;
                      mret (pick (f1 :: f2 :: fs) (folderChoice u))
                  | _ => mret None
                  end).
  { destruct (workspaceFolders h) as [[|f1 [|f2 fs]]|]; try apply calm_ret.
    apply calm_emit_bind; [apply calm_ret|].
    intros Hd. apply always_ret. cbn in Hd. by rewrite Hd. }
  destruct (activeTextEditor h) as [document|]; [|exact Hws].
  destruct (isUntitled document); cbn; [exact Hws|apply calm_ret].
Qed.

Lemma detectLanguage_calm : calm u (fun _ => False) (detectLanguage h).
Proof.
  unfold detectLanguage.
  destruct (activeTextEditor h) as [document|]; [|apply calm_ret].
  destruct (isUntitled document); [apply calm_ret|].
  repeat (first [case_decide | case_match]; try apply calm_ret).
  eapply calm_bind; [apply calm_mapM; intros; apply calm_stat| |done].
  intros results. repeat (case_match; try apply calm_ret).
Qed.

Lemma promptForFileName_calm rule :
  calm u (fun r => r = None) (promptForFileName u rule).
Proof.
  unfold promptForFileName. apply calm_emit_bind; [apply calm_ret|].
  intros Hd. apply always_ret. cbn in Hd. by rewrite Hd.
Qed.


Lemma selectFromCustomRules_calm rules language' :
  calm u (fun r => r = None) (selectFromCustomRules u rules language').
Proof.
  unfold selectFromCustomRules. apply calm_emit_bind; [apply calm_ret|].
  intros Hd. apply always_ret. cbn in Hd. by rewrite Hd.
Qed.

Lemma offerToCreateCustomRules_calm language' :
  calm u (fun r => r = None) (offerToCreateCustomRules u language').
Proof.
  unfold offerToCreateCustomRules. apply calm_emit_bind; [apply calm_ret|].
  intros Hd. apply always_ret. cbn in Hd. by rewrite Hd.
Qed.

(** Saving a rule touches the settings only. *)
Lemma saveCustomRule_calm rule :
  calm u (fun r => r = None) (saveCustomRule h u rule).
Proof.
  unfold saveCustomRule. apply calm_emit_bind.
  - destruct (pick [workspace; user] (saveLocationChoice u)) as [saveLocation|];
      [|apply calm_ret].
    intros w. unfold try_catch, getRules, writeRules, update, get_world, emit.
    unfold mbind, M_bind, mret, M_ret. cbn.
    destruct (updateError h saveLocation) as [message|]; cbn.
    + eexists None, _, [ConfigUpdate saveLocation _; ErrorMessage _].
      repeat split; try done; by rewrite <- app_assoc.
    + eexists (Some rule), _, [ConfigUpdate saveLocation _; InformationMessage _].
      split; [reflexivity|]. repeat split; try done; try (by rewrite <- app_assoc).
      intros (e & He & Hd). rewrite !elem_of_cons, elem_of_nil in He.
      destruct He as [-> | [-> | []]]; destruct Hd.
  - intros Hd. cbn in Hd. rewrite Hd. cbn. by apply always_ret.
Qed.

Lemma createCustomRules_calm language' :
  calm u (fun r => r = None) (createCustomRules h u language').
Proof.
  unfold createCustomRules. apply calm_emit_bind.
  - destruct (pick _ (extensionChoice u)) as [selectedExtension|]; [|apply calm_ret].
    destruct (_ || _); [|apply saveCustomRule_calm].
    apply calm_emit_bind.
    + destruct (inputBox validateExt (headerExtText u)) as [inputHeaderExt|];
        [|apply calm_ret].
      destruct (negb _); [apply calm_ret|].
      apply calm_emit_bind.
      * destruct (inputBox validateExt (sourceExtText u)) as [inputSourceExt|];
          [|apply calm_ret].
        destruct (negb _); [apply calm_ret|apply saveCustomRule_calm].
      * intros Hd. cbn in Hd. rewrite Hd. cbn. by apply always_ret.
    + intros Hd. cbn in Hd. rewrite Hd. cbn. by apply always_ret.
  - intros Hd. cbn in Hd. rewrite Hd. cbn. by apply always_ret.
Qed.

Lemma checkAndOfferCustomRules_calm language' uncertain' :
  calm u (fun r => r = Cancelled) (checkAndOfferCustomRules h u language' uncertain').
Proof.
  unfold checkAndOfferCustomRules.
  eapply calm_bind; [apply getRules_calm| |done]. intros workspaceRules.
  eapply calm_bind; [apply getRules_calm| |done]. intros globalRules.
  destruct (0 <? _)%nat.
  - eapply calm_bind; [apply selectFromCustomRules_calm| |].
    + intros [[r|]|]; apply calm_ret.
    + intros x ->. by apply always_ret.
  - destruct uncertain'; cbn [negb]; [apply calm_ret|].
    eapply calm_bind; [apply offerToCreateCustomRules_calm| |].
    + intros [[|]|]; try apply calm_ret.
      eapply calm_bind; [apply createCustomRules_calm| |].
      * intros [r|]; apply calm_ret.
      * intros x ->. by apply always_ret.
    + intros x ->. by apply always_ret.
Qed.

Lemma promptForPairingRule_calm language' uncertain' :
  calm u (fun r => r = None) (promptForPairingRule h u language' uncertain').
Proof.
  unfold promptForPairingRule.
  eapply calm_bind; [apply checkAndOfferCustomRules_calm| |].
  - intros [r| | |]; try apply calm_ret.
    all: apply calm_emit_bind; [apply calm_ret|].
    all: intros Hd; cbn in Hd; rewrite Hd; cbn; by apply always_ret.
  - intros x ->. by apply always_ret.
Qed.

(** Until the target paths are computed nothing throws, no file changes,
    and a dismissed dialog ends the flow. *)
Lemma gatherInputs_calm : calm u (fun r => r = None) (gatherInputs h u).
Proof.
  unfold gatherInputs.
  eapply calm_bind; [apply getTargetDirectory_calm| |].
  - intros [targetDirectory|].
    + eapply calm_bind; [apply detectLanguage_calm| |done]. intros detection.
      eapply calm_bind; [apply promptForPairingRule_calm| |].
      * intros [rule|]; [|apply calm_ret].
        eapply calm_bind; [apply promptForFileName_calm| |].
        -- intros [fileName|]; [|apply calm_ret]. destruct (negb _); apply calm_ret.
        -- intros x ->. by apply always_ret.
      * intros x ->. by apply always_ret.
    + apply calm_emit_bind; [apply calm_ret|]. intros [].
  - intros x ->. apply always_bind. intros []. by apply always_ret.
Qed.

End FlowA.

Section CreateA.
Import PairCreatorA.
Context (h : Host) (u : User).

(** [create] once the inputs are known. *)
Lemma create_after_inputs w targetDirectory rule fileName w1 :
  gatherInputs h u w = (inr (Some (targetDirectory, rule, fileName)), w1) ->
  create h u w
  = match createFiles h targetDirectory rule fileName w1 with
    | (inr x, w2) => (inr x, w2)
    | (inl message, w2) => emit (ErrorMessage (error_text message)) w2
    end.
Proof.
  intros Hg. unfold create, try_catch. unfold mbind, M_bind at 1. rewrite Hg. reflexivity.
Qed.

Lemma create_without_inputs w w1 :
  gatherInputs h u w = (inr None, w1) -> create h u w = (inr tt, w1).
Proof.
  intros Hg. unfold create, try_catch. unfold mbind, M_bind at 1. rewrite Hg. reflexivity.
Qed.

Lemma checkFileExistence_run headerPath sourcePath w :
  checkFileExistence headerPath sourcePath w
  = (inr (if exists_in w headerPath then Some headerPath
          else if exists_in w sourcePath then Some sourcePath else None), w).
Proof.
  unfold checkFileExistence, stat, mbind, M_bind, mret, M_ret.
  destruct (exists_in w headerPath); [reflexivity|].
  destruct (exists_in w sourcePath); reflexivity.
Qed.

Lemma createFiles_existing targetDirectory rule fileName w :
  let headerPath := headerPathOf h targetDirectory fileName rule in
  let sourcePath := sourcePathOf h targetDirectory fileName rule in
  headerPath <> "" -> sourcePath <> "" ->
  exists_in w headerPath = true \/ exists_in w sourcePath = true ->
  let p := if exists_in w headerPath then headerPath else sourcePath in
  exists_in w p = true
  /\ createFiles h targetDirectory rule fileName w
     = (inr tt, with_trace (trace w ++ [ErrorMessage ("File already exists: " ++ p)]) w).
Proof.
  intros headerPath sourcePath Hh Hs Hex p. subst p.
  unfold createFiles. fold headerPath sourcePath.
  unfold mbind, M_bind at 1. rewrite checkFileExistence_run.
  destruct (exists_in w headerPath) eqn:Eh.
  - split; [done|]. destruct headerPath; [done|reflexivity].
  - destruct Hex as [?|Es]; [done|]. rewrite Es.
    split; [done|]. destruct sourcePath; [done|reflexivity].
Qed.

(** The write step: both writes are attempted, whatever the first does. *)
Lemma createFiles_absent targetDirectory rule fileName w :
  let headerPath := headerPathOf h targetDirectory fileName rule in
  let sourcePath := sourcePathOf h targetDirectory fileName rule in
  let contents := generateFileContent fileName (getLineEnding h) rule in
  exists_in w headerPath = false -> exists_in w sourcePath = false ->
  let w2 := (createFiles h targetDirectory rule fileName w).2 in
  (forall p, p <> headerPath -> p <> sourcePath -> files w2 !! p = files w !! p)
  /\ (writeError h headerPath = None -> writeError h sourcePath = None ->
      (createFiles h targetDirectory rule fileName w).1 = inr tt
      /\ files w2 = <[sourcePath := contents.2]> (<[headerPath := contents.1]> (files w))).
Proof.
  intros headerPath sourcePath contents Eh Es.
  assert (Hrun : createFiles h targetDirectory rule fileName w
                 = (_ ← writeFiles h headerPath sourcePath contents.1 contents.2;
                    finalizeCreation h headerPath sourcePath) w).
  { unfold createFiles. fold headerPath sourcePath.
    unfold mbind, M_bind at 1. rewrite checkFileExistence_run, Eh, Es.
    fold contents. by destruct contents. }
  rewrite Hrun. clear Hrun.
  unfold writeFiles, try_catch, all2, writeFile, finalizeCreation, emit, throw,
    mbind, M_bind, mret, M_ret.
  destruct (writeError h headerPath) as [e1|], (writeError h sourcePath) as [e2|]; cbn.
  all: split; [intros p Hp1 Hp2; by rewrite ?lookup_insert_ne by done|].
  all: try (intros; discriminate).
  intros _ _. done.
Qed.

End CreateA.

(** C4, as the code has it. If either computed target path exists before the
    write step, no file is written and the error names the existing path:
    the header when it exists, whether or not the source does, else the
    source.  If
    both are absent, the write step touches those two paths only and, when the
    host accepts the writes, creates exactly them.  Any prompt the user
    dismisses ends the flow before the write step, with no file written; a
    custom rule saved earlier in the same run stays in the settings. *)
Theorem create_writes_only_absent_targets :
  (forall h u w targetDirectory rule fileName w1,
      PairCreatorA.gatherInputs h u w = (inr (Some (targetDirectory, rule, fileName)), w1) ->
      let headerPath := PairCreatorA.headerPathOf h targetDirectory fileName rule in
      let sourcePath := PairCreatorA.sourcePathOf h targetDirectory fileName rule in
      headerPath <> "" -> sourcePath <> "" ->
      exists_in w1 headerPath = true \/ exists_in w1 sourcePath = true ->
      let p := if exists_in w1 headerPath then headerPath else sourcePath in
      (p = headerPath \/ p = sourcePath) /\ exists_in w1 p = true
      /\ PairCreatorA.create h u w
         = (inr tt, with_trace (trace w1 ++ [ErrorMessage ("File already exists: " ++ p)]) w1)
      /\ files (PairCreatorA.create h u w).2 = files w)
  /\ (forall h u w targetDirectory rule fileName w1,
      PairCreatorA.gatherInputs h u w = (inr (Some (targetDirectory, rule, fileName)), w1) ->
      let headerPath := PairCreatorA.headerPathOf h targetDirectory fileName rule in
      let sourcePath := PairCreatorA.sourcePathOf h targetDirectory fileName rule in
      let contents :=
        PairCreatorA.generateFileContent fileName (PairCreatorA.getLineEnding h) rule in
      exists_in w1 headerPath = false -> exists_in w1 sourcePath = false ->
      let w' := (PairCreatorA.create h u w).2 in
      (forall p, p <> headerPath -> p <> sourcePath -> files w' !! p = files w !! p)
      /\ (writeError h headerPath = None -> writeError h sourcePath = None ->
          files w' = <[sourcePath := contents.2]> (<[headerPath := contents.1]> (files w))
          /\ dom (files w') = dom (files w) ∪ {[headerPath; sourcePath]}))
  /\ (forall h u w,
      exists inputs w1 evs,
        PairCreatorA.gatherInputs h u w = (inr inputs, w1)
        /\ files w1 = files w /\ trace w1 = (trace w ++ evs)%list
        /\ ((exists e, e ∈ evs /\ dismissed u e) ->
            inputs = None /\ PairCreatorA.create h u w = (inr tt, w1)
            /\ files (PairCreatorA.create h u w).2 = files w)).
Proof.
  split; [|split].
  - intros h u w targetDirectory rule fileName w1 Hg headerPath sourcePath Hh Hs Hex p.
    destruct (gatherInputs_calm h u w) as (x & w1' & evs & E & F & _ & _ & _).
    rewrite Hg in E. injection E as <- <-.
    destruct (createFiles_existing h targetDirectory rule fileName w1 Hh Hs Hex)
      as (Hpe & Hc).
    rewrite (create_after_inputs h u w _ _ _ _ Hg), Hc.
    split_and!; try done.
    subst p. destruct (exists_in w1 headerPath); auto.
  - intros h u w targetDirectory rule fileName w1 Hg headerPath sourcePath contents Eh Es w'.
    destruct (gatherInputs_calm h u w) as (x & w1' & evs & E & F & _ & _ & _).
    rewrite Hg in E. injection E as <- <-.
    destruct (createFiles_absent h targetDirectory rule fileName w1 Eh Es) as [Hother Hboth].
    subst w'. rewrite (create_after_inputs h u w _ _ _ _ Hg).
    destruct (PairCreatorA.createFiles h targetDirectory rule fileName w1) as [[e|[]] w2];
      cbn [snd fst] in *.
    + split; [intros p H1 H2; rewrite <- F; by apply Hother|].
      intros W1 W2. by destruct (Hboth W1 W2).
    + split; [intros p H1 H2; rewrite <- F; by apply Hother|].
      intros W1 W2. destruct (Hboth W1 W2) as [_ ->]. rewrite F. split; [done|].
      rewrite !dom_insert_L. apply set_eq. intros q.
      rewrite !elem_of_union, !elem_of_singleton. tauto.
  - intros h u w.
    destruct (gatherInputs_calm h u w) as (x & w1 & evs & E & F & _ & T & HC).
    exists x, w1, evs. repeat split; try done.
    + by apply HC.
    + rewrite (HC H) in E. by apply create_without_inputs.
    + rewrite (HC H) in E. by rewrite (create_without_inputs h u w w1 E).
Qed.

Lemma create_writes_only_absent_targets_witness :
  let h := demo_host (Some (mkDocument "cpp" "/src/main.cpp" false)) in
  let w := demo_world {[ "/src/main.cpp" := "int main() {}"; "/src/Foo.h" := "#pragma once";
                         "/src/Foo.cpp" := "// old" ]} in
  files (PairCreatorA.create h demo_user w).2 = files w
  /\ last (trace (PairCreatorA.create h demo_user w).2)
     = Some (ErrorMessage "File already exists: /src/Foo.h").
Proof.
  intros h w.
  pose (w1 := (PairCreatorA.gatherInputs h demo_user w).2).
  destruct (proj1 create_writes_only_absent_targets h demo_user w "/src" cpp_class_rule "Foo" w1)
    as (_ & _ & E & H).
  - vm_compute. reflexivity.
  - vm_compute. discriminate.
  - vm_compute. discriminate.
  - left. vm_compute. reflexivity.
  - split; [exact H|]. rewrite E. cbn [snd trace with_trace]. rewrite last_snoc.
    vm_compute. reflexivity.
Defined.

Example create_pair_on_free_paths :
  let h := demo_host (Some (mkDocument "cpp" "/src/main.cpp" false)) in
  let w := demo_world {[ "/src/main.cpp" := "int main() {}" ]} in
  dom (files (PairCreatorA.create h demo_user w).2)
  = {[ "/src/main.cpp"; "/src/Foo.h"; "/src/Foo.cpp" ]}.
Proof. apply (bool_decide_unpack _). vm_compute. reflexivity. Qed.

(** C4, as stated, fails in its last clause: the user saves a custom rule and
    then dismisses the name prompt; the flow ends without a pair, but the rule
    has been written to the user settings. *)
Lemma create_dismissed_after_saving_rule :
  let h := demo_host (Some (mkDocument "cpp" "/src/main.cpp" false)) in
  let w := demo_world {[ "/src/main.cpp" := "int main() {}" ]} in
  let w' := (PairCreatorA.create h saving_user w).2 in
  let prompt := FileNameInput "Please enter the base name for the new CPP file pair." in
  let saved := PairCreatorA.customRule h cpp ".hh" ".cc" in
  prompt ∈ trace w' /\ dismissed saving_user prompt
  /\ ConfigUpdate user (Some [saved]) ∈ trace w'
  /\ globalValue (settings w) = None
  /\ globalValue (settings w') = Some [saved]
  /\ files w' = files w.
Proof.
  intros h w w' prompt saved.
  assert (Ht : trace w'
               = [ OfferCustomRules (PairCreatorA.offer_message cpp)
                     ["Create Custom Rules"; "Use Defaults"];
                   ExtensionPick; SaveLocationPick;
                   ConfigUpdate user (Some [saved]);
                   InformationMessage "Custom pairing rule saved to global settings.";
                   prompt ]) by (vm_compute; reflexivity).
  rewrite Ht. split_and!; first [by (rewrite !elem_of_cons; tauto) | by vm_compute].
Qed.

(** ** Offering custom rules *)

Lemma bind_run {A B} (m : M A) (k : A -> M B) w x w' :
  m w = (inr x, w') -> (m ≫= k) w = k x w'.
Proof. intros Hm. unfold mbind, M_bind. by rewrite Hm. Qed.

Lemma getRules_A_run scope w :
  PairCreatorA.getRules scope w = (inr (inspect (settings w) scope), w).
Proof. reflexivity. Qed.

Section OfferA.
Import PairCreatorA.
Context (h : Host) (u : User).

Lemma checkAndOffer_A_no_rules language' uncertain' w :
  no_custom_rules w language' ->
  checkAndOfferCustomRules h u language' uncertain' w
  = (if negb uncertain' then
       shouldCreateRules ← offerToCreateCustomRules u language';
       match shouldCreateRules with
       | None => mret Cancelled
       | Some true =>
           result ← createCustomRules h u language';
           match result with
           | None => mret Cancelled
           | Some r => mret (Selected r)
           end
       | Some false => mret NoCustomRules
       end
     else mret NoCustomRules) w.
Proof.
  intros Hno. unfold checkAndOfferCustomRules.
  rewrite (bind_run _ _ _ _ _ (getRules_A_run workspace w)).
  rewrite (bind_run _ _ _ _ _ (getRules_A_run user w)).
  cbn [inspect]. unfold no_custom_rules in Hno. rewrite Hno. reflexivity.
Qed.

Lemma offerToCreateCustomRules_A_run language' w :
  offerToCreateCustomRules u language' w
  = (inr (if decide (pick offer_buttons_A (offerAnswer u) = Some "Create Custom Rules")
          then Some true
          else if decide (pick offer_buttons_A (offerAnswer u) = Some "Use Defaults")
               then Some false else None),
     with_trace (trace w ++ [OfferCustomRules (offer_message language') offer_buttons_A]) w).
Proof. reflexivity. Qed.

Lemma templateChoices_A_head language' :
  key <$> head (templateChoices language' true) = Some "cpp_empty".
Proof. destruct language'; vm_compute; reflexivity. Qed.

End OfferA.

Section OfferB.
Import PairCreatorB.
Context (h : Host) (u : User).

Lemma allRules_run w :
  allRules w
  = (inr (default [] (workspaceValue (settings w)) ++ default [] (globalValue (settings w)))%list,
     w).
Proof. reflexivity. Qed.

(** Adapting a template reads the settings and keeps key and language. *)
Lemma adaptRuleForCurrentExtensions_run rule language' w :
  exists rule',
    adaptRuleForCurrentExtensions rule language' w = (inr rule', w)
    /\ key rule' = key rule /\ language rule' = language rule.
Proof.
  unfold adaptRuleForCurrentExtensions.
  case_decide; [by exists rule|].
  rewrite (bind_run _ _ _ _ _ (allRules_run w)).
  destruct (filter _ _) as [|first rest]; [by exists rule|].
  eexists. split; [reflexivity|]. done.
Qed.

Lemma mapM_adapt_run language' (l : list PairingRule) w :
  exists l',
    mapM (fun rule => adaptRuleForCurrentExtensions rule language') l w = (inr l', w)
    /\ map key l' = map key l /\ map language l' = map language l.
Proof.
  induction l as [|rule l IH]; [by exists []|].
  destruct (adaptRuleForCurrentExtensions_run rule language' w) as (rule' & E & K & L).
  destruct IH as (l' & El & Kl & Ll).
  exists (rule' :: l'). cbn [mapM].
  rewrite (bind_run _ _ _ _ _ E), (bind_run _ _ _ _ _ El).
  split; [reflexivity|]. cbn. by rewrite K, L, Kl, Ll.
Qed.

Lemma templateChoices_B_run language' uncertain' w :
  exists choices,
    templateChoices language' uncertain' w = (inr choices, w)
    /\ (uncertain' = true -> key <$> head choices = Some "cpp_empty").
Proof.
  unfold templateChoices.
  destruct (mapM_adapt_run language' 
              (sort (fun a b => (indexOf (desiredOrder language' uncertain') (key a)
                                 - indexOf (desiredOrder language' uncertain') (key b))%Z)
                 TEMPLATE_RULES) w) as (choices & E & K & _).
  exists choices. split; [exact E|]. intros ->.
  assert (Hk : map key choices
               = ["cpp_empty"; "c_empty"; "cpp_class"; "cpp_struct"; "c_struct"]).
  { rewrite K. destruct language'; vm_compute; reflexivity. }
  destruct choices; [discriminate|]. cbn in *. congruence.
Qed.

Lemma checkAndOffer_B_no_rules uncertain' w :
  no_custom_rules w cpp ->
  checkAndOfferCustomRules h u cpp uncertain' w
  = (if negb uncertain' then
       shouldCreateRules ← offerToCreateCustomRules u cpp;
       match shouldCreateRules with
       | None => mret Cancelled
       | Some true =>
           result ← createCustomRules h u cpp;
           match result with
           | None => mret Cancelled
           | Some r => mret (Selected r)
           end
       | Some false => mret NoCustomRules
       end
     else mret NoCustomRules) w.
Proof.
  intros Hno. unfold checkAndOfferCustomRules.
  rewrite decide_False by done.
  rewrite (bind_run _ _ _ _ _ (allRules_run w)).
  unfold no_custom_rules in Hno. rewrite Hno. reflexivity.
Qed.

Lemma offerToCreateCustomRules_B_run w :
  offerToCreateCustomRules u cpp w
  = (inr (if decide (pick offer_buttons_B (offerAnswer u) = Some "Create Custom Rules")
          then Some true
          else if decide (pick offer_buttons_B (offerAnswer u) = Some "Dismiss")
               then Some false else None),
     with_trace (trace w ++ [OfferCustomRules offer_message offer_buttons_B]) w).
Proof. reflexivity. Qed.

Lemma saveCustomRule_B_calm rule :
  calm u (fun r => r = None) (saveCustomRule h u rule).
Proof.
  unfold saveCustomRule. apply calm_emit_bind.
  - destruct (pick [workspace; user] (saveLocationChoice u)) as [saveLocation|];
      [|apply calm_ret].
    intros w. unfold try_catch, getRules, writeRules, update, get_world, emit.
    unfold mbind, M_bind, mret, M_ret. cbn.
    destruct (updateError h saveLocation) as [message|]; cbn.
    + eexists None, _, [ConfigUpdate saveLocation _; ErrorMessage _].
      repeat split; try done; by rewrite <- app_assoc.
    + eexists (Some rule), _, [ConfigUpdate saveLocation _; InformationMessage _].
      split; [reflexivity|]. repeat split; try done; try (by rewrite <- app_assoc).
      intros (e & He & Hd). rewrite !elem_of_cons, elem_of_nil in He.
      destruct He as [-> | [-> | []]]; destruct Hd.
  - intros Hd. cbn in Hd. rewrite Hd. cbn. by apply always_ret.
Qed.

Lemma createCustomRules_B_calm language' :
  calm u (fun r => r = None) (createCustomRules h u language').
Proof.
  unfold createCustomRules. case_decide; [apply calm_ret|].
  apply calm_emit_bind.
  - destruct (pick _ (extensionChoice u)) as [selectedExtension|]; [|apply calm_ret].
    destruct (_ || _); [|apply saveCustomRule_B_calm].
    apply calm_emit_bind.
    + destruct (negb _); [apply calm_ret|].
      apply calm_emit_bind.
      * destruct (negb _); [apply calm_ret|apply saveCustomRule_B_calm].
      * intros Hd. cbn in Hd. rewrite Hd. cbn. by apply always_ret.
    + intros Hd. cbn in Hd. rewrite Hd. cbn. by apply always_ret.
  - intros Hd. cbn in Hd. rewrite Hd. cbn. by apply always_ret.
Qed.

(** Once the custom rules are out of the way the built-in list is shown,
    and the pick is confirmed when detection was certain and the languages
    differ. *)
Lemma promptForPairingRule_B_builtin language' uncertain' w r w1 :
  checkAndOfferCustomRules h u language' uncertain' w = (inr r, w1) ->
  r = UseDefault \/ r = NoCustomRules ->
  exists choices,
    templateChoices language' uncertain' w1 = (inr choices, w1)
    /\ (uncertain' = true -> key <$> head choices = Some "cpp_empty")
    /\ promptForPairingRule h u language' uncertain' w
       = match pick choices (templateChoice u) with
         | Some result =>
             if negb uncertain' && bool_decide (language' <> language result) then
               (inr (if decide (pick mismatch_buttons (mismatchAnswer u)
                                = Some "Continue Anyway")
                     then Some result else None),
                with_trace
                  (trace w1 ++ [TemplatePick choices;
                                MismatchWarning (mismatch_message language' (language result))
                                  mismatch_buttons]) w1)
             else (inr (Some result), with_trace (trace w1 ++ [TemplatePick choices]) w1)
         | None => (inr None, with_trace (trace w1 ++ [TemplatePick choices]) w1)
         end.
Proof.
  intros Hc Hr.
  destruct (templateChoices_B_run language' uncertain' w1) as (choices & E & Hk).
  exists choices. split; [exact E|split; [exact Hk|]].
  unfold promptForPairingRule. rewrite (bind_run _ _ _ _ _ Hc).
  assert (Hk' : forall k : list PairingRule -> M (option PairingRule),
             (templateChoices language' uncertain' ≫= k) w1 = k choices w1)
    by (intros k; by apply bind_run).
  destruct Hr as [-> | ->]; rewrite Hk'.
  all: unfold mbind, M_bind, mret, M_ret, emit, with_trace; cbn.
  all: destruct (pick choices (templateChoice u)) as [result|]; [|reflexivity].
  all: destruct (negb uncertain' && _); [|reflexivity].
  all: fold mismatch_buttons.
  all: repeat case_decide; try done; cbn; by rewrite <- app_assoc.
Qed.

End OfferB.

(** C6, as the code has it. With no custom rule for the detected language:
    the first [PairCreator] shows the offer exactly when detection was
    certain; the second one shows it exactly when detection was certain and
    the language is C++, never for C.  Declining the offer goes on to the
    built-in list, while dismissing it ends the flow.  When detection was
    uncertain nothing is offered and the built-in list is shown at once, the
    empty C++ pair first, and the pick from it is returned.  For C the second
    [PairCreator] shows the built-in list at once whatever the certainty.
    [shown_B] is what the second [PairCreator] returns once its list is on
    the screen: the pick, which it has confirmed first when detection was
    certain and the languages differ. *)
Theorem custom_rule_offer_policy :
  let shown_B (u : User) (language' : Language) (uncertain' : bool)
        (choices : list PairingRule) (w1 : World) : (string + option PairingRule) * World :=
    match pick choices (templateChoice u) with
    | Some result =>
        if negb uncertain' && bool_decide (language' <> language result) then
          (inr (if decide (pick mismatch_buttons (mismatchAnswer u) = Some "Continue Anyway")
                then Some result else None),
           with_trace
             (trace w1 ++ [TemplatePick choices;
                           MismatchWarning
                             (PairCreatorB.mismatch_message language' (language result))
                             mismatch_buttons]) w1)
        else (inr (Some result), with_trace (trace w1 ++ [TemplatePick choices]) w1)
    | None => (inr None, with_trace (trace w1 ++ [TemplatePick choices]) w1)
    end in
  (forall h u w language',
      no_custom_rules w language' ->
      let offer := OfferCustomRules (PairCreatorA.offer_message language') offer_buttons_A in
      (PairCreatorA.checkAndOfferCustomRules h u language' true w = (inr NoCustomRules, w)
       /\ PairCreatorA.promptForPairingRule h u language' true w
          = (inr (pick (PairCreatorA.templateChoices language' true) (templateChoice u)),
             with_trace
               (trace w ++ [TemplatePick (PairCreatorA.templateChoices language' true)]) w)
       /\ key <$> head (PairCreatorA.templateChoices language' true) = Some "cpp_empty")
      /\ (exists r w' evs,
             PairCreatorA.checkAndOfferCustomRules h u language' false w = (inr r, w')
             /\ trace w' = (trace w ++ offer :: evs)%list)
      /\ (pick offer_buttons_A (offerAnswer u) = Some "Use Defaults" ->
          PairCreatorA.promptForPairingRule h u language' false w
          = (inr (pick (PairCreatorA.templateChoices language' false) (templateChoice u)),
             with_trace
               (trace w ++ [offer; TemplatePick (PairCreatorA.templateChoices language' false)])
               w))
      /\ (pick offer_buttons_A (offerAnswer u) = None ->
          PairCreatorA.promptForPairingRule h u language' false w
          = (inr None, with_trace (trace w ++ [offer]) w)))
  /\ (forall h u w uncertain',
      PairCreatorB.checkAndOfferCustomRules h u c uncertain' w = (inr NoCustomRules, w))
  /\ (forall h u w,
      no_custom_rules w cpp ->
      let offer := OfferCustomRules PairCreatorB.offer_message offer_buttons_B in
      PairCreatorB.checkAndOfferCustomRules h u cpp true w = (inr NoCustomRules, w)
      /\ (exists r w' evs,
             PairCreatorB.checkAndOfferCustomRules h u cpp false w = (inr r, w')
             /\ trace w' = (trace w ++ offer :: evs)%list)
      /\ (pick offer_buttons_B (offerAnswer u) = Some "Dismiss" ->
          PairCreatorB.checkAndOfferCustomRules h u cpp false w
          = (inr NoCustomRules, with_trace (trace w ++ [offer]) w))
      /\ (pick offer_buttons_B (offerAnswer u) = Some "Dismiss" ->
          exists choices r w' evs,
            PairCreatorB.promptForPairingRule h u cpp false w = (inr r, w')
            /\ trace w' = (trace w ++ offer :: TemplatePick choices :: evs)%list)
      /\ (pick offer_buttons_B (offerAnswer u) = None ->
          PairCreatorB.promptForPairingRule h u cpp false w
          = (inr None, with_trace (trace w ++ [offer]) w)))
  /\ (forall language' w,
      exists choices,
        PairCreatorB.templateChoices language' true w = (inr choices, w)
        /\ key <$> head choices = Some "cpp_empty")
  /\ (forall h u w uncertain',
      exists choices,
        PairCreatorB.templateChoices c uncertain' w = (inr choices, w)
        /\ PairCreatorB.promptForPairingRule h u c uncertain' w
           = shown_B u c uncertain' choices w)
  /\ (forall h u w language',
      no_custom_rules w language' ->
      exists choices,
        PairCreatorB.templateChoices language' true w = (inr choices, w)
        /\ key <$> head choices = Some "cpp_empty"
        /\ PairCreatorB.promptForPairingRule h u language' true w
           = (inr (pick choices (templateChoice u)),
              with_trace (trace w ++ [TemplatePick choices]) w))
  /\ (forall h u w,
      no_custom_rules w cpp ->
      pick offer_buttons_B (offerAnswer u) = Some "Dismiss" ->
      let offer := OfferCustomRules PairCreatorB.offer_message offer_buttons_B in
      let w1 := with_trace (trace w ++ [offer]) w in
      exists choices,
        PairCreatorB.templateChoices cpp false w1 = (inr choices, w1)
        /\ PairCreatorB.promptForPairingRule h u cpp false w
           = shown_B u cpp false choices w1).
Proof.
  intros shown_B.
  assert (Hc_B : forall h u w uncertain',
             PairCreatorB.checkAndOfferCustomRules h u c uncertain' w = (inr NoCustomRules, w))
    by reflexivity.
  split; [|split; [|split; [|split; [|split; [|split]]]]].
  5: { intros h u w uncertain'.
       destruct (promptForPairingRule_B_builtin h u c uncertain' w NoCustomRules w
                   (Hc_B h u w uncertain') (or_intror eq_refl))
         as (choices & E & _ & Hrun).
       exists choices. split; [exact E|exact Hrun]. }
  5: { intros h u w language' Hno.
       assert (Hc : PairCreatorB.checkAndOfferCustomRules h u language' true w
                    = (inr NoCustomRules, w)).
       { destruct language'; [apply Hc_B|by rewrite checkAndOffer_B_no_rules]. }
       destruct (promptForPairingRule_B_builtin h u language' true w NoCustomRules w
                   Hc (or_intror eq_refl))
         as (choices & E & Hk & Hrun).
       exists choices. split; [exact E|split; [by apply Hk|]].
       rewrite Hrun. by destruct (pick choices (templateChoice u)). }
  5: { intros h u w Hno Hans offer w1.
       assert (Hc : PairCreatorB.checkAndOfferCustomRules h u cpp false w
                    = (inr NoCustomRules, w1)).
       { rewrite checkAndOffer_B_no_rules by done. cbn [negb].
         rewrite (bind_run _ _ _ _ _ (offerToCreateCustomRules_B_run u w)).
         rewrite Hans. rewrite decide_False by discriminate. by rewrite decide_True. }
       destruct (promptForPairingRule_B_builtin h u cpp false w NoCustomRules w1
                   Hc (or_intror eq_refl))
         as (choices & E & _ & Hrun).
       exists choices. split; [exact E|exact Hrun]. }
  - intros h u w language' Hno offer.
    assert (Hunc : PairCreatorA.checkAndOfferCustomRules h u language' true w
                   = (inr NoCustomRules, w))
      by (by rewrite checkAndOffer_A_no_rules).
    split; [|split; [|split]].
    + split; [exact Hunc|split; [|apply templateChoices_A_head]].
      unfold PairCreatorA.promptForPairingRule. by rewrite (bind_run _ _ _ _ _ Hunc).
    + pose proof (checkAndOffer_A_no_rules h u language' false w Hno) as Hrun.
      cbn [negb] in Hrun.
      rewrite (bind_run _ _ _ _ _ (offerToCreateCustomRules_A_run u language' w)) in Hrun.
      fold offer in Hrun.
      destruct (decide (pick offer_buttons_A (offerAnswer u) = Some "Create Custom Rules")).
      * destruct (createCustomRules_calm h u language' (with_trace (trace w ++ [offer]) w))
          as (x & w2 & evs & E & _ & _ & T & _).
        rewrite (bind_run _ _ _ _ _ E) in Hrun.
        exists (match x with Some r => Selected r | None => Cancelled end), w2, evs.
        split; [rewrite Hrun; by destruct x|]. rewrite T. cbn. by rewrite <- app_assoc.
      * case_decide; eexists _, _, []; (split; [exact Hrun|done]).
    + intros Hans.
      pose proof (checkAndOffer_A_no_rules h u language' false w Hno) as Hrun.
      cbn [negb] in Hrun.
      rewrite (bind_run _ _ _ _ _ (offerToCreateCustomRules_A_run u language' w)) in Hrun.
      rewrite Hans in Hrun. rewrite decide_False in Hrun by discriminate.
      rewrite decide_True in Hrun by done.
      unfold PairCreatorA.promptForPairingRule. rewrite (bind_run _ _ _ _ _ Hrun).
      unfold mbind, M_bind, mret, M_ret, emit, with_trace. cbn. fold offer.
      by rewrite <- app_assoc.
    + intros Hans.
      pose proof (checkAndOffer_A_no_rules h u language' false w Hno) as Hrun.
      cbn [negb] in Hrun.
      rewrite (bind_run _ _ _ _ _ (offerToCreateCustomRules_A_run u language' w)) in Hrun.
      rewrite Hans in Hrun. rewrite !decide_False in Hrun by discriminate.
      unfold PairCreatorA.promptForPairingRule. by rewrite (bind_run _ _ _ _ _ Hrun).
  - reflexivity.
  - intros h u w Hno offer.
    assert (Hdismiss : pick offer_buttons_B (offerAnswer u) = Some "Dismiss" ->
                       PairCreatorB.checkAndOfferCustomRules h u cpp false w
                       = (inr NoCustomRules, with_trace (trace w ++ [offer]) w)).
    { intros Hans. rewrite checkAndOffer_B_no_rules by done. cbn [negb].
      rewrite (bind_run _ _ _ _ _ (offerToCreateCustomRules_B_run u w)).
      rewrite Hans. rewrite decide_False by discriminate. by rewrite decide_True. }
    split; [by rewrite checkAndOffer_B_no_rules|split; [|split; [exact Hdismiss|split]]].
    + pose proof (checkAndOffer_B_no_rules h u false w Hno) as Hrun.
      cbn [negb] in Hrun.
      rewrite (bind_run _ _ _ _ _ (offerToCreateCustomRules_B_run u w)) in Hrun.
      fold offer in Hrun.
      destruct (decide (pick offer_buttons_B (offerAnswer u) = Some "Create Custom Rules")).
      * destruct (createCustomRules_B_calm h u cpp (with_trace (trace w ++ [offer]) w))
          as (x & w2 & evs & E & _ & _ & T & _).
        rewrite (bind_run _ _ _ _ _ E) in Hrun.
        exists (match x with Some r => Selected r | None => Cancelled end), w2, evs.
        split; [rewrite Hrun; by destruct x|]. rewrite T. cbn. by rewrite <- app_assoc.
      * case_decide; eexists _, _, []; (split; [exact Hrun|done]).
    + intros Hans. specialize (Hdismiss Hans).
      destruct (templateChoices_B_run cpp false (with_trace (trace w ++ [offer]) w))
        as (choices & E & _).
      exists choices. unfold PairCreatorB.promptForPairingRule.
      rewrite (bind_run _ _ _ _ _ Hdismiss), (bind_run _ _ _ _ _ E).
      unfold mbind, M_bind, mret, M_ret, emit, with_trace. cbn.
      destruct (pick choices (templateChoice u)) as [result|];
        [destruct (bool_decide _); [case_decide|]|].
      all: eexists _, _, _; split; [reflexivity|]; cbn.
      all: rewrite <- ?app_assoc; cbn; reflexivity.
    + intros Hans.
      pose proof (checkAndOffer_B_no_rules h u false w Hno) as Hrun.
      cbn [negb] in Hrun.
      rewrite (bind_run _ _ _ _ _ (offerToCreateCustomRules_B_run u w)) in Hrun.
      rewrite Hans in Hrun. rewrite !decide_False in Hrun by discriminate.
      unfold PairCreatorB.promptForPairingRule. by rewrite (bind_run _ _ _ _ _ Hrun).
  - intros language' w.
    destruct (templateChoices_B_run language' true w) as (choices & E & Hk).
    exists choices. split; [exact E|by apply Hk].
Qed.

Lemma custom_rule_offer_policy_witness :
  let h := demo_host (Some (mkDocument "cpp" "/src/main.cpp" false)) in
  let w := demo_world {[ "/src/main.cpp" := "int main() {}" ]} in
  PairCreatorA.promptForPairingRule h demo_user cpp false w
  = (inr (Some cpp_class_rule),
     with_trace
       [OfferCustomRules (PairCreatorA.offer_message cpp) offer_buttons_A;
        TemplatePick (PairCreatorA.templateChoices cpp false)] w).
Proof.
  intros h w.
  pose proof custom_rule_offer_policy as Hpolicy. cbv zeta in Hpolicy.
  destruct Hpolicy as (H & _).
  destruct (H h demo_user w cpp eq_refl) as (_ & _ & Hdecline & _).
  rewrite (Hdecline eq_refl). vm_compute. reflexivity.
Defined.

(** C6, as stated, fails twice: dismissing the offer does not fall through
    to the built-in templates (the flow ends with the offer as the only
    dialog), and the second [PairCreator] makes no offer for a certain C. *)
Lemma offer_dismissed_or_skipped :
  let h := demo_host (Some (mkDocument "cpp" "/src/main.cpp" false)) in
  let w := demo_world {[ "/src/main.cpp" := "int main() {}" ]} in
  no_custom_rules w cpp /\ no_custom_rules w c
  /\ PairCreatorA.detectLanguage h w = (inr (mkDetection cpp false), w)
  /\ PairCreatorA.promptForPairingRule h dismissing_user cpp false w
     = (inr None,
        with_trace [OfferCustomRules (PairCreatorA.offer_message cpp) offer_buttons_A] w)
  /\ trace (PairCreatorA.create h dismissing_user w).2
     = [OfferCustomRules (PairCreatorA.offer_message cpp) offer_buttons_A]
  /\ PairCreatorB.checkAndOfferCustomRules h demo_user c false w = (inr NoCustomRules, w).
Proof. vm_compute. repeat split. Qed.

(** ** The cross-language confirmation *)

(** C7, as the code has it. In the second [PairCreator], when detection was
    certain and the user picks from the built-in template list a template
    whose language differs from the detected one, a warning is shown and the
    flow goes on only with "Continue Anyway"; without a mismatch, or when
    detection was uncertain, the pick is returned at once.  A rule taken from
    the custom-rules list is returned unconfirmed, and the first [PairCreator]
    never asks. *)
Theorem language_mismatch_confirmation :
  (forall h u w language' uncertain' r w1 choices result,
      PairCreatorB.checkAndOfferCustomRules h u language' uncertain' w = (inr r, w1) ->
      r = UseDefault \/ r = NoCustomRules ->
      PairCreatorB.templateChoices language' uncertain' w1 = (inr choices, w1) ->
      pick choices (templateChoice u) = Some result ->
      let warning :=
        MismatchWarning (PairCreatorB.mismatch_message language' (language result))
          mismatch_buttons in
      (uncertain' = false -> language result <> language' ->
       PairCreatorB.promptForPairingRule h u language' uncertain' w
       = (inr (if decide (pick mismatch_buttons (mismatchAnswer u) = Some "Continue Anyway")
               then Some result else None),
          with_trace (trace w1 ++ [TemplatePick choices; warning]) w1))
      /\ (uncertain' = true \/ language result = language' ->
          PairCreatorB.promptForPairingRule h u language' uncertain' w
          = (inr (Some result), with_trace (trace w1 ++ [TemplatePick choices]) w1)))
  /\ (forall language' uncertain' w,
      exists choices,
        PairCreatorB.templateChoices language' uncertain' w = (inr choices, w))
  /\ (forall h u w language' uncertain' r w1,
      PairCreatorB.checkAndOfferCustomRules h u language' uncertain' w
      = (inr (Selected r), w1) ->
      PairCreatorB.promptForPairingRule h u language' uncertain' w = (inr (Some r), w1))
  /\ (forall h u w language' uncertain' r w1,
      PairCreatorA.checkAndOfferCustomRules h u language' uncertain' w = (inr r, w1) ->
      r = UseDefault \/ r = NoCustomRules ->
      let choices := PairCreatorA.templateChoices language' uncertain' in
      PairCreatorA.promptForPairingRule h u language' uncertain' w
      = (inr (pick choices (templateChoice u)),
         with_trace (trace w1 ++ [TemplatePick choices]) w1)).
Proof.
  split; [|split; [|split]].
  - intros h u w language' uncertain' r w1 choices result Hc Hr Ht Hpick warning.
    assert (Hrun : PairCreatorB.promptForPairingRule h u language' uncertain' w
                   = (if negb uncertain' && bool_decide (language' <> language result)
                      then
                        (inr (if decide (pick mismatch_buttons (mismatchAnswer u)
                                         <> Some "Continue Anyway")
                              then None else Some result),
                         with_trace (trace w1 ++ [TemplatePick choices; warning]) w1)
                      else (inr (Some result),
                            with_trace (trace w1 ++ [TemplatePick choices]) w1))).
    { unfold PairCreatorB.promptForPairingRule. rewrite (bind_run _ _ _ _ _ Hc).
      assert (Hk : forall k : list PairingRule -> M (option PairingRule),
                 (PairCreatorB.templateChoices language' uncertain' ≫= k) w1 = k choices w1)
        by (intros k; by apply bind_run).
      destruct Hr as [-> | ->]; rewrite Hk.
      all: unfold mbind, M_bind, mret, M_ret, emit, with_trace; cbn; rewrite Hpick.
      all: destruct (negb uncertain' && _); [|reflexivity].
      all: fold mismatch_buttons; subst warning.
      all: case_decide; cbn; by rewrite <- app_assoc. }
    split.
    + intros -> Hne. rewrite Hrun. cbn [negb andb].
      rewrite bool_decide_eq_true_2 by congruence.
      repeat case_decide; congruence.
    + intros Hsame. rewrite Hrun.
      destruct Hsame as [-> | Heq]; [reflexivity|].
      rewrite bool_decide_eq_false_2 by (intros Hne; congruence).
      by rewrite andb_false_r.
  - intros language' uncertain' w.
    destruct (templateChoices_B_run language' uncertain' w) as (choices & E & _). eauto.
  - intros h u w language' uncertain' r w1 Hc.
    unfold PairCreatorB.promptForPairingRule. by rewrite (bind_run _ _ _ _ _ Hc).
  - intros h u w language' uncertain' r w1 Hc Hr choices.
    unfold PairCreatorA.promptForPairingRule. rewrite (bind_run _ _ _ _ _ Hc).
    by destruct Hr as [-> | ->].
Qed.

Lemma language_mismatch_confirmation_witness :
  let h := demo_host (Some (mkDocument "c" "/src/main.c" false)) in
  let w := demo_world {[ "/src/main.c" := "int main(void) { return 0; }" ]} in
  (PairCreatorB.promptForPairingRule h crossing_user c false w).1 = inr None.
Proof.
  intros h w.
  destruct language_mismatch_confirmation as (H & _).
  pose (choices := sort (fun a b => (indexOf (desiredOrder c false) (key a)
                                     - indexOf (desiredOrder c false) (key b))%Z)
                     PairCreatorB.TEMPLATE_RULES).
  pose (result := mkRule "cpp_empty" "$(new-file) C++ Pair"
                    "Creates a basic Header/Source file pair with header guards."
                    cpp ".h" ".cpp" None None).
  destruct (H h crossing_user w c false NoCustomRules w choices result) as [Hwarn _].
  - reflexivity.
  - by right.
  - vm_compute. reflexivity.
  - vm_compute. reflexivity.
  - rewrite (Hwarn eq_refl) by discriminate. reflexivity.
Defined.

(** C7, as stated, fails on the first [PairCreator]: in a C file, with a
    certain detection, the user picks the empty C++ pair and gets it without
    any confirmation; the pair is then created. *)
Lemma cross_language_pick_unconfirmed :
  let h := demo_host (Some (mkDocument "c" "/src/main.c" false)) in
  let w := demo_world {[ "/src/main.c" := "int main(void) { return 0; }" ]} in
  let picked := mkRule "cpp_empty" "$(new-file) Empty C++ Pair"
                  "Creates a basic .h/.cpp file pair with header guards."
                  cpp ".h" ".cpp" None None in
  PairCreatorA.detectLanguage h w = (inr (mkDetection c false), w)
  /\ PairCreatorA.promptForPairingRule h crossing_user c false w
     = (inr (Some picked),
        with_trace [OfferCustomRules (PairCreatorA.offer_message c) offer_buttons_A;
                    TemplatePick (PairCreatorA.templateChoices c false)] w)
  /\ language picked <> c
  /\ dom (files (PairCreatorA.create h crossing_user w).2)
     = {[ "/src/main.c"; "/src/Foo.h"; "/src/Foo.cpp" ]}.
Proof.
  intros h w picked. split_and!.
  - vm_compute. reflexivity.
  - vm_compute. reflexivity.
  - discriminate.
  - apply (bool_decide_unpack _). vm_compute. reflexivity.
Qed.

(** * Checks of the embedding on concrete inputs *)

Example template_scan_1 :
  Template.placeholders "a {{x}} {{{y1}} {{}} {{z z}} {{w}" = ["x"; "y1"].
Proof. reflexivity. Qed.

Example template_or_1 :
  Template.applyTemplate_or "a {{x}} {{{y}}}{{z}}" {[ "x" := "1"; "y" := "" ]} = "a 1 {{{y}}}{{z}}".
Proof. vm_compute. reflexivity. Qed.

Example template_nullish_1 :
  Template.applyTemplate_nullish "a {{x}} {{{y}}}{{z}}" {[ "x" := "1"; "y" := "" ]} = "a 1 {}".
Proof. vm_compute. reflexivity. Qed.

Example template_literal_newlines :
  String.length (header FILE_TEMPLATES.CPP_EMPTY) = 114
  /\ JS.includes (header FILE_TEMPLATES.CPP_EMPTY) ("}}" ++ JS.nl ++ "#define") = true.
Proof. vm_compute. split; reflexivity. Qed.

Example posix_paths :
  Posix.extname "/src/foo.h" = ".h" /\ Posix.extname "/src/.bashrc" = "" /\
  Posix.extname "/a.b/foo" = "" /\ Posix.extname "x.tar.gz" = ".gz" /\
  Posix.basename "/src/foo.h" ".h" = "foo" /\ Posix.dirname "/src/foo.h" = "/src" /\
  Posix.dirname "/foo.h" = "/" /\ Posix.join "/src" "foo.c" = "/src/foo.c".
Proof. vm_compute. repeat split. Qed.

Example identifier_validation :
  IDENTIFIER_test "1abc" = false /\ IDENTIFIER_test "my-name" = false
  /\ IDENTIFIER_test "my_name" = true /\ IDENTIFIER_test "_x" = true
  /\ IDENTIFIER_test "" = false.
Proof. vm_compute. repeat split. Qed.

(** [trim] strips the white space outside ASCII too: a no-break space,
    U+00A0, is the bytes C2 A0, and U+3000 is E3 80 80; the bytes of a letter
    outside ASCII stay. *)
Example trim_unicode_white_space :
  let nbsp := String (ascii_of_nat 194) (String (ascii_of_nat 160) EmptyString) in
  let wide := String (ascii_of_nat 227) (String (ascii_of_nat 128)
                (String (ascii_of_nat 128) EmptyString)) in
  let e_acute := String (ascii_of_nat 195) (String (ascii_of_nat 169) EmptyString) in
  JS.trim ("Foo" ++ nbsp) = "Foo"
  /\ JS.trim (nbsp ++ " Foo" ++ JS.nl ++ wide) = "Foo"
  /\ IDENTIFIER_test (JS.trim ("Foo" ++ nbsp)) = true
  /\ JS.trim " a b " = "a b"
  /\ JS.trim (e_acute ++ " ") = e_acute
  /\ JS.trim (nbsp ++ wide) = "".
Proof. vm_compute. split_and!; reflexivity. Qed.

Example header_with_plain_identifier :
  let h := demo_host (Some (mkDocument "plaintext" "/src/foo.h" false)) in
  (ServiceB.ui_detectLanguage h (demo_world {[ "/src/foo.h" := "#pragma once" ]})).1
  = inr (mkDetection cpp true)
  /\ (ServiceB.ui_detectLanguage h (demo_world {[ "/src/foo.c" := "int x;" ]})).1
     = inr (mkDetection c false).
Proof. vm_compute. split; reflexivity. Qed.

Example header_without_companions :
  let h := demo_host (Some (mkDocument "c" "/src/foo.h" false)) in
  let w := demo_world {[ "/src/foo.h" := "#pragma once" ]} in
  PairCreatorA.detectLanguage h w = (inr (mkDetection cpp true), w).
Proof. vm_compute. reflexivity. Qed.

Example generated_class_pair :
  let '(headerContent, sourceContent) :=
    PairCreatorA.generateFileContent "Foo" JS.nl cpp_class_rule in
  headerContent = "#ifndef FOO_H_
#define FOO_H_

class Foo {
public:
  Foo();
  ~Foo();

private:
  // Add private members here
};

#endif  // FOO_H_
" /\ JS.startsWith sourceContent ("#include " ++ JS.dquote ++ "Foo.h" ++ JS.dquote) = true.
Proof. vm_compute. split; reflexivity. Qed.

(** * Further properties of the code *)

(** ** Proposed names *)

Section PascalCase.
Import JSLib.

Lemma capitalize_cons ch word :
  capitalize (String ch word) = String (JS.upper_char ch) word.
Proof. reflexivity. Qed.

Lemma join_capitalize_cons word words :
  join_empty (map capitalize (word :: words))
  = capitalize word ++ join_empty (map capitalize words).
Proof. reflexivity. Qed.

Lemma join_capitalize_empty words :
  join_empty (map capitalize (EmptyString :: words)) = join_empty (map capitalize words).
Proof. reflexivity. Qed.

Lemma join_capitalize_nil : join_empty (map capitalize []) = EmptyString.
Proof. reflexivity. Qed.

(** Both ways of splitting give the same text once the words are
    capitalised and joined: an empty word adds nothing.  The second part
    speaks of the text in which the first word is not capitalised. *)
Lemma split_patterns_join s :
  (forall in_run,
      join_empty (map capitalize (split_runs_go in_run s))
      = join_empty (map capitalize (split_separators s)))
  /\ match split_runs_go false s with
     | word :: words => word ++ join_empty (map capitalize words)
     | [] => EmptyString
     end
     = match split_separators s with
       | word :: words => word ++ join_empty (map capitalize words)
       | [] => EmptyString
       end.
Proof.
  induction s as [|ch s [IHj IHr]]; [done|].
  cbn [split_runs_go split_separators].
  destruct (is_separator ch).
  - split.
    + intros [|]; rewrite ?join_capitalize_empty; by rewrite IHj.
    + append_head. apply IHj.
  - destruct (split_runs_go false s) as [|w1 ws1], (split_separators s) as [|w2 ws2];
      rewrite ?join_capitalize_cons, ?join_capitalize_nil, ?capitalize_cons;
      append_head; split; try intros _; by rewrite ?IHr.
Qed.

Lemma upper_char_not_separator ch :
  is_separator ch = false -> is_separator (JS.upper_char ch) = false.
Proof. revert ch. intros [[] [] [] [] [] [] [] []]; vm_compute; congruence. Qed.

Lemma no_separator_app a b :
  no_separator (a ++ b) = no_separator a && no_separator b.
Proof.
  induction a as [|ch a IH]; [done|].
  change (String ch a ++ b) with (String ch (a ++ b)). cbn. by rewrite IH, andb_assoc.
Qed.

Lemma all_word_chars_app a b :
  all_word_chars (a ++ b) = all_word_chars a && all_word_chars b.
Proof.
  induction a as [|ch a IH]; [done|].
  change (String ch a ++ b) with (String ch (a ++ b)). cbn. by rewrite IH, andb_assoc.
Qed.

(** The joined text has no separator, whether its first word is capitalised
    or not. *)
Lemma split_separators_clean s :
  no_separator (join_empty (map capitalize (split_separators s))) = true
  /\ no_separator match split_separators s with
                  | word :: words => word ++ join_empty (map capitalize words)
                  | [] => EmptyString
                  end = true.
Proof.
  induction s as [|ch s [IHj IHr]]; [done|].
  cbn [split_separators]. destruct (is_separator ch) eqn:Hch.
  - rewrite join_capitalize_empty. append_head. done.
  - destruct (split_separators s) as [|w ws];
      rewrite ?join_capitalize_cons, ?join_capitalize_nil, ?capitalize_cons in *;
      append_head; cbn [no_separator];
      rewrite ?Hch, ?(upper_char_not_separator _ Hch); cbn [negb andb]; done.
Qed.

Lemma name_char_word ch :
  is_name_char ch = true -> is_separator ch = false ->
  JS.is_word_char ch = true /\ JS.is_word_char (JS.upper_char ch) = true.
Proof. revert ch. intros [[] [] [] [] [] [] [] []]; vm_compute; auto. Qed.

Lemma split_separators_word_chars s :
  all_name_chars s = true ->
  all_word_chars (join_empty (map capitalize (split_separators s))) = true
  /\ all_word_chars match split_separators s with
                    | word :: words => word ++ join_empty (map capitalize words)
                    | [] => EmptyString
                    end = true.
Proof.
  induction s as [|ch s IH]; [done|].
  cbn [all_name_chars]. intros [Hch Hs]%andb_true_iff. destruct (IH Hs) as [IHj IHr].
  cbn [split_separators]. destruct (is_separator ch) eqn:Hsep.
  - rewrite join_capitalize_empty. append_head. done.
  - destruct (name_char_word ch Hch Hsep) as [Hw Hu].
    destruct (split_separators s) as [|w ws];
      rewrite ?join_capitalize_cons, ?join_capitalize_nil, ?capitalize_cons in *;
      append_head; cbn [all_word_chars];
      rewrite ?Hw, ?Hu; cbn [andb]; done.
Qed.

Lemma letter_upper ch :
  JS.is_upper ch || JS.is_lower ch = true ->
  is_separator ch = false /\ JS.is_upper (JS.upper_char ch) = true.
Proof. revert ch. intros [[] [] [] [] [] [] [] []]; vm_compute; auto. Qed.

End PascalCase.

(** X1. [toPascalCase] gives the same text whether the input is split at
    every hyphen or underscore (the two [PairCreator]s) or at every run of
    them (the two services): the empty words that a run leaves add nothing
    to the joined text. *)
Theorem toPascalCase_split_patterns_agree input :
  PairCreatorB_names.toPascalCase input = PairCreatorA_names.toPascalCase input
  /\ ServiceA_names.toPascalCase input = PairCreatorA_names.toPascalCase input
  /\ ServiceB_names.toPascalCase input = PairCreatorA_names.toPascalCase input.
Proof.
  split; [reflexivity|].
  unfold ServiceA_names.toPascalCase, ServiceB_names.toPascalCase,
    PairCreatorA_names.toPascalCase, JSLib.split_separator_runs.
  split; apply (proj1 (split_patterns_join input)).
Qed.

Lemma toPascalCase_A_identifier input :
  all_name_chars input = true -> starts_with_letter input = true ->
  IDENTIFIER_test (PairCreatorA_names.toPascalCase input) = true.
Proof.
  destruct input as [|ch s]; intros Hall Hletter; [discriminate|].
  cbn [starts_with_letter] in Hletter. destruct (letter_upper ch Hletter) as [Hsep Hup].
  cbn [all_name_chars] in Hall. apply andb_true_iff in Hall as [_ Hs].
  destruct (split_separators_word_chars s Hs) as [_ Hr].
  unfold PairCreatorA_names.toPascalCase. cbn [JSLib.split_separators]. rewrite Hsep.
  destruct (JSLib.split_separators s) as [|w ws];
    rewrite ?join_capitalize_cons, ?join_capitalize_nil, ?capitalize_cons in *;
    append_head; cbn [IDENTIFIER_test]; rewrite Hup; cbn [orb andb]; done.
Qed.

Lemma toPascalCase_runs_eq input :
  ServiceB_names.toPascalCase input = PairCreatorA_names.toPascalCase input.
Proof. apply (proj1 (split_patterns_join input)). Qed.

(** X2. The text that [toPascalCase] returns never has a hyphen or an
    underscore.  For a name made of word characters and hyphens that starts
    with a letter it is an identifier, in the [PairCreator]s and in the
    services. *)
Theorem toPascalCase_identifier :
  (forall input,
      no_separator (PairCreatorA_names.toPascalCase input) = true
      /\ no_separator (ServiceB_names.toPascalCase input) = true)
  /\ (forall input,
        all_name_chars input = true -> starts_with_letter input = true ->
        IDENTIFIER_test (PairCreatorA_names.toPascalCase input) = true
        /\ IDENTIFIER_test (ServiceB_names.toPascalCase input) = true).
Proof.
  split.
  - intros input. rewrite toPascalCase_runs_eq. split; apply split_separators_clean.
  - intros input Hall Hletter. rewrite toPascalCase_runs_eq.
    split; by apply toPascalCase_A_identifier.
Qed.

Lemma toPascalCase_identifier_witness :
  IDENTIFIER_test (ServiceB_names.toPascalCase "my-widget__v2") = true.
Proof.
  apply (proj2 toPascalCase_identifier "my-widget__v2"); reflexivity.
Defined.

Lemma getPlaceholder_defaults_eq rule :
  (if flag (isClass rule) then DEFAULT_PLACEHOLDERS.CPP_CLASS
   else if flag (isStruct rule) && bool_decide (language rule = cpp)
   then DEFAULT_PLACEHOLDERS.CPP_STRUCT
   else if flag (isStruct rule) && bool_decide (language rule = c)
   then DEFAULT_PLACEHOLDERS.C_STRUCT
   else if bool_decide (language rule = c) then DEFAULT_PLACEHOLDERS.C_EMPTY
   else DEFAULT_PLACEHOLDERS.CPP_EMPTY)
  = ServiceB_names.getDefaultPlaceholder rule.
Proof.
  unfold ServiceB_names.getDefaultPlaceholder.
  destruct (flag (isClass rule)), (flag (isStruct rule)), (language rule); reflexivity.
Qed.

Lemma getPlaceholder_A_eq h rule :
  PairCreatorA_names.getPlaceholder h rule = ServiceB_names.getPlaceholder h rule.
Proof.
  unfold PairCreatorA_names.getPlaceholder, ServiceB_names.getPlaceholder.
  rewrite getPlaceholder_defaults_eq.
  destruct (activeTextEditor h) as [document|]; [|reflexivity].
  destruct (isUntitled document); cbn [negb]; [reflexivity|].
  case_decide; [reflexivity|]. symmetry. apply toPascalCase_runs_eq.
Qed.

(** X3. The four revisions propose the same name for every rule and editor
    state, although the first spells the defaults as a chain of tests and
    the services split at runs of separators. *)
Theorem getPlaceholder_revisions_agree h rule :
  PairCreatorA_names.getPlaceholder h rule = ServiceB_names.getPlaceholder h rule
  /\ PairCreatorB_names.getPlaceholder h rule = ServiceB_names.getPlaceholder h rule
  /\ ServiceA_names.getPlaceholder h rule = ServiceB_names.getPlaceholder h rule.
Proof.
  split; [apply getPlaceholder_A_eq|split; [|reflexivity]].
  unfold PairCreatorB_names.getPlaceholder, ServiceB_names.getPlaceholder.
  destruct (activeTextEditor h) as [document|]; [|reflexivity].
  destruct (isUntitled document); cbn [negb]; [reflexivity|].
  case_decide; [reflexivity|]. symmetry. apply toPascalCase_runs_eq.
Qed.

Lemma word_char_not_white_space ch s :
  JS.is_word_char ch = true -> JS.white_space_bytes (String ch s) = 0%nat.
Proof.
  intros Hch. destruct s as [|b [|d s]]; revert Hch; clear; revert ch;
    intros [[] [] [] [] [] [] [] []]; vm_compute; congruence.
Qed.

Lemma trimEnd_word_chars s : all_word_chars s = true -> JS.trimEnd s = s.
Proof.
  induction s as [|ch s IH]; [done|].
  cbn [all_word_chars]. intros [Hch Hs]%andb_true_iff.
  cbn [JS.trimEnd]. unfold JS.all_white_space. cbn [JS.all_white_space_go].
  by rewrite (word_char_not_white_space ch s Hch), (IH Hs).
Qed.

Lemma trim_identifier s : IDENTIFIER_test s = true -> JS.trim s = s.
Proof.
  intros Hid. destruct (identifier_word_chars s Hid) as [Hw _].
  unfold JS.trim, JS.trimStart. destruct s as [|ch s]; [done|].
  assert (Hch : JS.is_word_char ch = true).
  { cbn in Hw. by apply andb_true_iff in Hw as [Hch _]. }
  cbn [JS.trimStart_go]. rewrite (word_char_not_white_space ch s Hch).
  by apply trimEnd_word_chars.
Qed.

(** X4. A proposed name is one the name box would accept: without a saved
    active document it is one of the five default names, each an identifier;
    with one, and a C++ rule, it is the Pascal-case form of the file's base
    name, an identifier whenever that base name is made of word characters
    and hyphens and starts with a letter. *)
Theorem getPlaceholder_is_accepted :
  (forall h rule,
      (activeTextEditor h = None
       \/ exists document, activeTextEditor h = Some document /\ isUntitled document = true) ->
      inputBox (fun text => IDENTIFIER_test (JS.trim text))
        (Some (ServiceB_names.getPlaceholder h rule))
      = Some (ServiceB_names.getPlaceholder h rule))
  /\ (forall h rule document,
        activeTextEditor h = Some document -> isUntitled document = false ->
        language rule = cpp ->
        let base := basename (path h) (fsPath document) (extname (path h) (fsPath document)) in
        all_name_chars base = true -> starts_with_letter base = true ->
        inputBox (fun text => IDENTIFIER_test (JS.trim text))
          (Some (ServiceB_names.getPlaceholder h rule))
        = Some (ServiceB_names.getPlaceholder h rule)).
Proof.
  assert (Hbox : forall s, IDENTIFIER_test s = true ->
                           inputBox (fun text => IDENTIFIER_test (JS.trim text)) (Some s) = Some s).
  { intros s Hs. unfold inputBox. cbn. by rewrite (trim_identifier s Hs), Hs. }
  split.
  - intros h rule Hdoc. apply Hbox.
    assert (Hdef : ServiceB_names.getPlaceholder h rule = ServiceB_names.getDefaultPlaceholder rule).
    { unfold ServiceB_names.getPlaceholder.
      destruct Hdoc as [-> | (document & -> & ->)]; reflexivity. }
    rewrite Hdef. unfold ServiceB_names.getDefaultPlaceholder.
    destruct (flag (isClass rule)), (flag (isStruct rule)), (language rule); reflexivity.
  - intros h rule document Hdoc Hsaved Hcpp base Hall Hletter. apply Hbox.
    unfold ServiceB_names.getPlaceholder. rewrite Hdoc, Hsaved, Hcpp. cbn [negb].
    rewrite decide_False by discriminate. fold base.
    rewrite toPascalCase_runs_eq. by apply toPascalCase_A_identifier.
Qed.

Lemma getPlaceholder_is_accepted_witness :
  let h := demo_host (Some (mkDocument "cpp" "/src/my-widget.cpp" false)) in
  inputBox (fun text => IDENTIFIER_test (JS.trim text))
    (Some (ServiceB_names.getPlaceholder h cpp_class_rule))
  = Some (ServiceB_names.getPlaceholder h cpp_class_rule).
Proof.
  intros h.
  apply (proj2 getPlaceholder_is_accepted h cpp_class_rule
           (mkDocument "cpp" "/src/my-widget.cpp" false)); reflexivity.
Defined.

Example placeholder_of_kebab_file :
  ServiceB_names.getPlaceholder
    (demo_host (Some (mkDocument "cpp" "/src/my-widget.cpp" false))) cpp_class_rule
  = "MyWidget".
Proof. reflexivity. Qed.

Example toPascalCase_splits :
  JSLib.split_separators "a--b_" = ["a"; ""; "b"; ""]
  /\ JSLib.split_separator_runs "a--b_" = ["a"; "b"; ""]
  /\ PairCreatorA_names.toPascalCase "a--b_" = "AB"
  /\ PairCreatorA_names.toPascalCase "__" = "".
Proof. repeat split. Qed.

(** ** Generated content *)

Lemma applyTemplate_nullish_spelled fileName rule k :
  Template.applyTemplate_nullish (header (FILE_TEMPLATES_at k)) (content_context fileName rule)
  = guarded (JS.toUpperCase fileName ++ "_H_") (header_body k fileName)
  /\ Template.applyTemplate_nullish (source (FILE_TEMPLATES_at k)) (content_context fileName rule)
     = includeLine fileName (headerExt rule) ++ source_rest k fileName.
Proof.
  destruct (content_context_lookup fileName rule) as (HF & HG & HI).
  unfold Template.applyTemplate_nullish, Template.replace_placeholders.
  apply builtin_text; intros m; by rewrite ?HF, ?HG, ?HI.
Qed.

(** X5. The four revisions of [generateFileContent] return the same pair of
    texts for every non-empty file name: the second document selects the
    template by a key instead of a chain of tests, and the services replace
    an unbound placeholder by nothing instead of keeping it, which only
    shows for the empty name. *)
Theorem generateFileContent_revisions_agree :
  (forall fileName eol rule,
      PairCreatorB_content.generateFileContent fileName eol rule
      = PairCreatorA.generateFileContent fileName eol rule)
  /\ (forall fileName eol rule,
        fileName <> "" ->
        ServiceA_content.generateFileContent fileName eol rule
        = PairCreatorA.generateFileContent fileName eol rule
        /\ ServiceB_content.generateFileContent fileName eol rule
           = PairCreatorA.generateFileContent fileName eol rule)
  /\ (forall rule,
        language rule = cpp -> isClass rule = None -> isStruct rule = None ->
        (ServiceB_content.generateFileContent "" JS.nl rule).1
        <> (PairCreatorA.generateFileContent "" JS.nl rule).1).
Proof.
  split; [|split].
  - intros fileName eol rule.
    unfold PairCreatorB_content.generateFileContent, PairCreatorA.generateFileContent.
    by rewrite getTemplatesByRule_key.
  - intros fileName eol rule Hname.
    unfold ServiceA_content.generateFileContent, ServiceB_content.generateFileContent,
      PairCreatorA.generateFileContent, ServiceA.applyTemplate, ServiceB.applyTemplate,
      PairCreatorA.applyTemplate.
    rewrite getTemplatesByRule_key.
    destruct (applyTemplate_or_spelled fileName rule (templateKey rule) Hname) as [-> ->].
    destruct (applyTemplate_nullish_spelled fileName rule (templateKey rule)) as [-> ->].
    done.
  - intros rule Hcpp Hclass Hstruct.
    unfold ServiceB_content.generateFileContent, PairCreatorA.generateFileContent,
      PairCreatorA.getTemplatesByRule, templateKey.
    rewrite Hcpp, Hclass, Hstruct. vm_compute. discriminate.
Qed.

Lemma generateFileContent_revisions_agree_witness :
  ServiceB_content.generateFileContent "Foo" (JS.cr ++ JS.nl) cpp_class_rule
  = PairCreatorA.generateFileContent "Foo" (JS.cr ++ JS.nl) cpp_class_rule.
Proof.
  apply (proj1 (proj2 generateFileContent_revisions_agree)). discriminate.
Defined.

Section NoPlaceholderLeft.
Import JS Template.

Lemma placeholders_go_none s :
  forall prev, no_double_lbrace prev s = true -> placeholders_go 0 s = [].
Proof.
  induction s as [|ch s IH]; intros prev Hs; [reflexivity|].
  cbn [placeholders_go]. cbn [no_double_lbrace] in Hs.
  apply andb_true_iff in Hs as [_ Hs].
  destruct (match_placeholder (String ch s)) as [k|] eqn:Hm.
  - apply match_placeholder_double in Hm as [s' Hs']. injection Hs' as -> ->.
    cbn in Hs. rewrite Ascii.eqb_refl in Hs. cbn in Hs. discriminate.
  - by apply (IH (Ascii.eqb ch lbrace)).
Qed.

Lemma no_double_lbrace_weaken s prev :
  no_double_lbrace prev s = true -> no_double_lbrace false s = true.
Proof. destruct s as [|ch s]; [done|]. cbn. by intros [_ ?]%andb_true_iff. Qed.

Lemma no_double_lbrace_after eol s prev :
  no_lbrace eol = true -> eol <> "" ->
  no_double_lbrace false s = true -> no_double_lbrace prev (eol ++ s) = true.
Proof.
  intros Heol Hne Hs. destruct eol as [|ch eol]; [done|].
  cbn in Heol. apply andb_true_iff in Heol as [Hch Heol]. apply negb_true_iff in Hch.
  change (String ch eol ++ s) with (String ch (eol ++ s)).
  cbn [no_double_lbrace]. rewrite Hch, andb_false_r. cbn [negb andb].
  by rewrite no_double_lbrace_app.
Qed.

Lemma replace_newlines_no_double eol s :
  no_lbrace eol = true -> eol <> "" ->
  forall prev, no_double_lbrace prev s = true ->
               no_double_lbrace prev (replace_newlines eol s) = true.
Proof.
  intros Heol Hne. induction s as [|ch s IH]; intros prev Hs; [done|].
  cbn [replace_newlines]. cbn [no_double_lbrace] in Hs.
  apply andb_true_iff in Hs as [Hhead Hs].
  destruct (nat_of_ascii ch =? 10)%nat eqn:Hnl.
  - apply no_double_lbrace_after; [done..|].
    apply (no_double_lbrace_weaken _ (Ascii.eqb ch lbrace)). by apply IH.
  - cbn [no_double_lbrace]. rewrite Hhead. cbn [andb]. by apply IH.
Qed.

Lemma upper_char_identifier_head ch :
  is_upper ch || is_lower ch || is_underscore ch = true ->
  is_upper (upper_char ch) || is_lower (upper_char ch) || is_underscore (upper_char ch) = true.
Proof. revert ch. intros [[] [] [] [] [] [] [] []]; vm_compute; congruence. Qed.

Lemma upper_char_word ch : is_word_char ch = true -> is_word_char (upper_char ch) = true.
Proof. revert ch. intros [[] [] [] [] [] [] [] []]; vm_compute; congruence. Qed.

Lemma all_word_chars_toUpperCase s :
  all_word_chars s = true -> all_word_chars (toUpperCase s) = true.
Proof.
  induction s as [|ch s IH]; [done|]. cbn.
  intros [Hch Hs]%andb_true_iff. by rewrite (upper_char_word _ Hch), IH.
Qed.

Lemma headerGuard_identifier fileName :
  IDENTIFIER_test fileName = true ->
  IDENTIFIER_test (toUpperCase fileName ++ "_H_") = true.
Proof.
  destruct fileName as [|ch s]; [discriminate|].
  cbn [IDENTIFIER_test toUpperCase]. intros [Hch Hs]%andb_true_iff.
  change (String ?a ?x ++ ?y) with (String a (x ++ y)). cbn [IDENTIFIER_test].
  rewrite (upper_char_identifier_head _ Hch), all_word_chars_app,
    (all_word_chars_toUpperCase _ Hs). reflexivity.
Qed.

End NoPlaceholderLeft.

(** X6. With a file name that is an identifier, a header extension without an
    opening brace and either line ending, the texts that
    [generateFileContent] returns have no placeholder left in them, and the
    include guard of the header is itself an identifier. *)
Theorem generateFileContent_substitutes_everything fileName eol rule :
  IDENTIFIER_test fileName = true ->
  Template.no_lbrace (headerExt rule) = true ->
  eol = JS.nl \/ eol = JS.cr ++ JS.nl ->
  Template.placeholders (PairCreatorA.generateFileContent fileName eol rule).1 = []
  /\ Template.placeholders (PairCreatorA.generateFileContent fileName eol rule).2 = []
  /\ IDENTIFIER_test (JS.toUpperCase fileName ++ "_H_") = true.
Proof.
  intros Hid Hext Heol.
  destruct (content_context_lookup fileName rule) as (HF & HG & HI).
  destruct (content_values_clean fileName rule Hid Hext) as (CF & CG & CI).
  destruct (identifier_word_chars _ Hid) as [_ Htruthy].
  pose proof (builtin_text_clean
                (fun m k => match content_context fileName rule !! k with
                            | Some v => if JS.truthy v then v else m
                            | None => m
                            end)
                fileName (JS.toUpperCase fileName ++ "_H_")
                ("#include " ++ JS.dquote ++ fileName ++ headerExt rule ++ JS.dquote)) as Hclean.
  cbv beta in Hclean. rewrite HF, HG, HI in Hclean.
  rewrite Htruthy, truthy_app_l in Hclean by (by rewrite truthy_toUpperCase).
  specialize (Hclean (fun _ => eq_refl) (fun _ => eq_refl) (fun _ => eq_refl) CF CG CI).
  rewrite Forall_forall in Hclean.
  assert (Hin : PairCreatorA.getTemplatesByRule rule ∈ FILE_TEMPLATES.all).
  { unfold PairCreatorA.getTemplatesByRule, FILE_TEMPLATES.all.
    repeat case_match; rewrite !elem_of_cons; tauto. }
  destruct (Hclean _ Hin) as [Hh Hs].
  assert (Heol' : Template.no_lbrace eol = true /\ eol <> "")
    by (destruct Heol as [-> | ->]; split; done).
  destruct Heol' as [Heol1 Heol2].
  unfold PairCreatorA.generateFileContent, PairCreatorA.applyTemplate,
    Template.applyTemplate_or, Template.replace_placeholders, Template.placeholders.
  cbn [fst snd]. split_and!.
  - apply (placeholders_go_none _ false). by apply replace_newlines_no_double.
  - apply (placeholders_go_none _ false). by apply replace_newlines_no_double.
  - by apply headerGuard_identifier.
Qed.

Lemma generateFileContent_substitutes_everything_witness :
  Template.placeholders
    (PairCreatorA.generateFileContent "Foo" (JS.cr ++ JS.nl) cpp_class_rule).1 = [].
Proof.
  destruct (generateFileContent_substitutes_everything "Foo" (JS.cr ++ JS.nl) cpp_class_rule)
    as (H & _); [reflexivity|reflexivity|by right|exact H].
Defined.

(** ** Line endings *)







(** ** The name that reaches the write step *)

Lemma inputBox_identifier text name :
  inputBox (fun text => IDENTIFIER_test (JS.trim text)) text = Some name ->
  text = Some name /\ IDENTIFIER_test (JS.trim name) = true.
Proof.
  unfold inputBox. destruct text as [t|]; cbn; [|done].
  destruct (IDENTIFIER_test (JS.trim t)) eqn:Ht; [|done]. by intros [= <-].
Qed.

Lemma promptForFileName_A_typed u rule :
  always (fun r => forall name, r = Some name ->
                     fileNameText u = Some name /\ IDENTIFIER_test (JS.trim name) = true)
    (PairCreatorA.promptForFileName u rule).
Proof.
  intros w x w'. unfold PairCreatorA.promptForFileName, emit, mbind, M_bind, mret, M_ret.
  intros [= <- _] name. apply inputBox_identifier.
Qed.

Lemma promptForFileName_UIB_typed u rule :
  always (fun r => forall name, r = Some name ->
                     fileNameText u = Some name /\ IDENTIFIER_test (JS.trim name) = true)
    (UIB.promptForFileName u rule).
Proof.
  intros w x w'. unfold UIB.promptForFileName, emit, mbind, M_bind, mret, M_ret.
  intros [= <- _] name. apply inputBox_identifier.
Qed.

(** X8. The file name is validated after trimming but used as typed.
    Whenever the input phase of [create] ends with a name, that name is the
    text the user typed, and its trimmed form is an identifier; the name
    itself need not be one, since blanks around an identifier pass the box
    and stay in the name.  The same holds for the name box of the last
    revision. *)
Theorem file_name_is_used_as_typed :
  (forall h u w targetDirectory rule fileName w1,
      PairCreatorA.gatherInputs h u w = (inr (Some (targetDirectory, rule, fileName)), w1) ->
      fileNameText u = Some fileName /\ IDENTIFIER_test (JS.trim fileName) = true)
  /\ (forall u rule w fileName w1,
        UIB.promptForFileName u rule w = (inr (Some fileName), w1) ->
        fileNameText u = Some fileName /\ IDENTIFIER_test (JS.trim fileName) = true)
  /\ (forall u rule w text,
        fileNameText u = Some text -> IDENTIFIER_test (JS.trim text) = true ->
        (PairCreatorA.promptForFileName u rule w).1 = inr (Some text)
        /\ (UIB.promptForFileName u rule w).1 = inr (Some text))
  /\ (exists text, IDENTIFIER_test (JS.trim text) = true /\ IDENTIFIER_test text = false).
Proof.
  split_and!.
  - intros h u w targetDirectory rule fileName w1.
    assert (Hpost : always (fun r => forall d r' name, r = Some (d, r', name) ->
                                       fileNameText u = Some name
                                       /\ IDENTIFIER_test (JS.trim name) = true)
                      (PairCreatorA.gatherInputs h u)).
    { unfold PairCreatorA.gatherInputs. apply always_bind. intros [d|].
      - apply always_bind. intros detection. apply always_bind. intros [r|].
        + intros w0 x w0' Hrun.
          unfold mbind, M_bind in Hrun.
          destruct (PairCreatorA.promptForFileName u r w0) as [[e|name] w2] eqn:Hp;
            [discriminate|].
          pose proof (promptForFileName_A_typed u r w0 name w2 Hp) as Hname.
          destruct name as [name|]; [|by injection Hrun as <- _].
          destruct (negb (JS.truthy name)); injection Hrun as <- _; [done|].
          intros d' r' name' [= _ _ <-]. by apply Hname.
        + by apply always_ret.
      - apply always_bind. intros []. by apply always_ret. }
    intros Hrun. by apply (Hpost w _ w1 Hrun targetDirectory rule fileName).
  - intros u rule w fileName w1 Hrun.
    by apply (promptForFileName_UIB_typed u rule w _ w1 Hrun).
  - intros u rule w text Htext Hid.
    unfold PairCreatorA.promptForFileName, UIB.promptForFileName, emit, mbind, M_bind,
      mret, M_ret, inputBox. rewrite Htext. cbn. by rewrite Hid.
  - exists " Foo ". split; reflexivity.
Qed.

Lemma file_name_is_used_as_typed_witness :
  let u := mkUser None None (Some 1%nat) None None None None (Some 1%nat) None (Some " Foo") in
  (PairCreatorA.promptForFileName u cpp_class_rule (demo_world ∅)).1 = inr (Some " Foo").
Proof.
  intros u.
  apply (proj1 (proj2 (proj2 file_name_is_used_as_typed)) u cpp_class_rule (demo_world ∅) " Foo");
    reflexivity.
Defined.

(** A name typed with a leading blank gives files whose names begin with a
    blank. *)
Example blank_in_file_name :
  let h := demo_host (Some (mkDocument "cpp" "/src/main.cpp" false)) in
  let u := mkUser None None (Some 1%nat) None None None None (Some 1%nat) None (Some " Foo") in
  let w := demo_world {[ "/src/main.cpp" := "int main() {}" ]} in
  dom (files (PairCreatorA.create h u w).2) = {[ "/src/main.cpp"; "/src/ Foo.h"; "/src/ Foo.cpp" ]}.
Proof. apply (bool_decide_unpack _). vm_compute. reflexivity. Qed.

(** ** Creating a custom rule *)

(** ** Creating a custom rule *)

Lemma validateExt_dotted ext : validateExt ext = true -> dotted ext.
Proof.
  unfold validateExt, dotted. rewrite negb_true_iff, !orb_false_iff, !negb_false_iff.
  intros [[_ Hdot] Hlen]. split; [done|]. apply Nat.ltb_ge in Hlen. exact Hlen.
Qed.

Lemma inputBox_validateExt text ext :
  inputBox validateExt text = Some ext -> dotted ext.
Proof.
  unfold inputBox. destruct text as [t|]; cbn; [|done].
  destruct (validateExt t) eqn:Ht; [|done]. intros [= <-]. by apply validateExt_dotted.
Qed.

Lemma saveCustomRule_A_run h u rule w :
  exists r w',
    PairCreatorA.saveCustomRule h u rule w = (inr r, w') /\ files w' = files w
    /\ match r with
       | Some rule' => rule' = rule /\ saved_in h u rule w w'
       | None => settings w' = settings w
       end.
Proof.
  unfold PairCreatorA.saveCustomRule, saved_in.
  unfold mbind, M_bind at 1. unfold emit at 1.
  destruct (pick [workspace; user] (saveLocationChoice u)) as [scope|] eqn:Hpick.
  - unfold try_catch, PairCreatorA.getRules, PairCreatorA.writeRules, update, get_world, emit,
      mbind, M_bind, mret, M_ret. cbn.
    destruct (updateError h scope) as [message|] eqn:Herr; cbn.
    + eexists None, _. split; [reflexivity|]. done.
    + eexists (Some rule), _. split; [reflexivity|]. split; [done|]. split; [done|].
      exists scope. done.
  - eexists None, _. split; [reflexivity|]. done.
Qed.

Lemma saveCustomRule_B_run h u rule w :
  exists r w',
    PairCreatorB.saveCustomRule h u rule w = (inr r, w') /\ files w' = files w
    /\ match r with
       | Some rule' => rule' = rule /\ saved_in h u rule w w'
       | None => settings w' = settings w
       end.
Proof.
  unfold PairCreatorB.saveCustomRule, saved_in.
  unfold mbind, M_bind at 1. unfold emit at 1.
  destruct (pick [workspace; user] (saveLocationChoice u)) as [scope|] eqn:Hpick.
  - unfold try_catch, PairCreatorB.getRules, PairCreatorB.writeRules, update, get_world, emit,
      mbind, M_bind, mret, M_ret. cbn.
    destruct (updateError h scope) as [message|] eqn:Herr; cbn.
    + eexists None, _. split; [reflexivity|]. done.
    + eexists (Some rule), _. split; [reflexivity|]. split; [done|]. split; [done|].
      exists scope. done.
  - eexists None, _. split; [reflexivity|]. done.
Qed.

(** The offered pairs that need no typing are dotted. *)
Lemma commonExtensions_A_dotted language' selected :
  selected ∈ PairCreatorA.commonExtensions language' ->
  negb (JS.truthy (opt_headerExt selected)) || negb (JS.truthy (opt_sourceExt selected)) = false ->
  dotted (opt_headerExt selected) /\ dotted (opt_sourceExt selected).
Proof.
  unfold PairCreatorA.commonExtensions, dotted.
  destruct language'; [rewrite decide_False by done|rewrite decide_True by done].
  all: rewrite !elem_of_cons, elem_of_nil; intros H Ht.
  all: repeat (destruct H as [-> | H]; [cbn in *; try discriminate; repeat split; lia|]).
  all: done.
Qed.

Lemma pick_elem_of {A} (items : list A) choice x : pick items choice = Some x -> x ∈ items.
Proof.
  unfold pick. destruct choice as [i|]; cbn; [|done]. apply list_elem_of_lookup_2.
Qed.

Lemma createCustomRules_A_run h u language' w :
  exists r w',
    PairCreatorA.createCustomRules h u language' w = (inr r, w') /\ files w' = files w
    /\ match r with
       | Some rule =>
           (exists headerExt' sourceExt',
               rule = PairCreatorA.customRule h language' headerExt' sourceExt'
               /\ dotted headerExt' /\ dotted sourceExt')
           /\ saved_in h u rule w w'
       | None => settings w' = settings w
       end.
Proof.
  unfold PairCreatorA.createCustomRules.
  unfold mbind, M_bind at 1. unfold emit at 1.
  set (w0 := with_trace (trace w ++ [ExtensionPick]) w).
  assert (Hsave : forall headerExt' sourceExt',
             dotted headerExt' -> dotted sourceExt' ->
             forall w1, files w1 = files w -> settings w1 = settings w ->
             exists r w',
               PairCreatorA.saveCustomRule h u
                 (PairCreatorA.customRule h language' headerExt' sourceExt') w1 = (inr r, w')
               /\ files w' = files w
               /\ match r with
                  | Some rule =>
                      (exists headerExt' sourceExt',
                          rule = PairCreatorA.customRule h language' headerExt' sourceExt'
                          /\ dotted headerExt' /\ dotted sourceExt')
                      /\ saved_in h u rule w w'
                  | None => settings w' = settings w
                  end).
  { intros he se Hhe Hse w1 Hf Hs.
    destruct (saveCustomRule_A_run h u (PairCreatorA.customRule h language' he se) w1)
      as (r & w' & E & F & Hr).
    exists r, w'. split; [exact E|]. split; [congruence|].
    destruct r as [rule|]; [|congruence].
    destruct Hr as [-> (scope & Hp & He & Hset)]. split; [eauto|].
    exists scope. rewrite Hset, Hs. done. }
  destruct (pick _ (extensionChoice u)) as [selected|] eqn:Hpick;
    [|by eexists None, _].
  apply pick_elem_of in Hpick.
  destruct (negb (JS.truthy (opt_headerExt selected))
            || negb (JS.truthy (opt_sourceExt selected))) eqn:Hcustom.
  - unfold mbind, M_bind at 1. unfold emit at 1.
    destruct (inputBox validateExt (headerExtText u)) as [he|] eqn:Hhe; [|by eexists None, _].
    destruct (negb (JS.truthy he)); [by eexists None, _|].
    unfold mbind, M_bind at 1. unfold emit at 1.
    destruct (inputBox validateExt (sourceExtText u)) as [se|] eqn:Hse; [|by eexists None, _].
    destruct (negb (JS.truthy se)); [by eexists None, _|].
    apply Hsave; [by eapply inputBox_validateExt..|done|done].
  - destruct (commonExtensions_A_dotted _ _ Hpick Hcustom). by apply Hsave.
Qed.

Lemma createCustomRules_B_run h u language' w :
  exists r w',
    PairCreatorB.createCustomRules h u language' w = (inr r, w') /\ files w' = files w
    /\ match r with
       | Some rule =>
           (exists headerExt' sourceExt',
               rule = PairCreatorB.customRule h headerExt' sourceExt'
               /\ dotted headerExt' /\ dotted sourceExt')
           /\ language' = cpp /\ saved_in h u rule w w'
       | None => settings w' = settings w
       end.
Proof.
  unfold PairCreatorB.createCustomRules.
  case_decide as Hlang; [(eexists None, _; split; [reflexivity|done])|].
  assert (language' = cpp) as -> by (by destruct language').
  unfold mbind, M_bind at 1. unfold emit at 1.
  assert (Hsave : forall headerExt' sourceExt',
             dotted headerExt' -> dotted sourceExt' ->
             forall w1, files w1 = files w -> settings w1 = settings w ->
             exists r w',
               PairCreatorB.saveCustomRule h u
                 (PairCreatorB.customRule h headerExt' sourceExt') w1 = (inr r, w')
               /\ files w' = files w
               /\ match r with
                  | Some rule =>
                      (exists headerExt' sourceExt',
                          rule = PairCreatorB.customRule h headerExt' sourceExt'
                          /\ dotted headerExt' /\ dotted sourceExt')
                      /\ cpp = cpp /\ saved_in h u rule w w'
                  | None => settings w' = settings w
                  end).
  { intros he se Hhe Hse w1 Hf Hs.
    destruct (saveCustomRule_B_run h u (PairCreatorB.customRule h he se) w1)
      as (r & w' & E & F & Hr).
    exists r, w'. split; [exact E|]. split; [congruence|].
    destruct r as [rule|]; [|congruence].
    destruct Hr as [-> (scope & Hp & He & Hset)]. split; [eauto|]. split; [done|].
    exists scope. rewrite Hset, Hs. done. }
  destruct (pick _ (extensionChoice u)) as [selected|] eqn:Hpick;
    [|(eexists None, _; split; [reflexivity|done])].
  apply pick_elem_of in Hpick.
  destruct (negb (JS.truthy (opt_headerExt selected))
            || negb (JS.truthy (opt_sourceExt selected))) eqn:Hcustom.
  - unfold mbind, M_bind at 1. unfold emit at 1.
    destruct (inputBox validateExt (headerExtText u)) as [he|] eqn:Hhe;
      cbn [default from_option id JS.truthy negb]; [|(eexists None, _; split; [reflexivity|done])].
    destruct (negb (JS.truthy he)); [(eexists None, _; split; [reflexivity|done])|].
    unfold mbind, M_bind at 1. unfold emit at 1.
    destruct (inputBox validateExt (sourceExtText u)) as [se|] eqn:Hse;
      cbn [default from_option id JS.truthy negb]; [|(eexists None, _; split; [reflexivity|done])].
    destruct (negb (JS.truthy se)); [(eexists None, _; split; [reflexivity|done])|].
    apply Hsave; [by eapply inputBox_validateExt..|done|done].
  - destruct (commonExtensions_A_dotted cpp _ Hpick Hcustom). by apply Hsave.
Qed.

(** X9. A rule that [createCustomRules] returns is always well formed: it is
    for the language asked for, has no class or struct flag, and each of its
    two extensions is a dot followed by at least one character, whether it
    comes from the offered pairs or from the two input boxes.  In the later
    revisions only C++ rules are created. *)
Theorem createCustomRules_returns_dotted_rules :
  (forall h u language' w rule w',
      PairCreatorA.createCustomRules h u language' w = (inr (Some rule), w') ->
      language rule = language' /\ isClass rule = None /\ isStruct rule = None
      /\ dotted (headerExt rule) /\ dotted (sourceExt rule)
      /\ JS.startsWith (key rule) "custom_" = true)
  /\ (forall h u language' w rule w',
        PairCreatorB.createCustomRules h u language' w = (inr (Some rule), w') ->
        language' = cpp
        /\ language rule = cpp /\ isClass rule = None /\ isStruct rule = None
        /\ dotted (headerExt rule) /\ dotted (sourceExt rule)
        /\ JS.startsWith (key rule) "custom_" = true).
Proof.
  split.
  - intros h u language' w rule w' Hrun.
    destruct (createCustomRules_A_run h u language' w) as (r & w2 & E & _ & Hr).
    rewrite Hrun in E. injection E as <- <-.
    destruct Hr as [(he & se & -> & Hhe & Hse) _]. by destruct language'.
  - intros h u language' w rule w' Hrun.
    destruct (createCustomRules_B_run h u language' w) as (r & w2 & E & _ & Hr).
    rewrite Hrun in E. injection E as <- <-.
    destruct Hr as [(he & se & -> & Hhe & Hse) [-> _]]. done.
Qed.

Lemma createCustomRules_returns_dotted_rules_witness :
  let h := demo_host (Some (mkDocument "cpp" "/src/main.cpp" false)) in
  dotted (headerExt (PairCreatorA.customRule h cpp ".hh" ".cc")).
Proof.
  intros h.
  destruct (proj1 createCustomRules_returns_dotted_rules h saving_user cpp (demo_world ∅)
              (PairCreatorA.customRule h cpp ".hh" ".cc")
              (PairCreatorA.createCustomRules h saving_user cpp (demo_world ∅)).2)
    as (_ & _ & _ & H & _); [reflexivity|exact H].
Defined.

(** X10. [createCustomRules] changes the settings exactly when it returns a
    rule: the rule is then appended to the rules of the scope the user
    picked, whose earlier rules and the other scope are kept.  When the flow
    is dismissed or the host refuses the update nothing is returned and the
    settings are as before.  No file is touched either way. *)
Theorem createCustomRules_appends_to_chosen_scope :
  (forall h u language' w,
      exists r w',
        PairCreatorA.createCustomRules h u language' w = (inr r, w') /\ files w' = files w
        /\ match r with
           | Some rule => saved_in h u rule w w'
           | None => settings w' = settings w
           end)
  /\ (forall h u language' w,
        exists r w',
          PairCreatorB.createCustomRules h u language' w = (inr r, w') /\ files w' = files w
          /\ match r with
             | Some rule => saved_in h u rule w w'
             | None => settings w' = settings w
             end)
  /\ (forall h u rule w w' other,
        saved_in h u rule w w' ->
        pick [workspace; user] (saveLocationChoice u) <> Some other ->
        inspect (settings w') other = inspect (settings w) other)
  /\ (forall h u rule w w' scope,
        saved_in h u rule w w' ->
        pick [workspace; user] (saveLocationChoice u) = Some scope ->
        inspect (settings w') scope
        = Some (default [] (inspect (settings w) scope) ++ [rule])%list).
Proof.
  split_and!.
  - intros h u language' w.
    destruct (createCustomRules_A_run h u language' w) as (r & w' & E & F & Hr).
    exists r, w'. split_and!; [done..|]. destruct r; [apply Hr|done].
  - intros h u language' w.
    destruct (createCustomRules_B_run h u language' w) as (r & w' & E & F & Hr).
    exists r, w'. split_and!; [done..|]. destruct r; [apply Hr|done].
  - intros h u rule w w' other (scope & Hp & _ & ->) Hother.
    destruct scope, other; cbn; congruence.
  - intros h u rule w w' scope (scope' & Hp & _ & ->) Hscope.
    rewrite Hp in Hscope. injection Hscope as ->. by destruct scope.
Qed.

Lemma createCustomRules_appends_to_chosen_scope_witness :
  let h := demo_host (Some (mkDocument "cpp" "/src/main.cpp" false)) in
  let w := mkWorld ∅ (mkSettings None (Some [cpp_class_rule])) ∅ [] in
  let w' := (PairCreatorA.createCustomRules h saving_user cpp w).2 in
  inspect (settings w') user
  = Some [cpp_class_rule; PairCreatorA.customRule h cpp ".hh" ".cc"].
Proof.
  intros h w w'.
  destruct createCustomRules_appends_to_chosen_scope as (_ & _ & _ & H).
  apply (H h saving_user (PairCreatorA.customRule h cpp ".hh" ".cc") w w' user);
    [|reflexivity].
  exists user. repeat split.
Defined.

(** ** The list of custom rules *)

Lemma cleanRule_idempotent rule :
  PairCreatorA.cleanRule (PairCreatorA.cleanRule rule) = PairCreatorA.cleanRule rule.
Proof.
  unfold PairCreatorA.cleanRule. cbn [key label description language headerExt sourceExt
                                        isClass isStruct].
  f_equal.
  - destruct (JS.includes (label rule) "$(") eqn:Hl; [by rewrite Hl|].
    by append_head.
  - destruct (JS.startsWith (description rule) "Creates a") eqn:Hd; [by rewrite Hd|].
    by append_head.
Qed.

(** X11. The custom rules come first in the list that [selectFromCustomRules]
    shows, in their stored order, and the list always ends with the entry
    that leads to the built-in templates.  The rule that is offered for a
    stored one differs from it in label and description only, so the pair it
    creates has the same paths and contents; tidying a rule twice changes
    nothing more. *)
Theorem custom_rules_are_offered_first h rules language' i rule :
  rules !! i = Some rule ->
  let choices := PairCreatorA.customRuleChoices rules language' in
  let offered := PairCreatorA.cleanRule rule in
  pick choices (Some i) = Some (ChoiceRule offered)
  /\ last choices = Some ChoiceUseDefault
  /\ (forall targetDirectory fileName eol,
        PairCreatorA.headerPathOf h targetDirectory fileName offered
        = PairCreatorA.headerPathOf h targetDirectory fileName rule
        /\ PairCreatorA.sourcePathOf h targetDirectory fileName offered
           = PairCreatorA.sourcePathOf h targetDirectory fileName rule
        /\ PairCreatorA.generateFileContent fileName eol offered
           = PairCreatorA.generateFileContent fileName eol rule)
  /\ PairCreatorA.cleanRule offered = offered.
Proof.
  intros Hi choices offered. split_and!.
  - subst choices. unfold PairCreatorA.customRuleChoices, pick. cbn [mbind option_bind].
    rewrite lookup_app_l.
    + by rewrite !list_lookup_fmap, Hi.
    + rewrite !length_map. by eapply lookup_lt_Some.
  - subst choices. unfold PairCreatorA.customRuleChoices.
    rewrite !app_assoc. apply last_snoc.
  - intros targetDirectory fileName eol. done.
  - apply cleanRule_idempotent.
Qed.

Lemma custom_rules_are_offered_first_witness :
  let h := demo_host None in
  let stored := mkRule "custom_cpp_1" "my pair" "hh and cc" cpp ".hh" ".cc" None None in
  pick (PairCreatorA.customRuleChoices [stored] cpp) (Some 0%nat)
  = Some (ChoiceRule (PairCreatorA.cleanRule stored)).
Proof.
  intros h stored.
  apply (custom_rules_are_offered_first h [stored] cpp 0%nat stored). reflexivity.
Defined.

(** ** The order of the built-in templates *)

Lemma adaptRuleForDisplay_run rule w :
  exists rule',
    UIB.adaptRuleForDisplay rule w = (inr rule', w)
    /\ key rule' = key rule /\ label rule' = label rule /\ language rule' = language rule
    /\ isClass rule' = isClass rule /\ isStruct rule' = isStruct rule.
Proof.
  unfold UIB.adaptRuleForDisplay.
  case_decide; [by exists rule|].
  unfold ServiceB_rest.getCustomCppExtensions, ServiceB_rest.getAllPairingRules,
    ServiceB_rest.getRules, get_world, mbind, M_bind, mret, M_ret. cbn.
  destruct (List.find _ _) as [first|]; cbn; [|by exists rule].
  eexists. split; [reflexivity|]. done.
Qed.

Lemma mapM_adaptRuleForDisplay_run (l : list PairingRule) w :
  exists l',
    mapM UIB.adaptRuleForDisplay l w = (inr l', w)
    /\ map key l' = map key l /\ map language l' = map language l.
Proof.
  induction l as [|rule l IH]; [by exists []|].
  destruct (adaptRuleForDisplay_run rule w) as (rule' & E & K & _ & L & _).
  destruct IH as (l' & El & Kl & Ll).
  exists (rule' :: l'). cbn [mapM].
  rewrite (bind_run _ _ _ _ _ E), (bind_run _ _ _ _ _ El).
  split; [reflexivity|]. cbn. by rewrite K, L, Kl, Ll.
Qed.

(** X12. The built-in templates are listed in the order fixed for the
    detected language and its certainty: sorting by the position of the key
    puts the keys in exactly that order and loses no template, in the first
    [PairCreator], in the second and in the last revision, whose adaptation
    to custom extensions changes neither key nor language. *)
Theorem templateChoices_in_desired_order language' uncertain' :
  (map key (PairCreatorA.templateChoices language' uncertain')
   = desiredOrder language' uncertain'
   /\ PairCreatorA.templateChoices language' uncertain' ≡ₚ PairCreatorA.TEMPLATE_RULES)
  /\ (forall w, exists choices,
         PairCreatorB.templateChoices language' uncertain' w = (inr choices, w)
         /\ map key choices = desiredOrder language' uncertain'
         /\ map language choices
            = map language (PairCreatorA.templateChoices language' uncertain'))
  /\ (forall w, exists choices,
         UIB.prepareTemplateChoices language' uncertain' w = (inr choices, w)
         /\ map key choices = desiredOrder language' uncertain'
         /\ map language choices
            = map language (PairCreatorA.templateChoices language' uncertain')).
Proof.
  split_and!.
  - by destruct language', uncertain'.
  - destruct language', uncertain'; apply (bool_decide_unpack _); by vm_compute.
  - intros w. unfold PairCreatorB.templateChoices.
    match goal with
    | |- context [mapM _ ?l] =>
        destruct (mapM_adapt_run language' l w) as (choices & E & K & L)
    end.
    exists choices. split; [exact E|]. rewrite K, L.
    by destruct language', uncertain'.
  - intros w. unfold UIB.prepareTemplateChoices.
    match goal with
    | |- context [mapM _ ?l] =>
        destruct (mapM_adaptRuleForDisplay_run l w) as (choices & E & K & L)
    end.
    exists choices. split; [exact E|]. rewrite K, L.
    by destruct language', uncertain'.
Qed.

(** ** A write that fails *)

Section FailedWrite.
Import PairCreatorA.
Context (h : Host) (u : User).


End FailedWrite.



(** ** Existence checks *)

Lemma checkFileExistence_B_run headerPath sourcePath w :
  ServiceB_rest.checkFileExistence headerPath sourcePath w
  = (inr (if exists_in w headerPath then Some headerPath
          else if exists_in w sourcePath then Some sourcePath else None), w).
Proof.
  unfold ServiceB_rest.checkFileExistence, stat, mbind, M_bind, mret, M_ret. cbn.
  destruct (exists_in w headerPath), (exists_in w sourcePath); reflexivity.
Qed.

(** X14. The services check both targets at once and return the first path
    that exists; the answer is the one of the [PairCreator]s, which stop at
    the first target that exists: the header if it is there, else the source
    if it is there, else none.  No check changes the world. *)
Theorem checkFileExistence_first_existing headerPath sourcePath w :
  ServiceB_rest.checkFileExistence headerPath sourcePath w
  = PairCreatorA.checkFileExistence headerPath sourcePath w
  /\ PairCreatorA.checkFileExistence headerPath sourcePath w
     = (inr (if exists_in w headerPath then Some headerPath
             else if exists_in w sourcePath then Some sourcePath else None), w).
Proof.
  split; [|apply checkFileExistence_run].
  by rewrite checkFileExistence_run, checkFileExistence_B_run.
Qed.

(** X15. [fileExists] answers from its cache.  The first call for a path
    asks the file system and remembers the answer; from then on, and as long
    as the entry is kept, every call returns that answer and changes
    nothing, whatever has happened to the file since. *)
Theorem fileExists_is_memoised p w :
  let r := (ServiceA.fileExists p w).1 in
  let w1 := (ServiceA.fileExists p w).2 in
  (statCache w !! p = None -> r = inr (exists_in w p))
  /\ files w1 = files w /\ settings w1 = settings w /\ trace w1 = trace w
  /\ (forall q, q <> p -> statCache w1 !! q = statCache w !! q)
  /\ (forall w2, statCache w2 !! p = statCache w1 !! p ->
                 ServiceA.fileExists p w2 = (r, w2)).
Proof.
  intros r w1. subst r w1. unfold ServiceA.fileExists.
  destruct (statCache w !! p) as [answer|] eqn:Hp; cbn.
  - split_and!; try done. intros w2 ->. by rewrite Hp.
  - split_and!; try done.
    + intros q Hq. by rewrite lookup_insert_ne.
    + intros w2 ->. by rewrite lookup_insert_eq.
Qed.

Lemma fileExists_is_memoised_witness :
  let w := demo_world ∅ in
  let w1 := (ServiceA.fileExists "/src/foo.c" w).2 in
  let w2 := with_files {[ "/src/foo.c" := "int x;" ]} w1 in
  ServiceA.fileExists "/src/foo.c" w2 = (inr false, w2).
Proof.
  intros w w1 w2.
  destruct (fileExists_is_memoised "/src/foo.c" w) as (_ & _ & _ & _ & _ & H).
  apply (H w2). reflexivity.
Defined.

(** ** The settings user interface *)

Section RuleUI.
Import PairingRuleServiceNs PairingRuleUINs.
Context (stringify : StoredRule -> string) (updateError : Scope -> option string).






Lemma resetRules_run scope cfg :
  exists cfg',
    (resetRules updateError scope cfg).2 = cfg'
    /\ forall other,
         getRules other cfg' = getRules other cfg
         \/ (other = scope /\ updateError scope = None
             /\ (resetRules updateError scope cfg).1 = inr tt
             /\ getRules other cfg' = None).
Proof.
  eexists. split; [reflexivity|]. intros other.
  unfold resetRules, update, handleError.
  destruct (updateError scope) as [e|]; cbn; [by left|].
  destruct scope, other; cbn; auto.
Qed.

End RuleUI.



(** X17. The advanced menu of the settings interface never adds or alters
    rules: whatever is picked, the rules of a scope afterwards are those from
    before, or they are removed; they are removed only for a scope that had
    rules of its own, whose reset item is therefore in the menu, and only
    when the host accepted the update. *)
Theorem advanced_menu_only_resets_set_scopes updateError a cfg log result cfg' log' :
  PairingRuleUINs.showAdvancedManagementMenu updateError a (cfg, log)
  = (result, (cfg', log')) ->
  forall scope,
    PairingRuleUINs.getRules scope cfg' = PairingRuleUINs.getRules scope cfg
    \/ (PairingRuleUINs.hasCustomRules scope cfg = true
        /\ PairingRuleUINs.getRules scope cfg' = None
        /\ updateError scope = None
        /\ result = inr tt).
Proof.
  unfold PairingRuleUINs.showAdvancedManagementMenu, PairingRuleUINs.andThen,
    PairingRuleUINs.show. cbn [fst snd].
  destruct (pick _ _) as [k|] eqn:Hp; [|intros [= <- <- <-]; by left].
  destruct (JS.truthy k); [|intros [= <- <- <-]; by left].
  apply bind_Some in Hp as (n & _ & Hk). apply list_elem_of_lookup_2 in Hk.
  unfold PairingRuleUINs.handleAdvancedMenuSelection, PairingRuleUINs.andThen,
    PairingRuleUINs.show, PairingRuleUINs.call.
  repeat case_decide; subst; cbn [fst snd]; try (intros [= <- <- <-]; by left).
  - assert (Hh : PairingRuleUINs.hasCustomRules workspace cfg = true).
    { unfold PairingRuleUINs.createAdvancedMenuItems in Hk.
      destruct (PairingRuleUINs.hasCustomRules workspace cfg); [done|].
      destruct (PairingRuleUINs.hasCustomRules user cfg); cbn in Hk;
        repeat (apply elem_of_cons in Hk as [Hk|Hk]; [done|]); by apply elem_of_nil in Hk. }
    destruct (resetRules_run updateError workspace cfg) as (c & Hc & Hr).
    destruct (PairingRuleServiceNs.resetRules updateError workspace cfg) as [[e|[]] c'] eqn:E;
      cbn [fst snd] in *; subst c'; intros [= <- <- <-]; intros scope;
      destruct (Hr scope) as [Hsame|(-> & Hu & Hres & Hn)]; auto; try done.
  - assert (Hh : PairingRuleUINs.hasCustomRules user cfg = true).
    { unfold PairingRuleUINs.createAdvancedMenuItems in Hk.
      destruct (PairingRuleUINs.hasCustomRules user cfg); [done|].
      destruct (PairingRuleUINs.hasCustomRules workspace cfg); cbn in Hk;
        repeat (apply elem_of_cons in Hk as [Hk|Hk]; [done|]); by apply elem_of_nil in Hk. }
    destruct (resetRules_run updateError user cfg) as (c & Hc & Hr).
    destruct (PairingRuleServiceNs.resetRules updateError user cfg) as [[e|[]] c'] eqn:E;
      cbn [fst snd] in *; subst c'; intros [= <- <- <-]; intros scope;
      destruct (Hr scope) as [Hsame|(-> & Hu & Hres & Hn)]; auto; try done.
Qed.

Lemma advanced_menu_only_resets_set_scopes_witness :
  let old := PairingRuleServiceNs.mkStoredRule (Some "old") "Old" "An old rule"
               (Some "cpp") (Some ".h") (Some ".cpp") None None in
  let cfg := PairingRuleServiceNs.mkConfig (Some [old]) (Some [old]) [] [] in
  let a := PairingRuleUINs.mkAnswers None None (Some 1%nat) in
  let st' := (PairingRuleUINs.showAdvancedManagementMenu (fun _ => None) a
                (cfg, [])).2 in
  (PairingRuleUINs.getRules workspace st'.1 = None
   /\ PairingRuleUINs.getRules user st'.1 = Some [old])
  /\ (PairingRuleUINs.getRules workspace st'.1 = PairingRuleUINs.getRules workspace cfg
      \/ PairingRuleUINs.hasCustomRules workspace cfg = true
         /\ PairingRuleUINs.getRules workspace st'.1 = None
         /\ (fun _ : Scope => @None string) workspace = None
         /\ @inr string unit tt = inr tt).
Proof.
  intros old cfg a st'. split; [by split|].
  exact (advanced_menu_only_resets_set_scopes (fun _ => None) a cfg []
           (inr tt) st'.1 st'.2 eq_refl workspace).
Defined.

(** ** The coordinator of the last revision *)

Section Quiet.
Context (u : User).

Lemma quiet_of_calm {A} (C : A -> Prop) (m : M A) : calm u C m -> quiet u C m.
Proof.
  intros Hm w. destruct (Hm w) as (x & w' & evs & E & F & _ & T & HC).
  by exists x, w', evs.
Qed.

(** A call that returns without touching the world. *)
Lemma quiet_pure {A} (C : A -> Prop) (m : M A) :
  (forall w, exists x, m w = (inr x, w)) -> quiet u C m.
Proof.
  intros Hm w. destruct (Hm w) as (x & E). exists x, w, []. split_and!; try done.
  - by rewrite app_nil_r.
  - intros (e & He & _). by apply elem_of_nil in He.
Qed.

Lemma quiet_ret {A} (C : A -> Prop) (x : A) : quiet u C (mret x).
Proof. apply quiet_pure. intros w. by exists x. Qed.

Lemma quiet_bind {A B} (C : A -> Prop) (D : B -> Prop) (m : M A) (k : A -> M B) :
  quiet u C m ->
  (forall x, quiet u D (k x)) ->
  (forall x, C x -> always D (k x)) ->
  quiet u D (m ≫= k).
Proof.
  intros Hm Hk HC w.
  destruct (Hm w) as (x & w1 & e1 & E1 & F1 & T1 & C1).
  destruct (Hk x w1) as (y & w2 & e2 & E2 & F2 & T2 & C2).
  exists y, w2, (e1 ++ e2)%list. unfold mbind, M_bind. rewrite E1.
  split_and!; try congruence.
  - by rewrite T2, T1, app_assoc.
  - intros (e & He & Hd). apply elem_of_app in He as [He | He].
    + eapply HC; [apply C1; eauto | exact E2].
    + apply C2. eauto.
Qed.

Lemma quiet_emit_bind {B} (D : B -> Prop) (e : Event) (k : M B) :
  quiet u D k ->
  (dismissed u e -> always D k) ->
  quiet u D (emit e ≫= fun _ => k).
Proof.
  intros Hk Hd w.
  destruct (Hk (with_trace (trace w ++ [e]) w)) as (y & w2 & e2 & E2 & F2 & T2 & C2).
  exists y, w2, (e :: e2). unfold mbind, M_bind, emit. rewrite E2.
  split_and!; try done.
  - rewrite T2. cbn. by rewrite <- app_assoc.
  - intros (e' & He' & Hd'). apply elem_of_cons in He' as [-> | He'].
    + eapply Hd; [exact Hd' | exact E2].
    + apply C2. eauto.
Qed.

(** The existence check only fills its cache. *)
Lemma quiet_fileExists (C : bool -> Prop) p : quiet u C (ServiceB.fileExists p).
Proof.
  intros w. unfold ServiceB.fileExists, ServiceA.fileExists.
  destruct (statCache w !! p) as [answer|]; eexists _, _, []; (split; [reflexivity|]);
    (split_and!; [done|by rewrite app_nil_r|]);
    intros (e & He & _); by apply elem_of_nil in He.
Qed.

Lemma quiet_mapM {A B} (f : A -> M B) (l : list A) :
  (forall x, quiet u (fun _ => False) (f x)) -> quiet u (fun _ => False) (mapM f l).
Proof.
  intros Hf. induction l as [|x l IH]; cbn [mapM]; [apply quiet_ret|].
  eapply quiet_bind; [apply Hf| |done].
  intros y. eapply quiet_bind; [apply IH| |done].
  intros k. apply quiet_ret.
Qed.

Lemma quiet_Promise_all {A} (l : list (M A)) :
  Forall (quiet u (fun _ => False)) l -> quiet u (fun _ => False) (JSLib.Promise_all l).
Proof.
  induction 1 as [|m l Hm _ IH]; [apply quiet_ret|].
  intros w. cbn [JSLib.Promise_all].
  destruct (Hm w) as (x & w1 & e1 & E1 & F1 & T1 & C1). rewrite E1.
  destruct (IH w1) as (xs & w2 & e2 & E2 & F2 & T2 & C2). rewrite E2.
  exists (x :: xs), w2, (e1 ++ e2)%list. split_and!; try congruence.
  - by rewrite T2, T1, app_assoc.
  - intros (e & He & Hd). apply elem_of_app in He as [He | He]; eauto.
Qed.

Lemma quiet_try_catch {A} (C : A -> Prop) (m : M A) handler :
  quiet u C m -> quiet u C (try_catch m handler).
Proof.
  intros Hm w. destruct (Hm w) as (x & w1 & e1 & E1 & R). exists x, w1, e1.
  unfold try_catch. by rewrite E1.
Qed.

Lemma careful_of_quiet {A} (C : A -> Prop) (m : M A) : quiet u C m -> careful u m.
Proof.
  intros Hm w. destruct (Hm w) as (x & w1 & e1 & E1 & F1 & T1 & _).
  exists (inr x), w1, e1. split_and!; try done; by rewrite F1.
Qed.

(** After a quiet step the flow may go on to a careful one, which must leave
    the files alone when the step was ended by a dismissal. *)
Lemma careful_bind {A B} (C : A -> Prop) (m : M A) (k : A -> M B) :
  quiet u C m ->
  (forall x, careful u (k x)) ->
  (forall x, C x -> forall w, files (k x w).2 = files w) ->
  careful u (m ≫= k).
Proof.
  intros Hm Hk HC w.
  destruct (Hm w) as (x & w1 & e1 & E1 & F1 & T1 & C1).
  destruct (Hk x w1) as (r & w2 & e2 & E2 & T2 & K2 & D2).
  exists r, w2, (e1 ++ e2)%list. unfold mbind, M_bind. rewrite E1.
  split_and!; try done.
  - by rewrite T2, T1, app_assoc.
  - intros p Hp. rewrite <- F1. apply K2. by rewrite F1.
  - intros (e & He & Hd). apply elem_of_app in He as [He | He].
    + rewrite <- F1. specialize (HC x (C1 (ex_intro _ e (conj He Hd))) w1).
      by rewrite E2 in HC.
    + rewrite <- F1. apply D2. eauto.
Qed.

Lemma careful_emit (e : Event) : ~ dismissed u e -> careful u (emit e).
Proof.
  intros Hd w. exists (inr tt), (with_trace (trace w ++ [e]) w), [e].
  split_and!; try done.
Qed.

End Quiet.

Section CoordinatorFacts.
Context (h : Host) (u : User) (platform : string)
        (readDirectory : string -> string + list (string * N)).

Lemma getTargetDirectory_B_quiet : quiet u (fun r => r = None) (UIB.getTargetDirectory h u).
Proof.
  unfold UIB.getTargetDirectory.
  destruct (ServiceB_rest.getTargetDirectory _ _ _); [apply quiet_ret|].
  destruct (workspaceFolders h) as [[|f1 [|f2 fs]]|]; try apply quiet_ret.
  apply quiet_emit_bind; [apply quiet_ret|].
  intros Hd. apply always_ret. cbn in Hd. by rewrite Hd.
Qed.

Lemma ui_detectLanguage_quiet : quiet u (fun _ => False) (ServiceB.ui_detectLanguage h).
Proof.
  unfold ServiceB.ui_detectLanguage, ServiceB.detectLanguage.
  repeat (first [case_decide | case_match]; try apply quiet_ret).
  all: unfold ServiceB.detectLanguageForHeaderFile.
  all: eapply quiet_bind with (C := fun _ => False); [| |done].
  all: try (intros [r|]; apply quiet_ret).
  all: eapply quiet_bind with (C := fun _ => False); [apply quiet_fileExists| |done].
  all: intros []; [apply quiet_ret|].
  all: eapply quiet_bind with (C := fun _ => False);
    [apply quiet_mapM; intros; apply quiet_fileExists| |done].
  all: intros results; destruct (existsb id results); apply quiet_ret.
Qed.

Lemma mapM_adaptRuleForDisplay_quiet (l : list PairingRule) :
  quiet u (fun _ => False) (mapM UIB.adaptRuleForDisplay l).
Proof.
  apply quiet_pure. intros w.
  destruct (mapM_adaptRuleForDisplay_run l w) as (l' & E & _). by exists l'.
Qed.

Lemma selectFromCustomRules_B_quiet allRules language' :
  quiet u (fun r => r = None) (UIB.selectFromCustomRules u allRules language').
Proof.
  unfold UIB.selectFromCustomRules.
  eapply quiet_bind with (C := fun _ => False); [| |done].
  - unfold UIB.prepareCustomRulesChoices.
    eapply quiet_bind with (C := fun _ => False); [| |done].
    + destruct (head _) as [customExt|]; [case_decide; [apply quiet_ret|]|];
        apply mapM_adaptRuleForDisplay_quiet.
    + intros adapted.
      eapply quiet_bind; [apply mapM_adaptRuleForDisplay_quiet| |done].
      intros others. apply quiet_ret.
  - intros [[adapted others] cleaned].
    apply quiet_emit_bind; [apply quiet_ret|].
    intros Hd. apply always_ret. cbn in Hd. by rewrite Hd.
Qed.

Lemma offerToCreateCustomRules_B_quiet language' :
  quiet u (fun r => r = None) (UIB.offerToCreateCustomRules u language').
Proof.
  unfold UIB.offerToCreateCustomRules, PairCreatorB.offerToCreateCustomRules.
  case_decide; [apply quiet_ret|].
  apply quiet_emit_bind; [apply quiet_ret|].
  intros Hd. apply always_ret. cbn in Hd. by rewrite Hd.
Qed.

Lemma checkAndOfferCustomRules_B_quiet language' uncertain' :
  quiet u (fun r => r = Cancelled) (UIB.checkAndOfferCustomRules h u language' uncertain').
Proof.
  unfold UIB.checkAndOfferCustomRules. case_decide; [apply quiet_ret|].
  eapply quiet_bind with (C := fun _ => False); [| |done].
  { apply quiet_pure. intros w. by eexists. }
  intros allRules. destruct (0 <? _)%nat.
  - eapply quiet_bind; [apply selectFromCustomRules_B_quiet| |].
    + intros [[r|]|]; apply quiet_ret.
    + intros x ->. by apply always_ret.
  - destruct uncertain'; cbn [negb]; [apply quiet_ret|].
    eapply quiet_bind; [apply offerToCreateCustomRules_B_quiet| |].
    + intros [[|]|]; try apply quiet_ret.
      eapply quiet_bind; [apply quiet_of_calm, createCustomRules_B_calm| |].
      * intros [r|]; apply quiet_ret.
      * intros x ->. by apply always_ret.
    + intros x ->. by apply always_ret.
Qed.

Lemma shouldShowLanguageMismatchWarning_quiet language' result :
  quiet u (fun _ => False)
    (UIB.shouldShowLanguageMismatchWarning h readDirectory language' result).
Proof.
  unfold UIB.shouldShowLanguageMismatchWarning, ServiceB_rest.shouldShowLanguageMismatchWarning.
  destruct (UIB.activeDocumentPath h) as [p|]; cbn [fmap option_fmap option_map];
    [|apply quiet_ret].
  destruct (_ || _); [apply quiet_ret|].
  destruct (_ && _).
  - unfold ServiceB_rest.checkForCppFilesInDirectory.
    destruct (readDirectory _); apply quiet_ret.
  - unfold ServiceB_rest.checkForCorrespondingSourceFiles.
    apply quiet_try_catch.
    eapply quiet_bind; [apply quiet_Promise_all| |done].
    + apply Forall_map, Forall_forall. intros ext _. apply quiet_fileExists.
    + intros results. apply quiet_ret.
Qed.

Lemma promptForPairingRule_B_quiet language' uncertain' :
  quiet u (fun r => r = None) (UIB.promptForPairingRule h u readDirectory language' uncertain').
Proof.
  unfold UIB.promptForPairingRule.
  assert (Htemplates :
    quiet u (fun r => r = None)
      (choices ← UIB.prepareTemplateChoices language' uncertain';
       _ ← emit (TemplatePick choices);
       match pick choices (templateChoice u) with
       | Some result =>
           if bool_decide (language' = c) && bool_decide (language result = cpp) then
             shouldShowWarning ← UIB.shouldShowLanguageMismatchWarning h readDirectory
                                   language' result;
             if (shouldShowWarning : bool) then
               let buttons := ["Continue"; "Cancel"] in
               _ ← emit (MismatchWarning UIB.mismatch_message buttons);
               let shouldContinue := pick buttons (mismatchAnswer u) in
               if decide (shouldContinue <> Some "Continue") then mret None
               else mret (Some result)
             else mret (Some result)
           else mret (Some result)
       | None => mret None
       end)).
  { eapply quiet_bind with (C := fun _ => False);
      [apply mapM_adaptRuleForDisplay_quiet| |done].
    intros choices. apply quiet_emit_bind.
    - destruct (pick choices (templateChoice u)) as [result|]; [|apply quiet_ret].
      destruct (_ && _); [|apply quiet_ret].
      eapply quiet_bind; [apply shouldShowLanguageMismatchWarning_quiet| |done].
      intros []; [|apply quiet_ret].
      apply quiet_emit_bind.
      + cbv zeta. case_decide; apply quiet_ret.
      + intros Hd. cbn in Hd. rewrite Hd. cbn. by apply always_ret.
    - intros Hd. cbn in Hd. rewrite Hd. cbn. by apply always_ret. }
  eapply quiet_bind; [apply checkAndOfferCustomRules_B_quiet| |].
  - intros [r| | |]; try apply quiet_ret; exact Htemplates.
  - intros x ->. by apply always_ret.
Qed.

Lemma promptForFileName_B_quiet rule :
  quiet u (fun r => r = None) (UIB.promptForFileName u rule).
Proof.
  unfold UIB.promptForFileName. apply quiet_emit_bind; [apply quiet_ret|].
  intros Hd. apply always_ret. cbn in Hd. by rewrite Hd.
Qed.

(** The write step of the coordinator. *)
Lemma coordinator_write_careful headerPath sourcePath headerContent sourceContent :
  headerPath <> "" -> sourcePath <> "" ->
  careful u
    (existingFilePath ← ServiceB_rest.checkFileExistence headerPath sourcePath;
     let write : M unit :=
       _ ← ServiceB_rest.writeFiles h headerPath sourcePath headerContent sourceContent;
       UIB.showSuccessAndOpenFile h headerPath sourcePath in
     match existingFilePath with
     | Some existing =>
         if JS.truthy existing
         then emit (ErrorMessage ("File already exists: " ++ existing))
         else write
     | None => write
     end).
Proof.
  intros Hh Hs w. unfold mbind, M_bind at 1. rewrite checkFileExistence_B_run.
  destruct (exists_in w headerPath) eqn:Eh; [|destruct (exists_in w sourcePath) eqn:Es].
  - destruct headerPath; [done|]. cbn [JS.truthy].
    eexists _, _, [_]. split; [reflexivity|]. split_and!; done.
  - destruct sourcePath; [done|]. cbn [JS.truthy].
    eexists _, _, [_]. split; [reflexivity|]. split_and!; done.
  - assert (Hfree : forall p, is_Some (files w !! p) -> p <> headerPath /\ p <> sourcePath).
    { intros p Hp. unfold exists_in in Eh, Es.
      apply bool_decide_eq_false in Eh, Es. split; intros ->; done. }
    unfold ServiceB_rest.writeFiles, UIB.showSuccessAndOpenFile, try_catch, writeFile, emit,
      throw, mbind, M_bind, mret, M_ret. cbn [JSLib.Promise_all].
    destruct (writeError h headerPath) as [e1|], (writeError h sourcePath) as [e2|];
      cbn -[String.append].
    + eexists _, _, [_; _]. split; [reflexivity|].
      split_and!; [by rewrite <- app_assoc|done|done].
    + eexists _, _, [_; _]. split; [reflexivity|].
      split_and!; [by rewrite <- app_assoc| |].
      * intros p Hp. destruct (Hfree p Hp). cbn. by rewrite lookup_insert_ne.
      * intros (e & He & Hd). rewrite !elem_of_cons, elem_of_nil in He.
        destruct He as [-> | [-> | []]]; destruct Hd.
    + eexists _, _, [_; _]. split; [reflexivity|].
      split_and!; [by rewrite <- app_assoc| |].
      * intros p Hp. destruct (Hfree p Hp). cbn. by rewrite lookup_insert_ne.
      * intros (e & He & Hd). rewrite !elem_of_cons, elem_of_nil in He.
        destruct He as [-> | [-> | []]]; destruct Hd.
    + eexists _, _, [_; _; _; _]. split; [reflexivity|].
      split_and!; [by rewrite <- !app_assoc| |].
      * intros p Hp. destruct (Hfree p Hp). cbn. by rewrite !lookup_insert_ne.
      * intros (e & He & Hd). rewrite !elem_of_cons, elem_of_nil in He.
        destruct He as [-> | [-> | [-> | [-> | []]]]]; destruct Hd.
Qed.

End CoordinatorFacts.

Lemma Posix_join_nonempty a b : Posix.join a b <> "".
Proof.
  unfold Posix.join. destruct a as [|ch a]; [by destruct b|].
  destruct (Posix.strip_slashes_end (String ch a)); done.
Qed.

(** X18. The coordinator of the last revision never throws and never changes
    a file that exists: whatever the user answers and whatever the host does,
    [create] returns, every file that was there before has its content, and
    the trace has only grown.  When any dialog it showed was dismissed, no
    file was written at all.  The precondition is that of Node's [path.join],
    which never returns the empty string. *)
Theorem coordinator_create_keeps_existing_files h u platform readDirectory w :
  (forall a b, join (path h) a b <> "") ->
  exists w' evs,
    Coordinator.create h u platform readDirectory w = (inr tt, w')
    /\ trace w' = (trace w ++ evs)%list
    /\ (forall p, is_Some (files w !! p) -> files w' !! p = files w !! p)
    /\ ((exists e, e ∈ evs /\ dismissed u e) -> files w' = files w).
Proof.
  intros Hjoin. unfold Coordinator.create.
  match goal with |- context [try_catch ?body _] => assert (Hbody : careful u body) end.
  { eapply careful_bind; [apply getTargetDirectory_B_quiet| |].
    - intros [targetDirectory|]; [|apply careful_emit; intros []].
      eapply careful_bind with (C := fun _ => False); [apply ui_detectLanguage_quiet| |done].
      intros detection.
      eapply careful_bind; [apply promptForPairingRule_B_quiet| |].
      + intros [rule|]; [|apply (careful_of_quiet u (fun _ => False)), quiet_ret].
        eapply careful_bind; [apply promptForFileName_B_quiet| |].
        * intros [fileName|]; [|apply (careful_of_quiet u (fun _ => False)), quiet_ret].
          destruct (negb _); [apply (careful_of_quiet u (fun _ => False)), quiet_ret|].
          cbv zeta. destruct (ServiceB_content.generateFileContent _ _ _) as [hc sc].
          apply coordinator_write_careful; apply Hjoin.
        * by intros x -> w0.
      + by intros x -> w0.
    - by intros x -> w0. }
  destruct (Hbody w) as (r & w1 & evs & E & T & K & D).
  unfold try_catch. rewrite E. destruct r as [message|[]].
  - eexists _, (evs ++ [_])%list. split; [reflexivity|].
    split_and!; [cbn; by rewrite T, app_assoc|done|].
    intros (e & He & Hd). apply elem_of_app in He as [He|He]; [apply D; eauto|].
    apply list_elem_of_singleton in He as ->. destruct Hd.
  - by exists w1, evs.
Qed.

Lemma coordinator_create_keeps_existing_files_witness :
  let h := demo_host (Some (mkDocument "cpp" "/src/main.cpp" false)) in
  let w := demo_world {[ "/src/main.cpp" := "int main() {}"; "/src/Foo.h" := "#pragma once" ]} in
  exists w' evs,
    Coordinator.create h demo_user "linux" (fun _ => inl "ENOENT") w = (inr tt, w')
    /\ trace w' = (trace w ++ evs)%list
    /\ files w' !! "/src/Foo.h" = Some "#pragma once".
Proof.
  intros h w.
  destruct (coordinator_create_keeps_existing_files h demo_user "linux"
              (fun _ => inl "ENOENT") w Posix_join_nonempty)
    as (w' & evs & E & T & K & _).
  exists w', evs. split_and!; [exact E|exact T|].
  rewrite K; [|eexists]; vm_compute; reflexivity.
Defined.

Ltac warned_run :=
  unfold mbind, M_bind, mret, M_ret, emit, with_trace; cbn;
  repeat case_decide; try done; cbn; by rewrite <- ?app_assoc.

(** X19. The cross-language confirmation of the last revision.  In a C
    context the pick of a C++ template is questioned only when the directory
    of the saved active file shows no regular file with a definitive C++
    extension, or cannot be read, or no saved file is active; the flow then
    goes on only with "Continue".  A C template is returned at once, and the
    certainty of the detection plays no part.  In a C++ context the pick from
    the built-in list is never questioned. *)
Theorem last_revision_mismatch_warning h u readDirectory :
  (forall w uncertain' choices result,
      UIB.prepareTemplateChoices c uncertain' w = (inr choices, w) ->
      pick choices (templateChoice u) = Some result ->
      let cpp_file_seen :=
        match UIB.activeDocumentPath h with
        | Some p =>
            JS.truthy (dirname (path h) p) && JS.truthy p
            && match readDirectory (dirname (path h) p) with
               | inr entries =>
                   existsb (fun entry : string * N =>
                              (entry.2 =? 1)%N
                              && ServiceB.has ServiceB.DEFINITIVE_EXTENSIONS_cpp
                                   (extname (path h) entry.1))
                     entries
               | inl _ => false
               end
        | None => false
        end in
      UIB.promptForPairingRule h u readDirectory c uncertain' w
      = if bool_decide (language result = cpp) && negb cpp_file_seen
        then (inr (if decide (pick ["Continue"; "Cancel"] (mismatchAnswer u) = Some "Continue")
                   then Some result else None),
              with_trace (trace w ++ [TemplatePick choices;
                                      MismatchWarning UIB.mismatch_message
                                        ["Continue"; "Cancel"]]) w)
        else (inr (Some result), with_trace (trace w ++ [TemplatePick choices]) w))
  /\ (forall w uncertain' r w1 choices,
         UIB.checkAndOfferCustomRules h u cpp uncertain' w = (inr r, w1) ->
         r = UseDefault \/ r = NoCustomRules ->
         UIB.prepareTemplateChoices cpp uncertain' w1 = (inr choices, w1) ->
         UIB.promptForPairingRule h u readDirectory cpp uncertain' w
         = (inr (pick choices (templateChoice u)),
            with_trace (trace w1 ++ [TemplatePick choices]) w1)).
Proof.
  split.
  - intros w uncertain' choices result Hc Hpick cpp_file_seen.
    unfold UIB.promptForPairingRule, UIB.checkAndOfferCustomRules.
    rewrite decide_True by done.
    unfold mbind at 1, M_bind at 1, mret at 1, M_ret at 1.
    rewrite (bind_run _ _ _ _ _ Hc).
    unfold mbind at 1, M_bind at 1, emit at 1. rewrite Hpick.
    rewrite bool_decide_eq_true_2 by done. cbn [andb].
    destruct (bool_decide (language result = cpp)) eqn:Hcpp; [|reflexivity]. cbn [andb].
    unfold UIB.shouldShowLanguageMismatchWarning,
      ServiceB_rest.shouldShowLanguageMismatchWarning in *.
    subst cpp_file_seen.
    destruct (UIB.activeDocumentPath h) as [p|]; cbn [fmap option_fmap option_map].
    + destruct (JS.truthy (dirname (path h) p)), (JS.truthy p); cbn [negb orb andb].
      2-4: warned_run.
      rewrite bool_decide_eq_true_2 by done. rewrite Hcpp. cbn [andb].
      unfold ServiceB_rest.checkForCppFilesInDirectory.
      destruct (readDirectory (dirname (path h) p)) as [e|entries].
      * warned_run.
      * destruct (existsb _ entries); [reflexivity|].
        warned_run.
    + warned_run.
  - intros w uncertain' r w1 choices Hr Hor Hc.
    unfold UIB.promptForPairingRule. rewrite (bind_run _ _ _ _ _ Hr).
    assert (Hrun : (choices ← UIB.prepareTemplateChoices cpp uncertain';
                    _ ← emit (TemplatePick choices);
                    match pick choices (templateChoice u) with
                    | Some result =>
                        if bool_decide (cpp = c) && bool_decide (language result = cpp) then
                          shouldShowWarning ← UIB.shouldShowLanguageMismatchWarning h
                                                readDirectory cpp result;
                          if (shouldShowWarning : bool) then
                            let buttons := ["Continue"; "Cancel"] in
                            _ ← emit (MismatchWarning UIB.mismatch_message buttons);
                            let shouldContinue := pick buttons (mismatchAnswer u) in
                            if decide (shouldContinue <> Some "Continue") then mret None
                            else mret (Some result)
                          else mret (Some result)
                        else mret (Some result)
                    | None => mret None
                    end) w1
                   = (inr (pick choices (templateChoice u)),
                      with_trace (trace w1 ++ [TemplatePick choices]) w1)).
    { rewrite (bind_run _ _ _ _ _ Hc). unfold mbind, M_bind, emit.
      by destruct (pick choices (templateChoice u)). }
    by destruct Hor as [-> | ->].
Qed.

Lemma last_revision_mismatch_warning_witness :
  let h := demo_host (Some (mkDocument "c" "/src/main.c" false)) in
  let w := demo_world ∅ in
  (UIB.promptForPairingRule h crossing_user (fun _ => inr [("util.cpp", 1%N)]) c false w).1
  = inr (head (filter (fun rule => key rule = "cpp_empty") UIB.TEMPLATE_RULES))
  /\ (UIB.promptForPairingRule h crossing_user (fun _ => inr [("util.c", 1%N)]) c false w).1
     = inr None.
Proof.
  intros h w. split.
  - rewrite (proj1 (last_revision_mismatch_warning h crossing_user
                      (fun _ => inr [("util.cpp", 1%N)])) w false _ _ eq_refl eq_refl).
    reflexivity.
  - rewrite (proj1 (last_revision_mismatch_warning h crossing_user
                      (fun _ => inr [("util.c", 1%N)])) w false _ _ eq_refl eq_refl).
    reflexivity.
Defined.
